(** * Clash Verge proxy switcher: a shallow embedding of [proxy_switcher.py]

    The script talks to a local mihomo daemon over HTTP, reads and rewrites
    the Clash Verge profile registry ([profiles.yaml]) and probes the delay
    of proxy nodes.  This development embeds the relevant functions of the
    script as Rocq definitions and proves properties of them.

    Conventions of the embedding:
    - A Python value obtained from [json.loads] or [yaml.safe_load] is a
      [pyval].  Numbers are integers, as the delays and ports of the daemon
      are: a document with a floating-point number has no [pyval].
      Dictionaries have string keys and are kept as association lists in
      insertion order.
    - A Python [str] is a [string] holding its UTF-8 bytes.  A [str] with a
      lone surrogate has no UTF-8 bytes; it is the only kind of [str] that
      [urllib.parse.quote] rejects.  A [string] that is not well-formed
      UTF-8 ([well_encoded]) stands for no text, and [quote] says nothing
      about such a [str].
    - Code that can raise is a computation in the monad [M], which threads
      the mutable world (the registry file and the trace of effects) and
      either returns a value or raises. *)

From Stdlib Require Import ZArith List String Ascii Bool Lia Permutation Sorted.
From Stdlib Require Import DecimalString.
Import ListNotations.
Open Scope string_scope.
Open Scope Z_scope.

(** ** Python values *)

Set Warnings "-register-all".

Inductive pyval : Type :=
| PNone
| PBool (b : bool)
| PInt (z : Z)
| PStr (s : string)
| PList (l : list pyval)
| PDict (d : list (string * pyval)).

(** The exceptions that occur.  [UrlValueError] is the [ValueError] that
    [urllib.request.Request] raises for a URL in which it finds no scheme;
    [IncompleteRead] is the one of [http.client]. *)
Inductive exn : Type :=
| TypeError
| KeyError
| AttributeError
| UnicodeDecodeError
| OSError
| YAMLError
| UrlValueError
| IncompleteRead.

Inductive outcome (A : Type) : Type :=
| Ret (a : A)
| Raise (e : exn).
Arguments Ret {A} a.
Arguments Raise {A} e.

(** [dict.get(k)] on the association list: the first binding of [k]. *)
Fixpoint assoc (k : string) (d : list (string * pyval)) : option pyval :=
  match d with
  | [] => None
  | (k', v) :: r => if String.eqb k k' then Some v else assoc k r
  end.

(** [d[k] = v]: an existing key keeps its position, a new key goes last. *)
Fixpoint assoc_set (k : string) (v : pyval) (d : list (string * pyval))
  : list (string * pyval) :=
  match d with
  | [] => [(k, v)]
  | (k', v') :: r =>
      if String.eqb k k' then (k', v) :: r else (k', v') :: assoc_set k v r
  end.

(** Truth value of an object, as tested by [if x], [not x], [x and y]. *)
Definition truthy (v : pyval) : bool :=
  match v with
  | PNone => false
  | PBool b => b
  | PInt z => negb (z =? 0)
  | PStr s => negb (String.eqb s EmptyString)
  | PList l => match l with [] => false | _ => true end
  | PDict d => match d with [] => false | _ => true end
  end.

(** [needle in hay] on two strings. *)
Fixpoint str_contains (needle hay : string) : bool :=
  String.prefix needle hay
  || match hay with
     | EmptyString => false
     | String _ hay' => str_contains needle hay'
     end.

(** [x == s] for a string literal [s]. *)
Definition eq_str (x : pyval) (s : string) : bool :=
  match x with
  | PStr t => String.eqb t s
  | _ => false
  end.

(** [x in (s1, s2, ...)] for a tuple of string literals. *)
Definition in_strs (x : pyval) (l : list string) : bool :=
  existsb (eq_str x) l.

(** [x == y].  Booleans are integers; dictionaries are equal when they bind
    the same keys to equal values, whatever the order. *)
Fixpoint py_eq (x y : pyval) {struct x} : bool :=
  match x, y with
  | PNone, PNone => true
  | PBool a, PBool b => Bool.eqb a b
  | PBool a, PInt b => Z.b2z a =? b
  | PInt a, PBool b => a =? Z.b2z b
  | PInt a, PInt b => a =? b
  | PStr a, PStr b => String.eqb a b
  | PList a, PList b =>
      (fix go (a b : list pyval) : bool :=
         match a, b with
         | [], [] => true
         | u :: a', v :: b' => py_eq u v && go a' b'
         | _, _ => false
         end) a b
  | PDict a, PDict b =>
      (List.length a =? List.length b)%nat
      && (fix go (a : list (string * pyval)) : bool :=
            match a with
            | [] => true
            | (k, u) :: a' =>
                match assoc k b with
                | Some v => py_eq u v
                | None => false
                end && go a'
            end) a
  | _, _ => false
  end.

(** Sequencing of code that can raise but has no effect. *)
Definition obind {A B} (o : outcome A) (k : A -> outcome B) : outcome B :=
  match o with
  | Ret a => k a
  | Raise e => Raise e
  end.

Notation "'let?' x := o 'in' k" := (obind o (fun x => k))
  (at level 10, x pattern, o at level 100, k at level 200).

Fixpoint filterO {A} (f : A -> outcome bool) (l : list A) : outcome (list A) :=
  match l with
  | [] => Ret []
  | a :: r =>
      let? b := f a in
      let? r' := filterO f r in
      Ret (if (b : bool) then a :: r' else r')
  end.

Fixpoint mapO {A B} (f : A -> outcome B) (l : list A) : outcome (list B) :=
  match l with
  | [] => Ret []
  | a :: r =>
      let? b := f a in
      let? r' := mapO f r in
      Ret (b :: r')
  end.

(** [s in x] for a string [s]: substring of a string, element of a list, key
    of a dictionary; any other right operand is not iterable. *)
Definition py_in (s : string) (x : pyval) : outcome bool :=
  match x with
  | PStr t => Ret (str_contains s t)
  | PList l => Ret (existsb (fun v => eq_str v s) l)
  | PDict d => Ret (match assoc s d with Some _ => true | None => false end)
  | _ => Raise TypeError
  end.

(** [x[k]] for a string key [k]. *)
Definition py_getitem (x : pyval) (k : string) : outcome pyval :=
  match x with
  | PDict d => match assoc k d with Some v => Ret v | None => Raise KeyError end
  | _ => Raise TypeError
  end.

(** [x.get(k, dflt)]. *)
Definition py_get (x : pyval) (k : string) (dflt : pyval) : outcome pyval :=
  match x with
  | PDict d => Ret (match assoc k d with Some v => v | None => dflt end)
  | _ => Raise AttributeError
  end.

(** [x.items()]. *)
Definition py_items (x : pyval) : outcome (list (string * pyval)) :=
  match x with
  | PDict d => Ret d
  | _ => Raise AttributeError
  end.

(** The characters of a string: a byte that is not a UTF-8 continuation byte
    (10xxxxxx) starts a new character. *)
Definition is_continuation (c : ascii) : bool :=
  let n := N_of_ascii c in ((128 <=? n) && (n <? 192))%N.

Fixpoint utf8_chars (s : string) : list string :=
  match s with
  | EmptyString => []
  | String c r =>
      match utf8_chars r with
      | [] => [String c EmptyString]
      | h :: t =>
          match r with
          | String c' _ =>
              if is_continuation c' then String c h :: t
              else String c EmptyString :: h :: t
          | EmptyString => [String c EmptyString]
          end
      end
  end.

(** [for v in x]: the elements of a list, the characters of a string, the
    keys of a dictionary. *)
Definition py_iter (x : pyval) : outcome (list pyval) :=
  match x with
  | PList l => Ret l
  | PStr s => Ret (map PStr (utf8_chars s))
  | PDict d => Ret (map (fun kv => PStr (fst kv)) d)
  | _ => Raise TypeError
  end.

(** ** Node classification *)

(** Nodes with these keywords in their name are info-only rows. *)
Definition INFO_KEYWORDS : list string :=
  ["剩余流量"; "距离下次"; "套餐到期"; "过期时间"; "到期时间"; "官网"].

(** The declared kinds of groups and built-in sinks. *)
Definition RESERVED_TYPES : list string :=
  ["Selector"; "Direct"; "Reject"; "RejectDrop"; "Pass"; "Compatible"].

(** [any(kw in name for kw in INFO_KEYWORDS)] *)
Definition is_informational (name : string) : bool :=
  existsb (fun kw => str_contains kw name) INFO_KEYWORDS.

(** The filter of [cmd_test] and [cmd_switch_profile] over the daemon's
    listing: [info.get("type") not in (...) and not any(kw in name ...)]. *)
Definition is_real_node (name : string) (declared_type : pyval) : bool :=
  negb (in_strs declared_type RESERVED_TYPES) && negb (is_informational name).

(** ** The world: files, the daemon, and the trace of effects *)

(** One call of [api_request]: [sent] is the request body, [None] when
    [data] is falsy. *)
Record api_call : Type := ApiCall {
  call_method : string;
  call_path : string;
  call_sent : option pyval
}.

(** What reading and decoding a response body yields: [json.loads] of the
    decoded text, or an exception (incomplete read, invalid UTF-8, invalid
    JSON) whose [str] is [msg]. *)
Inductive body : Type :=
| Undecodable (msg : string)
| Json (v : pyval).

(** What comes of a call.  [urllib] raises [HTTPError] for a status outside
    2xx; the text of its body is [None] when the bytes are not valid UTF-8.
    [HTTPErrorUnread] is such a status whose body cannot be read at all:
    [e.read()] raises [e], which is [IncompleteRead] for a truncated body and
    [OSError] for a reset or a timeout.  Every other failure of [urlopen]
    (refused connection, timeout, invalid header) is an exception whose
    [str] is [reason].  [NoRequest] is the call that is never made, because
    building the request raises. *)
Inductive http_result : Type :=
| Response (status : Z) (b : body)
| HTTPError (code : Z) (text : option string)
| URLError (reason : string)
| HTTPErrorUnread (code : Z) (e : exn)
| NoRequest.

(** A YAML file on disk, seen through [yaml.safe_load]. *)
Inductive file : Type :=
| Missing
| Unparsable
| Doc (d : pyval).

(** The lines the commands print, without their layout. *)
Inductive message : Type :=
| MNoActiveProfile
| MCannotFetch
| MTesting (n : nat) (profile_name : pyval)
| MHeader
| MRule
| MRow (i : nat) (name : string) (ntype delay : pyval)
| MRowTimeout (i : nat) (name : string) (ntype : pyval)
| MSummary (available total : nat)
| MBestOf (name : string) (delay : pyval)
| MNewline
| MProfileNotFound (target : string)
| MProfileLine (name uid : pyval)
| MAlreadyActive (name : pyval)
| MSwitching (name uid : pyval)
| MReloaded (file_name : pyval)
| MVersion (v : pyval)
| MNodesLoaded (n : nat)
| MNote
| MError (result : pyval)
| MCannotReadGroup (group : string)
| MTestingGroup (n : nat) (group : string)
| MBestRow (i : nat) (name : string) (delay : pyval)
| MBestRowTimeout (i : nat) (name : string)
| MBest (name : string) (delay : pyval)
| MSwitched (group name : string)
| MErrorSwitching (result : pyval)
| MNoAvailable.

Inductive event : Type :=
| EApi (c : api_call)
| EWriteRegistry (d : pyval)
| ESleep
| EPrint (m : message).

(** The mutable part: the registry file [profiles.yaml] and everything the
    run has done so far, oldest first. *)
Record world : Type := World {
  registry : file;
  trace : list event
}.

(** How [open(PROFILES_YAML, "w")] followed by [yaml.dump] ends.  The open
    truncates the file, so a write that fails once the file is open leaves
    something else than the old registry: [remains], an empty or a
    partial file. *)
Inductive write_fate : Type :=
| Written
| Refused
| Torn (remains : file).

(** The part the script only reads.  [request_builds] tells whether
    [urllib.request.Request] finds a scheme in [CLASH_API], to which every
    path is appended; [answer] is what the daemon answers to a call that is
    sent, given the history of the run; [schedule] is the order in which
    the submitted probes complete; [registry_write] is how a write of the
    registry ends; [lower] is [str.lower]; [profile_path f] is
    [str(PROFILES_DIR / f)]. *)
Record env : Type := Env {
  request_builds : bool;
  answer : list event -> api_call -> http_result;
  schedule : list string -> list string;
  profile_files : string -> file;
  registry_write : write_fate;
  lower : string -> string;
  profile_path : string -> string
}.

(** What comes of the call [c] after [history]: no request when the URL has
    no scheme, the answer of the daemon otherwise. *)
Definition daemon (E : env) (history : list event) (c : api_call)
  : http_result :=
  if request_builds E then answer E history c else NoRequest.


(** ** The monad of the script: state and exceptions *)

Definition M (A : Type) : Type := world -> outcome A * world.

Definition ret {A} (a : A) : M A := fun w => (Ret a, w).

Definition raise {A} (e : exn) : M A := fun w => (Raise e, w).

Definition bind {A B} (m : M A) (k : A -> M B) : M B :=
  fun w =>
    match m w with
    | (Ret a, w') => k a w'
    | (Raise e, w') => (Raise e, w')
    end.

Definition lift {A} (o : outcome A) : M A := fun w => (o, w).

Definition emit (e : event) : M unit :=
  fun w => (Ret tt, World (registry w) (trace w ++ [e])).

Definition print (m : message) : M unit := emit (EPrint m).

(** Runs [m] and hands back how it ended: a worker of the pool keeps the
    exception of its task inside the future. *)
Definition attempt {A} (m : M A) : M (outcome A) :=
  fun w => let (o, w') := m w in (Ret o, w').

Declare Scope py_scope.
Delimit Scope py_scope with py.
Notation "x <- m ;; k" := (bind m (fun x => k))
  (at level 61, m at next level, right associativity) : py_scope.
Notation "m ;; k" := (bind m (fun _ => k))
  (at level 61, right associativity) : py_scope.
Open Scope py_scope.

Fixpoint mapM {A B} (f : A -> M B) (l : list A) : M (list B) :=
  match l with
  | [] => ret []
  | a :: r => b <- f a ;; bs <- mapM f r ;; ret (b :: bs)
  end.

Fixpoint forM_ {A} (l : list A) (f : A -> M unit) : M unit :=
  match l with
  | [] => ret tt
  | a :: r => f a ;; forM_ r f
  end.

(** ** URL quoting: [urllib.parse.quote(s, safe='')]

    [quote] encodes the string to UTF-8 and writes every byte that is not
    unreserved as a percent sign and two digits.  The encoding is where it
    raises [UnicodeEncodeError], for a [str] with a lone surrogate; a
    [string] is the UTF-8 bytes already, so [quote] below is the second step
    and is total.  It is what the script computes on the strings that are
    well-formed UTF-8. *)

Definition is_unreserved (c : ascii) : bool :=
  let n := N_of_ascii c in
  (((65 <=? n) && (n <=? 90)) || ((97 <=? n) && (n <=? 122))
   || ((48 <=? n) && (n <=? 57))
   || (n =? 95) || (n =? 46) || (n =? 45) || (n =? 126))%N.

Definition hex_digit (n : N) : ascii :=
  (if n <? 10 then ascii_of_N (48 + n) else ascii_of_N (55 + n))%N.

Fixpoint quote (s : string) : string :=
  match s with
  | EmptyString => EmptyString
  | String c r =>
      if is_unreserved c then String c (quote r)
      else
        let n := N_of_ascii c in
        String "%" (String (hex_digit (n / 16)) (String (hex_digit (n mod 16)) (quote r)))
  end.

(** [f"{n}"] for an integer. *)
Definition str_of_int (n : Z) : string := NilZero.string_of_int (Z.to_int n).

(** ** What [yaml.dump] writes

    [yaml.dump] sorts the keys of every mapping it writes ([sort_keys] is
    set unless the caller clears it, and the script does not), by the order
    of [str], which is the order of the UTF-8 bytes.  The text written and
    the parser that reads it back are PyYAML's; what [yaml.safe_load] makes
    of the file is the value dumped with its mappings in that order. *)

(** [sorted(mapping.items())]: a stable insertion by key. *)
Fixpoint insert_binding (x : string * pyval) (l : list (string * pyval))
  : list (string * pyval) :=
  match l with
  | [] => [x]
  | y :: r =>
      if String.ltb (fst y) (fst x) then y :: insert_binding x r
      else x :: y :: r
  end.

Fixpoint sort_bindings (l : list (string * pyval)) : list (string * pyval) :=
  match l with
  | [] => []
  | x :: r => insert_binding x (sort_bindings r)
  end.

Fixpoint sort_keys (v : pyval) : pyval :=
  match v with
  | PList l => PList (map sort_keys l)
  | PDict d =>
      PDict (sort_bindings
               ((fix values (d : list (string * pyval)) :=
                   match d with
                   | [] => []
                   | (k, x) :: r => (k, sort_keys x) :: values r
                   end) d))
  | _ => v
  end.

Section Script.

Variable E : env.

(** ** [api_request] *)

(** [json.dumps(data).encode() if data else None] *)
Definition request_body (data : pyval) : option pyval :=
  if truthy data then Some data else None.

(** What [api_request] makes of what comes of the call: [None] for 204,
    the decoded body of another success, an envelope for a failure.  The
    handler of [HTTPError] reads and decodes the error body outside any
    [try], and so does the line that builds the request. *)
Definition api_result (r : http_result) : outcome pyval :=
  match r with
  | Response status b =>
      if status =? 204 then Ret PNone
      else
        match b with
        | Json v => Ret v
        | Undecodable msg => Ret (PDict [("error", PStr msg)])
        end
  | HTTPError code (Some text) =>
      Ret (PDict [("error", PInt code); ("message", PStr text)])
  | HTTPError code None => Raise UnicodeDecodeError
  | URLError reason => Ret (PDict [("error", PStr reason)])
  | HTTPErrorUnread code e => Raise e
  | NoRequest => Raise UrlValueError
  end.

(** [Request(url, ...)] comes before the [try]: when it raises, nothing is
    sent and the trace gains no call. *)
Definition api_request (path method : string) (data : pyval) : M pyval :=
  fun w =>
    let c := ApiCall method path (request_body data) in
    if request_builds E then
      (api_result (daemon E (trace w) c),
       World (registry w) (trace w ++ [EApi c]))
    else (Raise UrlValueError, w).

Definition api_get (path : string) : M pyval := api_request path "GET" PNone.

(** ** [test_single_node_delay] *)

Definition TEST_URL : string := "https://www.gstatic.com/generate_204".

Definition delay_path (node_name : string) (timeout : Z) (test_url : string)
  : string :=
  "/proxies/" ++ quote node_name ++ "/delay?timeout=" ++ str_of_int timeout
  ++ "&url=" ++ quote test_url.

Definition test_single_node_delay (node_name : string) : M pyval :=
  result <- api_get (delay_path node_name 3000 TEST_URL) ;;
  has <- (if truthy result then lift (py_in "delay" result) else ret false) ;;
  if (has : bool) then lift (py_getitem result "delay") else ret (PInt (-1)).

(** ** The profile registry *)

Definition load_profiles_yaml : M pyval :=
  fun w =>
    match registry w with
    | Doc d => (Ret d, w)
    | Missing => (Raise OSError, w)
    | Unparsable => (Raise YAMLError, w)
    end.

(** The dictionary [get_remote_profiles] builds for a remote item. *)
Record profile : Type := Profile {
  p_uid : pyval;
  p_name : pyval;
  p_file : pyval;
  p_active : bool;
  p_url : pyval;
  p_extra : pyval
}.

Definition remote_profile (current_uid item : pyval) : outcome (option profile) :=
  let? ty := py_get item "type" PNone in
  if eq_str ty "remote" then
    let? uid := py_getitem item "uid" in
    let? name := py_get item "name" uid in
    let? file := py_get item "file" (PStr EmptyString) in
    let? url := py_get item "url" (PStr EmptyString) in
    let? extra := py_get item "extra" PNone in
    Ret (Some (Profile uid name file (py_eq uid current_uid) url extra))
  else Ret None.

Fixpoint remote_profiles (current_uid : pyval) (items : list pyval)
  : outcome (list profile) :=
  match items with
  | [] => Ret []
  | item :: r =>
      let? p := remote_profile current_uid item in
      let? ps := remote_profiles current_uid r in
      Ret (match p with Some p => p :: ps | None => ps end)
  end.

Definition profiles_of (data : pyval) : outcome (list profile) :=
  let? current_uid := py_get data "current" (PStr EmptyString) in
  let? items := py_get data "items" (PList []) in
  let? items := py_iter items in
  remote_profiles current_uid items.

Definition get_remote_profiles : M (list profile) :=
  data <- load_profiles_yaml ;;
  lift (profiles_of data).

(** [any(kw in name for kw in INFO_KEYWORDS)] for a name read from a
    document, which need not be a string. *)
Fixpoint any_in (kws : list string) (name : pyval) : outcome bool :=
  match kws with
  | [] => Ret false
  | kw :: r =>
      let? b := py_in kw name in
      if (b : bool) then Ret true else any_in r name
  end.

(** The dictionary [parse_profile_nodes] builds for a proxy entry. *)
Record node : Type := Node {
  n_name : pyval;
  n_type : pyval;
  n_server : pyval;
  n_port : pyval;
  n_profile : pyval;
  n_profile_uid : pyval
}.

Fixpoint profile_nodes (prof : profile) (entries : list pyval)
  : outcome (list node) :=
  match entries with
  | [] => Ret []
  | p :: r =>
      let? name := py_get p "name" (PStr EmptyString) in
      let? info := any_in INFO_KEYWORDS name in
      if (info : bool) then profile_nodes prof r
      else
        let? ty := py_get p "type" (PStr "unknown") in
        let? server := py_get p "server" (PStr EmptyString) in
        let? port := py_get p "port" (PStr EmptyString) in
        let? nodes := profile_nodes prof r in
        Ret (Node name ty server port (p_name prof) (p_uid prof) :: nodes)
  end.

Definition parse_profile_nodes (prof : profile) : outcome (list node) :=
  match p_file prof with
  | PStr f =>
      match profile_files E f with
      | Missing => Ret []
      | Unparsable => Raise YAMLError
      | Doc data =>
          let? proxies := py_get data "proxies" (PList []) in
          let? entries := py_iter proxies in
          profile_nodes prof entries
      end
  | _ => Raise TypeError
  end.

(** ** Probing and ranking *)

(** The pool runs every submitted probe; a probe that raises keeps its
    exception until its result is asked for. *)
Definition run_probes (names : list string)
  : M (list (string * outcome pyval)) :=
  mapM (fun name =>
          o <- attempt (test_single_node_delay name) ;;
          ret (name, o))
       (schedule E names).

(** A number, for the comparisons [<] and [>=] with an integer. *)
Definition num_of (v : pyval) : option Z :=
  match v with
  | PInt z => Some z
  | PBool b => Some (Z.b2z b)
  | _ => None
  end.

(** [v >= n] *)
Definition py_ge (v : pyval) (n : Z) : outcome bool :=
  match num_of v with
  | Some z => Ret (n <=? z)
  | None => Raise TypeError
  end.

(** The sort key [(d < 0, d)] of a delay, the number standing for itself. *)
Definition sort_key (d : pyval) : outcome (bool * Z) :=
  match num_of d with
  | Some z => Ret (z <? 0, z)
  | None => Raise TypeError
  end.

(** [k1 < k2] on tuples: the first components that differ decide. *)
Definition key_lt (k1 k2 : bool * Z) : bool :=
  if Bool.eqb (fst k1) (fst k2) then snd k1 <? snd k2
  else negb (fst k1).

(** [list.sort(key=...)] is stable; so is insertion from the right, which
    puts an element in front of the elements that are not smaller. *)
Fixpoint insert_key {A} (x : (bool * Z) * A) (l : list ((bool * Z) * A))
  : list ((bool * Z) * A) :=
  match l with
  | [] => [x]
  | y :: r =>
      if key_lt (fst y) (fst x) then y :: insert_key x r else x :: y :: r
  end.

Fixpoint sort_keyed {A} (l : list ((bool * Z) * A)) : list ((bool * Z) * A) :=
  match l with
  | [] => []
  | x :: r => insert_key x (sort_keyed r)
  end.

(** [l.sort(key=lambda x: (delay(x) < 0, delay(x)))]: the keys of all
    elements are computed first, then the list is sorted on them. *)
Definition sort_by_delay {A} (delay : A -> pyval) (l : list A)
  : outcome (list A) :=
  let? keyed := mapO (fun x => let? k := sort_key (delay x) in Ret (k, x)) l in
  Ret (map snd (sort_keyed keyed)).

(** A value a format specification such as [:<12] accepts. *)
Definition format_ok (v : pyval) : bool :=
  match v with
  | PStr _ | PInt _ | PBool _ => true
  | _ => false
  end.

(** [for i, x in enumerate(l, start)] *)
Fixpoint enumerate {A} (start : nat) (l : list A) : list (nat * A) :=
  match l with
  | [] => []
  | x :: r => (start, x) :: enumerate (S start) r
  end.

(** ** [cmd_test] *)

(** [not result or "proxies" in result and not result["proxies"]] *)
Definition fetch_failed (result : pyval) : outcome bool :=
  if negb (truthy result) then Ret true
  else
    let? has := py_in "proxies" result in
    if (has : bool) then
      let? v := py_getitem result "proxies" in
      Ret (negb (truthy v))
    else Ret false.

(** The comprehension that keeps the real nodes of the daemon's listing. *)
Definition real_nodes_of (items : list (string * pyval))
  : outcome (list (string * pyval)) :=
  filterO (fun kv =>
             let? ty := py_get (snd kv) "type" PNone in
             Ret (is_real_node (fst kv) ty))
          items.

(** The loop over [as_completed(futures)] of [cmd_test]. *)
Fixpoint collect_test (real_nodes : list (string * pyval))
    (done : list (string * outcome pyval))
  : outcome (list (string * pyval * pyval)) :=
  match done with
  | [] => Ret []
  | (name, o) :: r =>
      let? delay := o in
      let? info := py_getitem (PDict real_nodes) name in
      let? ntype := py_getitem info "type" in
      let? rest := collect_test real_nodes r in
      Ret ((name, ntype, delay) :: rest)
  end.

Definition print_test_row (row : nat * (string * pyval * pyval)) : M unit :=
  let '(i, (name, ntype, delay)) := row in
  ge <- lift (py_ge delay 0) ;;
  if format_ok ntype then
    print (if (ge : bool) then MRow i name ntype delay else MRowTimeout i name ntype)
  else raise TypeError.

Definition cmd_test : M unit :=
  profiles <- get_remote_profiles ;;
  match find p_active profiles with
  | None => print MNoActiveProfile
  | Some active =>
      result <- api_get "/proxies" ;;
      failed <- lift (fetch_failed result) ;;
      if (failed : bool) then print MCannotFetch
      else
        proxies <- lift (py_getitem result "proxies") ;;
        items <- lift (py_items proxies) ;;
        real_nodes <- lift (real_nodes_of items) ;;
        print (MTesting (List.length real_nodes) (p_name active)) ;;
        done <- run_probes (map fst real_nodes) ;;
        results <- lift (collect_test real_nodes done) ;;
        results <- lift (sort_by_delay (fun x => snd x) results) ;;
        print MHeader ;;
        print MRule ;;
        forM_ (enumerate 1 results) print_test_row ;;
        available <- lift (filterO (fun r => py_ge (snd r) 0) results) ;;
        print (MSummary (List.length available) (List.length results)) ;;
        match available with
        | (name, _, delay) :: _ => print (MBestOf name delay)
        | [] => print MNewline
        end
  end.

(** ** [cmd_switch_profile] *)

(** [x.lower()] *)
Definition py_lower (x : pyval) : outcome string :=
  match x with
  | PStr s => Ret (lower E s)
  | _ => Raise AttributeError
  end.

(** The matching loop: the first profile whose name or uid contains the
    target, both in lower case. *)
Fixpoint find_match (target : string) (profiles : list profile)
  : outcome (option profile) :=
  match profiles with
  | [] => Ret None
  | p :: r =>
      let? name := py_lower (p_name p) in
      if str_contains (lower E target) name then Ret (Some p)
      else
        let? uid := py_lower (p_uid p) in
        if str_contains (lower E target) uid then Ret (Some p)
        else find_match target r
  end.

(** [x[k] = v] *)
Definition py_setitem (x : pyval) (k : string) (v : pyval) : outcome pyval :=
  match x with
  | PDict d => Ret (PDict (assoc_set k v d))
  | _ => Raise TypeError
  end.

(** [with open(PROFILES_YAML, "w") as f: yaml.dump(data, f, ...)].  When
    the open is refused nothing has happened.  Otherwise the file is
    truncated and [data] is handed to [yaml.dump], which the trace records:
    the file then reads as [sort_keys data], or as what a write that failed
    half-way has left. *)
Definition write_profiles_yaml (data : pyval) : M unit :=
  fun w =>
    match registry_write E with
    | Written =>
        (Ret tt, World (Doc (sort_keys data)) (trace w ++ [EWriteRegistry data]))
    | Refused => (Raise OSError, w)
    | Torn remains =>
        (Raise OSError, World remains (trace w ++ [EWriteRegistry data]))
    end.

(** Step 1 of the switch: point [current] at the profile and write the
    registry back. *)
Definition set_active (uid : pyval) : M unit :=
  data <- load_profiles_yaml ;;
  data <- lift (py_setitem data "current" uid) ;;
  write_profiles_yaml data.

(** The names of the listing that are real nodes, as counted after a
    reload. *)
Definition loaded_real_nodes (proxies : pyval) : outcome (list string) :=
  let? listing := py_getitem proxies "proxies" in
  let? items := py_items listing in
  let? real := real_nodes_of items in
  Ret (map fst real).

Definition report_reload (file : pyval) : M unit :=
  print (MReloaded file) ;;
  emit ESleep ;;
  ver <- api_get "/version" ;;
  (if truthy ver then
     v <- lift (py_get ver "version" (PStr "?")) ;;
     print (MVersion v)
   else ret tt) ;;
  proxies <- api_get "/proxies" ;;
  (if truthy proxies then
     real <- lift (loaded_real_nodes proxies) ;;
     print (MNodesLoaded (List.length real))
   else ret tt) ;;
  print MNote ;;
  print MNote.

Definition cmd_switch_profile (target : string) : M unit :=
  profiles <- get_remote_profiles ;;
  found <- lift (find_match target profiles) ;;
  match found with
  | None =>
      print (MProfileNotFound target) ;;
      forM_ profiles (fun p => print (MProfileLine (p_name p) (p_uid p)))
  | Some m =>
      if p_active m then print (MAlreadyActive (p_name m))
      else
        print (MSwitching (p_name m) (p_uid m)) ;;
        set_active (p_uid m) ;;
        path <- lift (match p_file m with
                      | PStr f => Ret (profile_path E f)
                      | _ => Raise TypeError
                      end) ;;
        result <- api_request "/configs?force=true" "PUT"
                    (PDict [("path", PStr path)]) ;;
        match result with
        | PNone => report_reload (p_file m)
        | _ => print (MError result)
        end
  end.

(** ** [cmd_best] *)

Definition SINK_NAMES : list string := ["DIRECT"; "REJECT"; "PASS"].

(** [not info or "all" not in info] *)
Definition group_unreadable (info : pyval) : outcome bool :=
  if negb (truthy info) then Ret true
  else
    let? has := py_in "all" info in
    Ret (negb has).

(** The condition of the comprehension building [candidates]. *)
Definition is_candidate (n : pyval) : outcome bool :=
  let? info := any_in INFO_KEYWORDS n in
  Ret (negb info && negb (in_strs n SINK_NAMES)).

(** The loop that tells nodes from sub-groups: a member is kept unless the
    listing gives it a reserved type.  A list or a dictionary is not
    hashable; any other member that is not a string has already made
    [is_candidate] raise. *)
Fixpoint actual_nodes_of (proxies : pyval) (candidates : list pyval)
  : outcome (list string) :=
  match candidates with
  | [] => Ret []
  | name :: r =>
      let? listing := py_getitem proxies "proxies" in
      let? entries := py_items listing in
      match name with
      | PStr s =>
          let pinfo := match assoc s entries with
                       | Some v => v
                       | None => PDict []
                       end in
          let? ty := py_get pinfo "type" PNone in
          let? rest := actual_nodes_of proxies r in
          Ret (if in_strs ty RESERVED_TYPES then rest else s :: rest)
      | _ => Raise TypeError
      end
  end.

(** The loop over [as_completed(futures)] of [cmd_best]. *)
Fixpoint collect_best (done : list (string * outcome pyval))
  : outcome (list (string * pyval)) :=
  match done with
  | [] => Ret []
  | (name, o) :: r =>
      let? delay := o in
      let? rest := collect_best r in
      Ret ((name, delay) :: rest)
  end.

Definition print_best_row (row : nat * (string * pyval)) : M unit :=
  let '(i, (name, delay)) := row in
  ge <- lift (py_ge delay 0) ;;
  print (if (ge : bool) then MBestRow i name delay else MBestRowTimeout i name).

(** The end of [cmd_best]: rank the results, show the first ten, and switch
    the group to the first available one. *)
Definition select_best (group : string) (results : list (string * pyval))
  : M unit :=
  results <- lift (sort_by_delay snd results) ;;
  available <- lift (filterO (fun r => py_ge (snd r) 0) results) ;;
  forM_ (enumerate 1 (firstn 10 results)) print_best_row ;;
  match available with
  | (best_name, best_delay) :: _ =>
      print (MBest best_name best_delay) ;;
      result <- api_request ("/proxies/" ++ quote group) "PUT"
                  (PDict [("name", PStr best_name)]) ;;
      match result with
      | PNone => print (MSwitched group best_name)
      | _ => print (MErrorSwitching result)
      end
  | [] => print MNoAvailable
  end.

(** The first part of [cmd_best]: read the group, keep the members that
    are nodes, probe them.  [None] when the group cannot be read. *)
Definition probe_group (group : string) : M (option (list (string * pyval))) :=
  info <- api_get ("/proxies/" ++ quote group) ;;
  bad <- lift (group_unreadable info) ;;
  if (bad : bool) then print (MCannotReadGroup group) ;; ret None
  else
    members <- lift (let? all := py_getitem info "all" in py_iter all) ;;
    candidates <- lift (filterO is_candidate members) ;;
    proxies <- api_get "/proxies" ;;
    actual_nodes <- lift (actual_nodes_of proxies candidates) ;;
    print (MTestingGroup (List.length actual_nodes) group) ;;
    done <- run_probes actual_nodes ;;
    results <- lift (collect_best done) ;;
    ret (Some results).

Definition cmd_best (group : string) : M unit :=
  round <- probe_group group ;;
  match round with
  | None => ret tt
  | Some results => select_best group results
  end.

End Script.

(** ** The other commands

    The commands below print lines for which [message] has no constructor.
    Their lines go to a console kept beside the world; each line is stamped
    with the length the trace had when it was printed, so the order of
    lines, calls and writes is kept. *)

Inductive line : Type :=
| LSwitched (group name : string)
| LDelay (delay : pyval)
| LMayBeUnreachable
| LError (result : pyval)
| LAvailableIn (group : string)
| LMember (n : pyval)
| LUsage
| LUsageSwitchProfile
| LUsageSwitchNode
| LUnknownCommand (cmd : string)
| LRule
| LStatusTitle
| LCore (version : pyval)
| LMode (mode : pyval)
| LPort (port : pyval)
| LTun (on : bool) (device : pyval)
| LBlank
| LProfiles
| LProfile (active : bool) (name : pyval) (nodes : nat) (uid8 : pyval)
| LSelections
| LSelection (group : string) (now : pyval).

Record session : Type := Session {
  base : world;
  console : list (nat * line)
}.

Definition X (A : Type) : Type := session -> outcome A * session.

Definition xret {A} (a : A) : X A := fun s => (Ret a, s).

Definition xbind {A B} (m : X A) (k : A -> X B) : X B :=
  fun s =>
    match m s with
    | (Ret a, s') => k a s'
    | (Raise e, s') => (Raise e, s')
    end.

Definition xlift {A} (o : outcome A) : X A := fun s => (o, s).

(** A computation of the first part, run on the world of the session. *)
Definition run {A} (m : M A) : X A :=
  fun s => let (o, w) := m (base s) in (o, Session w (console s)).

Definition say (l : line) : X unit :=
  fun s =>
    (Ret tt,
     Session (base s) (console s ++ [(List.length (trace (base s)), l)])).

Declare Scope cmd_scope.
Notation "x <- m ;; k" := (xbind m (fun x => k))
  (at level 61, m at next level, right associativity) : cmd_scope.
Notation "m ;; k" := (xbind m (fun _ => k))
  (at level 61, right associativity) : cmd_scope.

Fixpoint xfor {A} (l : list A) (f : A -> X unit) : X unit :=
  match l with
  | [] => xret tt
  | a :: r => xbind (f a) (fun _ => xfor r f)
  end.

(** [x[:8]]: the first eight characters of a string, the first eight
    elements of a list.  A dictionary has no slice ([TypeError] before
    Python 3.12, [KeyError] since; the first is taken here), nor has a
    number or [None]. *)
Definition py_slice8 (x : pyval) : outcome pyval :=
  match x with
  | PStr s => Ret (PStr (String.concat EmptyString (firstn 8 (utf8_chars s))))
  | PList l => Ret (PList (firstn 8 l))
  | _ => Raise TypeError
  end.

(** [argv.index(x)]: the position of the first occurrence. *)
Fixpoint index_of (x : string) (l : list string) : option nat :=
  match l with
  | [] => None
  | y :: r =>
      if String.eqb y x then Some 0%nat
      else match index_of x r with
           | Some i => Some (S i)
           | None => None
           end
  end.

Section Commands.

Variable E : env.

Local Open Scope cmd_scope.

(** *** [cmd_switch_node] *)

Definition cmd_switch_node (node_name group : string) : X unit :=
  result <- run (api_request E ("/proxies/" ++ quote group) "PUT"
                   (PDict [("name", PStr node_name)])) ;;
  match result with
  | PNone =>
      say (LSwitched group node_name) ;;
      delay <- run (test_single_node_delay E node_name) ;;
      ge <- xlift (py_ge delay 0) ;;
      say (if (ge : bool) then LDelay delay else LMayBeUnreachable)
  | _ =>
      say (LError result) ;;
      info <- run (api_get E ("/proxies/" ++ quote group)) ;;
      has <- xlift (if truthy info then py_in "all" info else Ret false) ;;
      if (has : bool) then
        say (LAvailableIn group) ;;
        members <- xlift (let? all := py_getitem info "all" in py_iter all) ;;
        xfor members (fun n => say (LMember n))
      else xret tt
  end.

(** *** [cmd_status] *)

Definition KEY_GROUPS : list string := ["Proxies"; "GLOBAL"; "Telegram"; "Netflix"].

(** One line of the profile list. *)
Definition status_profile (p : profile) : X unit :=
  nodes <- xlift (parse_profile_nodes E p) ;;
  uid8 <- xlift (if format_ok (p_name p) then py_slice8 (p_uid p)
                 else Raise TypeError) ;;
  say (LProfile (p_active p) (p_name p) (List.length nodes) uid8).

(** One step of the loop over the key groups. *)
Definition status_selection (proxies : pyval) (g : string) : X unit :=
  present <- xlift (let? listing := py_getitem proxies "proxies" in
                    py_in g listing) ;;
  if (present : bool) then
    now <- xlift (let? listing := py_getitem proxies "proxies" in
                  let? entry := py_getitem listing g in
                  py_get entry "now" (PStr "—")) ;;
    say (LSelection g now)
  else xret tt.

Definition cmd_status : X unit :=
  profiles <- run get_remote_profiles ;;
  config <- run (api_get E "/configs") ;;
  proxies <- run (api_get E "/proxies") ;;
  say LRule ;;
  say LStatusTitle ;;
  say LRule ;;
  ver <- run (api_get E "/version") ;;
  version <- xlift (py_get ver "version" (PStr "?")) ;;
  say (LCore version) ;;
  mode <- xlift (py_get config "mode" (PStr "?")) ;;
  say (LMode mode) ;;
  port <- xlift (py_get config "mixed-port" (PStr "?")) ;;
  say (LPort port) ;;
  tun <- xlift (py_get config "tun" (PDict [])) ;;
  enable <- xlift (py_get tun "enable" PNone) ;;
  device <- xlift (py_get tun "device" (PStr EmptyString)) ;;
  say (LTun (truthy enable) device) ;;
  say LBlank ;;
  say LProfiles ;;
  xfor profiles status_profile ;;
  say LBlank ;;
  (if truthy proxies then
     say LSelections ;;
     xfor KEY_GROUPS (status_selection proxies)
   else xret tt) ;;
  say LBlank.

(** *** [main] *)

(** [cmd_list] prints sizes as floating-point numbers and is not part of
    this development; [main] takes it as a parameter. *)
Variable cmd_list : X unit.

(** The group of [switch-node]: the argument after the first [-g] of the
    whole command line, when there is one. *)
Definition switch_node_group (argv : list string) : string :=
  match index_of "-g" argv with
  | Some gi =>
      match nth_error argv (gi + 1) with
      | Some g => g
      | None => "Proxies"
      end
  | None => "Proxies"
  end.

Definition main (argv : list string) : X unit :=
  match argv with
  | [] | [_] => say LUsage
  | _ :: cmd :: args =>
      if String.eqb cmd "status" then cmd_status
      else if String.eqb cmd "list" then cmd_list
      else if String.eqb cmd "test" then run (cmd_test E)
      else if String.eqb cmd "best" then
        run (cmd_best E (match args with group :: _ => group | [] => "Proxies" end))
      else if String.eqb cmd "switch-profile" then
        match args with
        | [] => say LUsageSwitchProfile
        | target :: _ => run (cmd_switch_profile E target)
        end
      else if String.eqb cmd "switch-node" then
        match args with
        | [] => say LUsageSwitchNode
        | node :: _ => cmd_switch_node node (switch_node_group argv)
        end
      else say (LUnknownCommand cmd) ;; say LUsage
  end.

End Commands.

(** ** [load_dotenv] and the configuration

    The process environment is a list of bindings; [strip] is [str.strip]
    without argument, which removes the white space at both ends. *)

Definition environ : Type := list (string * string).

(** [os.environ.get(k)] *)
Fixpoint getenv (k : string) (env : environ) : option string :=
  match env with
  | [] => None
  | (k', v) :: r => if String.eqb k k' then Some v else getenv k r
  end.

(** [s.partition("=")]: what precedes the first "=" and what follows it. *)
Fixpoint partition_eq (s : string) : string * string :=
  match s with
  | EmptyString => (EmptyString, EmptyString)
  | String c r =>
      if Ascii.eqb c "=" then (EmptyString, r)
      else let (k, v) := partition_eq r in (String c k, v)
  end.

(** A double or a single quote. *)
Definition is_quote (c : ascii) : bool :=
  let n := N_of_ascii c in ((n =? 34) || (n =? 39))%N.

Fixpoint lstrip_quotes (s : string) : string :=
  match s with
  | EmptyString => EmptyString
  | String c r => if is_quote c then lstrip_quotes r else s
  end.

Fixpoint rstrip_quotes (s : string) : string :=
  match s with
  | EmptyString => EmptyString
  | String c r =>
      match rstrip_quotes r with
      | EmptyString => if is_quote c then EmptyString else String c EmptyString
      | r' => String c r'
      end
  end.

(** [s.strip(chars)] where [chars] holds the double and the single
    quote. *)
Definition strip_quotes (s : string) : string :=
  rstrip_quotes (lstrip_quotes s).

(** The character NUL occurs in [s]. *)
Definition has_nul (s : string) : bool :=
  str_contains (String Ascii.zero EmptyString) s.

(** How the loading ends: normally, or with the [ValueError] that
    [os.environ[key] = value] raises for a name with "=" or NUL or a value
    with NUL.  Either way the bindings made so far stay. *)
Inductive loaded : Type :=
| Loaded (env : environ)
| ValueError (env : environ).

Definition env_of (l : loaded) : environ :=
  match l with
  | Loaded env => env
  | ValueError env => env
  end.

Section Dotenv.

Variable strip : string -> string.

(** The body of the loop over the lines of the file. *)
Definition dotenv_line (line : string) (env : environ) : loaded :=
  let line := strip line in
  if String.eqb line EmptyString || String.prefix "#" line
     || negb (str_contains "=" line)
  then Loaded env
  else
    let (key, value) := partition_eq line in
    let key := strip key in
    let value := strip_quotes (strip value) in
    if negb (String.eqb key EmptyString)
       && match getenv key env with None => true | Some _ => false end
    then
      if str_contains "=" key || has_nul key || has_nul value
      then ValueError env
      else Loaded (env ++ [(key, value)])%list
    else Loaded env.

Fixpoint dotenv_lines (lines : list string) (env : environ) : loaded :=
  match lines with
  | [] => Loaded env
  | line :: r =>
      match dotenv_line line env with
      | Loaded env' => dotenv_lines r env'
      | ValueError env' => ValueError env'
      end
  end.

(** [file] holds the lines of [.env], or nothing when there is no such
    file. *)
Definition load_dotenv (file : option (list string)) (env : environ) : loaded :=
  match file with
  | None => Loaded env
  | Some lines => dotenv_lines lines env
  end.

End Dotenv.

(** [CLASH_API] and [CLASH_SECRET], read once the file is loaded. *)
Definition CLASH_API (env : environ) : string :=
  match getenv "CLASH_API_URL" env with
  | Some url => url
  | None => "http://127.0.0.1:9097"
  end.

Definition CLASH_SECRET (env : environ) : string :=
  match getenv "CLASH_API_SECRET" env with
  | Some secret => secret
  | None => EmptyString
  end.

(** ** Vocabulary of the statements *)

(** [needle] occurs in [hay]. *)
Definition is_substring (needle hay : string) : Prop :=
  exists pre post, hay = pre ++ needle ++ post.


(** The name contains an informational keyword. *)
Definition has_info_marker (name : string) : Prop :=
  exists kw, In kw INFO_KEYWORDS /\ is_substring kw name.

(** An error envelope: a dictionary with an ["error"] entry. *)
Definition is_envelope (v : pyval) : Prop :=
  exists d e, v = PDict d /\ assoc "error" d = Some e.

(** The call failed with an answer in hand: no connection, a status outside
    2xx whose body has been read, or a success whose body cannot be
    decoded. *)
Definition failed_call (r : http_result) : Prop :=
  match r with
  | URLError _ => True
  | HTTPError _ _ => True
  | Response status (Undecodable _) => status <> 204
  | Response _ (Json _) => False
  | HTTPErrorUnread _ _ => False
  | NoRequest => False
  end.

(** The calls of a list that leave the script: all of them when requests
    can be built, none otherwise. *)
Definition sent (E : env) (calls : list event) : list event :=
  if request_builds E then calls else [].

(** The call one delay probe makes. *)
Definition probe_request (name : string) : api_call :=
  ApiCall "GET" (delay_path name 3000 TEST_URL) None.

Definition probe_call (name : string) : event := EApi (probe_request name).

(** An answer to a probe that [test_single_node_delay] copes with: any
    failure whose body is text, a 204, or a body that is falsy or a JSON
    object. *)
Definition answers_probe (r : http_result) : Prop :=
  match r with
  | HTTPError _ None => False
  | HTTPErrorUnread _ _ => False
  | NoRequest => False
  | Response status (Json v) =>
      status = 204 \/ truthy v = false \/ exists d, v = PDict d
  | _ => True
  end.

(** The entry for [name] is absent from the daemon's listing. *)
Definition unlisted (proxies : pyval) (name : string) : Prop :=
  exists entries,
    py_getitem proxies "proxies" = Ret (PDict entries)
    /\ assoc name entries = None.

(** The type the daemon's listing declares for an entry: [info.get("type")]. *)
Definition declared_type (info : list (string * pyval)) : pyval :=
  match assoc "type" info with
  | Some ty => ty
  | None => PNone
  end.

(** The profile-file view lists the entry as a node. *)
Definition file_view_admits (prof : profile) (entry : pyval) : bool :=
  match profile_nodes prof [entry] with
  | Ret (_ :: _) => true
  | _ => false
  end.

(** The daemon view keeps the entry as a real node. *)
Definition daemon_view_admits (name : string) (info : pyval) : bool :=
  match real_nodes_of [(name, info)] with
  | Ret (_ :: _) => true
  | _ => false
  end.

(** The order the results are shown in: an available result (delay at least
    0) before an unreachable one; within a group, by ascending delay. *)
Definition ranked (a b : Z) : Prop :=
  (0 <= a /\ b < 0) \/ ((a < 0 <-> b < 0) /\ a <= b).

(** The key [(d < 0, d)] of the number [d]. *)
Definition key_of (d : Z) : bool * Z := (d <? 0, d).

(** A keyed list as [sort_by_delay] builds it: each element with its key,
    [z] giving the number that the delay of an element is. *)
Definition keyed {A} (z : A -> Z) (l : list A) : list ((bool * Z) * A) :=
  map (fun x => (key_of (z x), x)) l.

(** What a run printed. *)
Definition printed (t : list event) : list message :=
  flat_map (fun e => match e with EPrint m => [m] | _ => [] end) t.

(** The events that change something: a write of the registry file, or a
    call to the daemon that is not a GET. *)
Definition is_write (e : event) : bool :=
  match e with
  | EWriteRegistry _ => true
  | EApi c => negb (String.eqb (call_method c) "GET")
  | _ => false
  end.

Definition writes (t : list event) : list event := filter is_write t.

(** The registry can be read and marks one of its remote profiles as the
    current one. *)
Definition has_active_profile (w : world) : Prop :=
  exists data ps a,
    registry w = Doc data
    /\ profiles_of data = Ret ps
    /\ find p_active ps = Some a.

(** The call that lists the proxies the daemon has loaded. *)
Definition LIST_PROXIES : api_call := ApiCall "GET" "/proxies" None.

(** The listing call succeeded and its [proxies] object is empty. *)
Definition empty_listing (r : http_result) : Prop :=
  exists status d,
    r = Response status (Json (PDict d))
    /\ status <> 204
    /\ assoc "proxies" d = Some (PDict []).

(** The call gave the caller nothing: the value it returned is falsy. *)
Definition no_result (r : http_result) : Prop :=
  exists v, api_result r = Ret v /\ truthy v = false.

(** A computation that writes nothing: the registry file is as before and
    the trace has gained no write. *)
Definition quiet {A} (m : M A) : Prop :=
  forall w,
    registry (snd (m w)) = registry w
    /\ writes (trace (snd (m w))) = writes (trace w).

(** [query] occurs in [s] when both are put in lower case. *)
Definition contains_ci (E : env) (query s : string) : Prop :=
  is_substring (lower E query) (lower E s).

(** The name and the uid of the profile are strings and neither contains
    the query. *)
Definition no_match (E : env) (query : string) (p : profile) : Prop :=
  exists name uid,
    p_name p = PStr name /\ p_uid p = PStr uid
    /\ ~ contains_ci E query name /\ ~ contains_ci E query uid.

(** The name of the profile is a string, and it or the uid contains the
    query. *)
Definition matches (E : env) (query : string) (p : profile) : Prop :=
  exists name,
    p_name p = PStr name
    /\ (contains_ci E query name
        \/ exists uid, p_uid p = PStr uid /\ contains_ci E query uid).

(** [m] is the profile the query selects: the first one that matches. *)
Definition selects (E : env) (query : string) (ps : list profile)
    (m : profile) : Prop :=
  exists pre post,
    ps = (pre ++ m :: post)%list
    /\ Forall (no_match E query) pre
    /\ matches E query m.

(** The lines that list the known profiles. *)
Definition profile_lines (ps : list profile) : list event :=
  map (fun p => EPrint (MProfileLine (p_name p) (p_uid p))) ps.

(** The call that points the group at a node. *)
Definition select_call (group name : string) : api_call :=
  ApiCall "PUT" ("/proxies/" ++ quote group) (Some (PDict [("name", PStr name)])).


(** The value of a hexadecimal digit as [quote] writes it. *)
Definition hex_value (c : ascii) : N :=
  let n := N_of_ascii c in
  (if n <? 58 then n - 48 else n - 55)%N.

(** Reading back what [quote] has written: a percent sign and two digits
    stand for one byte. *)
Fixpoint unquote (s : string) : string :=
  match s with
  | String "%" (String h (String l r)) =>
      String (ascii_of_N (16 * hex_value h + hex_value l)) (unquote r)
  | String c r => String c (unquote r)
  | EmptyString => EmptyString
  end.

(** A computation that leaves the registry file alone and makes at most one
    write, an event that satisfies [P]. *)
Definition at_most_one_write {A} (P : event -> Prop) (m : M A) : Prop :=
  forall w,
    registry (snd (m w)) = registry w
    /\ (writes (trace (snd (m w))) = writes (trace w)
        \/ exists e, P e
             /\ writes (trace (snd (m w))) = (writes (trace w) ++ [e])%list).

(** The call that reads a group. *)
Definition group_request (group : string) : api_call :=
  ApiCall "GET" ("/proxies/" ++ quote group) None.

(** The value [api_request] returns for a failed call. *)
Definition envelope_of (r : http_result) : option pyval :=
  match r with
  | URLError reason => Some (PDict [("error", PStr reason)])
  | HTTPError code (Some text) =>
      Some (PDict [("error", PInt code); ("message", PStr text)])
  | Response status (Undecodable msg) =>
      if status =? 204 then None else Some (PDict [("error", PStr msg)])
  | _ => None
  end.



(** The uid the registry names as current: [data.get("current", "")]. *)
Definition current_of (data : list (string * pyval)) : pyval :=
  match assoc "current" data with
  | Some c => c
  | None => PStr EmptyString
  end.

(** A command that writes nothing: the registry file is as before and the
    trace has gained no write. *)
Definition xquiet {A} (m : X A) : Prop :=
  forall s,
    registry (base (snd (m s))) = registry (base s)
    /\ writes (trace (base (snd (m s)))) = writes (trace (base s)).

(** The lines on the console, without their stamps. *)
Definition said (s : session) : list line := map snd (console s).

(** The names of the commands [main] knows. *)
Definition COMMANDS : list string :=
  ["status"; "list"; "test"; "best"; "switch-profile"; "switch-node"].

(** A command that cannot return: whatever the session, it raises. *)
Definition always_raises {A} (m : X A) : Prop :=
  forall s, exists e, fst (m s) = Raise e.

(** The call that reads the configuration of the daemon. *)
Definition CONFIGS : api_call := ApiCall "GET" "/configs" None.

(** An answer to a probe that gives a delay that is a number: any failure
    whose body is text, a 204, a falsy body, or a JSON object whose
    ["delay"] member, when it has one, is a number. *)
Definition sane_probe (r : http_result) : Prop :=
  match r with
  | HTTPError _ None => False
  | HTTPErrorUnread _ _ => False
  | NoRequest => False
  | Response status (Json v) =>
      status = 204 \/ truthy v = false
      \/ exists d, v = PDict d
           /\ match assoc "delay" d with
              | Some x => num_of x <> None
              | None => True
              end
  | _ => True
  end.

(** The number a delay stands for, 0 when it is no number. *)
Definition number_of (v : pyval) : Z :=
  match num_of v with
  | Some n => n
  | None => 0
  end.

(** The byte lies between [lo] and [hi]. *)
Definition byte_in (lo hi : N) (c : ascii) : bool :=
  let n := N_of_ascii c in ((lo <=? n) && (n <=? hi))%N.

(** The byte string is the UTF-8 encoding of a text: the [str] it stands for
    holds no lone surrogate, which is what a command-line argument that is
    not UTF-8 decodes to. *)
Fixpoint well_encoded (s : string) : bool :=
  match s with
  | EmptyString => true
  | String a r =>
      if byte_in 0 127 a then well_encoded r
      else
        match r with
        | String b r2 =>
            if byte_in 194 223 a then byte_in 128 191 b && well_encoded r2
            else
              match r2 with
              | String c r3 =>
                  if (byte_in 224 224 a && byte_in 160 191 b)
                     || (byte_in 225 236 a && byte_in 128 191 b)
                     || (byte_in 237 237 a && byte_in 128 159 b)
                     || (byte_in 238 239 a && byte_in 128 191 b)
                  then byte_in 128 191 c && well_encoded r3
                  else
                    match r3 with
                    | String d r4 =>
                        ((byte_in 240 240 a && byte_in 144 191 b)
                         || (byte_in 241 243 a && byte_in 128 191 b)
                         || (byte_in 244 244 a && byte_in 128 143 b))
                        && byte_in 128 191 c && byte_in 128 191 d
                        && well_encoded r4
                    | EmptyString => false
                    end
              | EmptyString => false
              end
        | EmptyString => false
        end
  end.

(** A computation that does nothing but print. *)
Definition only_prints {A} (m : M A) : Prop :=
  forall w, exists msgs,
    snd (m w) = World (registry w) (trace w ++ map EPrint msgs).

(** A computation that only adds to the trace. *)
Definition grows {A} (m : M A) : Prop :=
  forall w, exists t, trace (snd (m w)) = (trace w ++ t)%list.

(** The results that are available: those with a delay of at least 0. *)
Definition available {A} (delay : A -> pyval) (l : list A) : list A :=
  filter (fun r => 0 <=? number_of (delay r)) l.

(** The row [cmd_test] prints for a result whose delay is a number. *)
Definition test_row (row : nat * (string * pyval * pyval)) : message :=
  let '(i, (name, ntype, delay)) := row in
  if 0 <=? number_of delay then MRow i name ntype delay
  else MRowTimeout i name ntype.

(** The row [cmd_best] prints for a result whose delay is a number. *)
Definition best_row (row : nat * (string * pyval)) : message :=
  let '(i, (name, delay)) := row in
  if 0 <=? number_of delay then MBestRow i name delay
  else MBestRowTimeout i name.


(** The part of [cmd_test] that follows the probes. *)
Definition show_test (real_nodes : list (string * pyval))
    (done : list (string * outcome pyval)) : M unit :=
  results <- lift (collect_test real_nodes done) ;;
  results <- lift (sort_by_delay (fun x => snd x) results) ;;
  print MHeader ;;
  print MRule ;;
  forM_ (enumerate 1 results) print_test_row ;;
  available <- lift (filterO (fun r => py_ge (snd r) 0) results) ;;
  print (MSummary (List.length available) (List.length results)) ;;
  match available with
  | (name, _, delay) :: _ => print (MBestOf name delay)
  | [] => print MNewline
  end.

(** The keys are in ascending order. *)
Fixpoint ascending (ks : list string) : bool :=
  match ks with
  | a :: (b :: _) as r => String.leb a b && ascending r
  | _ => true
  end.

(** The value is as [yaml.dump] writes it: the keys of every mapping in it
    ascend. *)
Fixpoint normalized (v : pyval) : bool :=
  match v with
  | PList l => forallb normalized l
  | PDict d =>
      ascending (map fst d)
      && (fix all (d : list (string * pyval)) : bool :=
            match d with
            | [] => true
            | (_, x) :: r => normalized x && all r
            end) d
  | _ => true
  end.



(** The bindings of a mapping with their values as they are written. *)
Definition sorted_values (d : list (string * pyval)) : list (string * pyval) :=
  map (fun kv => (fst kv, sort_keys (snd kv))) d.

(** One binding comes before another in the order of the keys. *)
Definition key_le (a b : string * pyval) : Prop :=
  String.leb (fst a) (fst b) = true.

(** ** A small installation to run the script on *)

Module Demo.

(** [str.lower] on ASCII letters. *)
Definition lower_char (c : ascii) : ascii :=
  let n := N_of_ascii c in
  if ((65 <=? n) && (n <=? 90))%N then ascii_of_N (n + 32) else c.

Fixpoint ascii_lower (s : string) : string :=
  match s with
  | EmptyString => EmptyString
  | String c r => String (lower_char c) (ascii_lower r)
  end.

Definition item (uid name file : string) : pyval :=
  PDict [("uid", PStr uid); ("type", PStr "remote"); ("name", PStr name);
         ("file", PStr file); ("url", PStr "https://example.org/sub")].

Definition registry_doc : pyval :=
  PDict [("current", PStr "a1");
         ("items", PList [item "a1" "Home" "a1.yaml"; item "b2" "Work" "b2.yaml";
                          PDict [("uid", PStr "Merge"); ("type", PStr "merge")]]);
         ("theme", PStr "dark")].

Definition listing : pyval :=
  PDict [("proxies", PDict [
    ("Proxies", PDict [("type", PStr "Selector"); ("now", PStr "N1");
                       ("all", PList [PStr "N1"; PStr "N2"; PStr "N3"; PStr "DIRECT"])]);
    ("DIRECT", PDict [("type", PStr "Direct")]);
    ("N1", PDict [("type", PStr "Shadowsocks")]);
    ("N2", PDict [("type", PStr "Vmess")]);
    ("N3", PDict [("type", PStr "Trojan")]);
    ("官网 example.org", PDict [("type", PStr "Shadowsocks")])])].

Definition group_info : pyval :=
  PDict [("type", PStr "Selector"); ("now", PStr "N1");
         ("all", PList [PStr "N1"; PStr "N2"; PStr "N3"; PStr "DIRECT"; PStr "Ghost"])].

Definition delay_of (delays : list (string * http_result)) (c : api_call)
  : option http_result :=
  match find (fun nd => String.eqb (call_path c) (delay_path (fst nd) 3000 TEST_URL))
             delays with
  | Some nd => Some (snd nd)
  | None => None
  end.

(** A daemon that answers the same whatever happened before. *)
Definition frozen_daemon (delays : list (string * http_result))
    (history : list event) (c : api_call) : http_result :=
  if String.eqb (call_method c) "PUT" then Response 204 (Undecodable EmptyString)
  else if String.eqb (call_path c) "/proxies" then Response 200 (Json listing)
  else if String.eqb (call_path c) "/proxies/Proxies" then Response 200 (Json group_info)
  else if String.eqb (call_path c) "/version" then
    Response 200 (Json (PDict [("version", PStr "v1.18")]))
  else
    match delay_of delays c with
    | Some r => r
    | None => HTTPError 404 (Some "not found")
    end.

(** An installation whose daemon is [d] and whose probes complete in the
    order [sched]. *)
Definition install (d : list event -> api_call -> http_result)
    (sched : list string -> list string) : env :=
  Env true d sched (fun _ => Missing) Written ascii_lower
      (fun f => "/profiles/" ++ f).

Definition start : world := World (Doc registry_doc) [].

(** A daemon that gives the same answer to every call. *)
Definition always (r : http_result) (history : list event) (c : api_call)
  : http_result := r.

(** A successful probe of [d] milliseconds. *)
Definition delay_ok (d : Z) : http_result :=
  Response 200 (Json (PDict [("delay", PInt d)])).

(** A probe that timed out. *)
Definition delay_timeout : http_result :=
  HTTPError 504 (Some "Timeout").

(** A profile whose backing file lists one entry that declares itself a
    selector. *)
Definition work : profile :=
  Profile (PStr "b2") (PStr "Work") (PStr "b2.yaml") false
          (PStr "https://example.org/sub") PNone.

Definition selector_entry : list (string * pyval) :=
  [("name", PStr "G"); ("type", PStr "Selector")].

Definition with_profile_file (E : env) (f : string) (d : pyval) : env :=
  Env (request_builds E) (answer E) (schedule E)
      (fun g => if String.eqb g f then Doc d else profile_files E g)
      (registry_write E) (lower E) (profile_path E).

(** Two nodes of the group answer with the same delay, one times out. *)
Definition tied_daemon : list event -> api_call -> http_result :=
  frozen_daemon [("N1", delay_ok 80); ("N2", delay_timeout); ("N3", delay_ok 80)].

(** The number a collected delay stands for. *)
Definition delay_number (r : string * pyval) : Z :=
  match num_of (snd r) with
  | Some n => n
  | None => 0
  end.

(** No node of the group answers in time. *)
Definition dead_daemon : list event -> api_call -> http_result :=
  frozen_daemon [("N1", delay_timeout); ("N2", delay_timeout); ("N3", delay_timeout)].

(** The probe of "N2" is answered with the JSON number 1 instead of an
    object. *)
Definition odd_daemon : list event -> api_call -> http_result :=
  frozen_daemon [("N1", delay_ok 120); ("N2", Response 200 (Json (PInt 1)));
                 ("N3", delay_ok 80)].

(** The active profile of the demonstration, and the bindings of its
    registry. *)
Definition home : profile :=
  Profile (PStr "a1") (PStr "Home") (PStr "a1.yaml") true
          (PStr "https://example.org/sub") PNone.

Definition registry_data : list (string * pyval) :=
  [("current", PStr "a1");
   ("items", PList [item "a1" "Home" "a1.yaml"; item "b2" "Work" "b2.yaml";
                    PDict [("uid", PStr "Merge"); ("type", PStr "merge")]]);
   ("theme", PStr "dark")].



(** The same installation with a daemon address that names no scheme. *)
Definition no_scheme (E : env) : env :=
  Env false (answer E) (schedule E) (profile_files E) (registry_write E)
      (lower E) (profile_path E).

(** A session that starts on the demonstration with an empty console. *)
Definition session0 : session := Session start [].

(** A daemon that refuses to switch and lists the members of the group. *)
Definition stubborn_daemon (history : list event) (c : api_call)
  : http_result :=
  if String.eqb (call_method c) "PUT" then HTTPError 400 (Some "no such node")
  else Response 200 (Json group_info).

(** A daemon that accepts a switch and answers every probe with 42 ms. *)
Definition willing_daemon (history : list event) (c : api_call)
  : http_result :=
  if String.eqb (call_method c) "PUT" then Response 204 (Undecodable EmptyString)
  else delay_ok 42.

(** [str.strip] on ASCII white space. *)
Definition is_space (c : ascii) : bool :=
  let n := N_of_ascii c in
  (((9 <=? n) && (n <=? 13)) || ((28 <=? n) && (n <=? 32)))%N.

Fixpoint lstrip (s : string) : string :=
  match s with
  | EmptyString => EmptyString
  | String c r => if is_space c then lstrip r else s
  end.

Fixpoint rstrip (s : string) : string :=
  match s with
  | EmptyString => EmptyString
  | String c r =>
      match rstrip r with
      | EmptyString => if is_space c then EmptyString else String c EmptyString
      | r' => String c r'
      end
  end.

Definition ascii_strip (s : string) : string := rstrip (lstrip s).

(** The lines of a small [.env]. *)
Definition dotenv_file : list string :=
  ["# local daemon"; "CLASH_API_URL = 'http://127.0.0.1:9090'";
   "CLASH_API_SECRET=s3cret"; "not an assignment";
   "CLASH_API_SECRET=other"].

End Demo.

(** * Properties *)

(** ** Sanity checks of the embedding *)

Example utf8_chars_ex : utf8_chars "a官b" = ["a"; "官"; "b"].
Proof. reflexivity. Qed.

Example info_ex : is_informational "x 官网 y" = true /\ List.length INFO_KEYWORDS = 6%nat
  /\ String.length "官网" = 6%nat.
Proof. repeat split. Qed.

Example quote_ex :
  quote "https://www.gstatic.com/generate_204"
  = "https%3A%2F%2Fwww.gstatic.com%2Fgenerate_204"
  /\ quote "HK 01~a" = "HK%2001~a"
  /\ quote "官" = "%E5%AE%98".
Proof. repeat split. Qed.

(** The scenario of a switch: the query "work" selects the profile "b2";
    the run writes the registry with [current] set to "b2", then asks the
    daemon to reload from the file of that profile. *)
Example switch_to_work :
  writes (trace (snd (cmd_switch_profile
                        (Demo.install (Demo.frozen_daemon []) id)
                        "work" Demo.start)))
  = [EWriteRegistry
       (PDict [("current", PStr "b2");
               ("items", PList [Demo.item "a1" "Home" "a1.yaml";
                                Demo.item "b2" "Work" "b2.yaml";
                                PDict [("uid", PStr "Merge"); ("type", PStr "merge")]]);
               ("theme", PStr "dark")]);
     EApi (ApiCall "PUT" "/configs?force=true"
                   (Some (PDict [("path", PStr "/profiles/b2.yaml")])))]
  /\ printed (trace (snd (cmd_switch_profile
                            (Demo.install (Demo.frozen_daemon []) id)
                            "work" Demo.start)))
     = [MSwitching (PStr "Work") (PStr "b2"); MReloaded (PStr "b2.yaml");
        MVersion (PStr "v1.18"); MNodesLoaded 3; MNote; MNote].
Proof. split; vm_compute; reflexivity. Qed.

Example delay_path_ex :
  delay_path "HK 01" 3000 TEST_URL
  = "/proxies/HK%2001/delay?timeout=3000&url=https%3A%2F%2Fwww.gstatic.com%2Fgenerate_204".
Proof. reflexivity. Qed.

(** ** Strings *)

Lemma prefix_spec (s h : string) :
  String.prefix s h = true <-> exists post, h = s ++ post.
Proof.
  revert h. induction s as [|a s IH]; intros h.
  - split; [intros _; now exists h | intros _; now destruct h].
  - destruct h as [|b h]; simpl.
    + split; [discriminate | intros [post H]; discriminate].
    + destruct (ascii_dec a b) as [->|Hab].
      * rewrite IH. split; intros [post H]; exists post.
        -- now rewrite H.
        -- now injection H.
      * split; [discriminate | intros [post H]; congruence].
Qed.

Lemma str_contains_spec (s h : string) :
  str_contains s h = true <-> is_substring s h.
Proof.
  unfold is_substring. induction h as [|c h IH]; cbn [str_contains].
  - rewrite orb_false_r, prefix_spec. split.
    + intros [post H]. exists EmptyString, post. exact H.
    + intros [pre [post H]]. destruct pre; simpl in H.
      * now exists post.
      * discriminate.
  - rewrite orb_true_iff, prefix_spec, IH. split.
    + intros [[post H] | [pre [post H]]].
      * exists EmptyString, post. exact H.
      * exists (String c pre), post. simpl. now rewrite H.
    + intros [pre [post H]]. destruct pre as [|c' pre]; simpl in H.
      * left. now exists post.
      * right. injection H as _ H. now exists pre, post.
Qed.

(** ** The classifier *)

Lemma in_strs_spec (x : pyval) (l : list string) :
  in_strs x l = true <-> exists k, In k l /\ x = PStr k.
Proof.
  unfold in_strs. rewrite existsb_exists. split.
  - intros [k [Hin Heq]]. exists k. split; [exact Hin|].
    destruct x; simpl in Heq; try discriminate.
    apply String.eqb_eq in Heq. now subst.
  - intros [k [Hin ->]]. exists k. split; [exact Hin|].
    simpl. apply String.eqb_refl.
Qed.

Lemma is_informational_spec (name : string) :
  is_informational name = true <-> has_info_marker name.
Proof.
  unfold is_informational, has_info_marker. rewrite existsb_exists.
  split; intros [kw [Hin H]]; exists kw; split; auto;
    now apply str_contains_spec.
Qed.


(** ** The control-plane client *)

(** C7, amended.  [api_request] raises in three cases: when the request
    cannot be built because the URL names no scheme, which is a [ValueError]
    before anything is sent; when the body of an error response cannot be
    read; and when that body is not valid text.  In every other case it
    returns a value and has made the call: an error envelope for a failed
    call, [None] for a 204, the decoded body for another success.  [None] is
    no envelope; a decoded body equals it only when it is JSON null. *)
Theorem api_request_outcomes (E : env) (path method : string) (data : pyval)
    (w : world) :
  let c := ApiCall method path (request_body data) in
  let r := daemon E (trace w) c in
  let sent := World (registry w) (trace w ++ [EApi c]) in
  (request_builds E = false ->
   r = NoRequest
   /\ api_request E path method data w = (Raise UrlValueError, w))
  /\ (forall code e, r = HTTPErrorUnread code e ->
        api_request E path method data w = (Raise e, sent))
  /\ (forall code, r = HTTPError code None ->
        api_request E path method data w = (Raise UnicodeDecodeError, sent))
  /\ (r <> NoRequest ->
      (forall code e, r <> HTTPErrorUnread code e) ->
      (forall code, r <> HTTPError code None) ->
      exists v,
        api_request E path method data w = (Ret v, sent)
        /\ (failed_call r -> is_envelope v)
        /\ ((exists b, r = Response 204 b) -> v = PNone)
        /\ (forall status u, r = Response status (Json u) -> status <> 204 ->
            v = u /\ (v = PNone <-> u = PNone))
        /\ ~ is_envelope PNone).
Proof.
  intros c r sent. unfold api_request. fold c. fold r.
  assert (Hnone : ~ is_envelope PNone).
  { intros [d [e [H _]]]. discriminate. }
  assert (Henv : forall d e, assoc "error" d = Some e -> is_envelope (PDict d)).
  { intros d e H. now exists d, e. }
  assert (Hb : r <> NoRequest -> request_builds E = true).
  { unfold r, daemon. destruct (request_builds E); [reflexivity | congruence]. }
  split.
  { intros H. unfold r, daemon. now rewrite H. }
  split.
  { intros code e Hr. rewrite Hb, Hr by (rewrite Hr; discriminate). reflexivity. }
  split.
  { intros code Hr. rewrite Hb, Hr by (rewrite Hr; discriminate). reflexivity. }
  intros Hsent Hread Htext. rewrite (Hb Hsent).
  destruct r as [status [msg | v0] | code [text|] | reason | code e |] eqn:Er;
    cbn [api_result].
  - destruct (Z.eqb_spec status 204) as [Es|Es].
    + exists PNone. split; [reflexivity|].
      split; [intros Hf; contradiction|].
      split; [reflexivity|].
      split; [intros status' u H; discriminate | exact Hnone].
    + eexists. split; [reflexivity|].
      split; [intros _; now apply (Henv _ (PStr msg))|].
      split; [intros [b H]; congruence|].
      split; [intros status' u H; discriminate | exact Hnone].
  - destruct (Z.eqb_spec status 204) as [Es|Es].
    + exists PNone. split; [reflexivity|].
      split; [intros []|].
      split; [reflexivity|].
      split; [intros status' u H Hn; congruence | exact Hnone].
    + exists v0. split; [reflexivity|].
      split; [intros []|].
      split; [intros [b H]; congruence|].
      split; [|exact Hnone].
      intros status' u H _. injection H as _ ->. split; [reflexivity | tauto].
  - eexists. split; [reflexivity|].
    split; [intros _; now apply (Henv _ (PInt code))|].
    split; [intros [b H]; discriminate|].
    split; [intros status' u H; discriminate | exact Hnone].
  - exfalso. now apply (Htext code).
  - eexists. split; [reflexivity|].
    split; [intros _; now apply (Henv _ (PStr reason))|].
    split; [intros [b H]; discriminate|].
    split; [intros status' u H; discriminate | exact Hnone].
  - exfalso. now apply (Hread code e).
  - exfalso. now apply Hsent.
Qed.

(** C7, as stated, fails.  A success whose body is JSON null gives the
    caller the very value a 204 gives, so it cannot tell them apart.  And
    [api_request] does raise: on an error response whose body is not valid
    text, on one whose body is cut short, and, before anything is sent, on a
    daemon address without a scheme. *)
Lemma null_body_is_no_content :
  let put E := api_request E "/configs?force=true" "PUT"
                 (PDict [("path", PStr "/profiles/b2.yaml")]) Demo.start in
  fst (put (Demo.install (Demo.always (Response 200 (Json PNone))) id))
  = fst (put (Demo.install (Demo.always (Response 204 (Undecodable EmptyString))) id))
  /\ fst (put (Demo.install (Demo.always (HTTPError 502 None)) id))
     = Raise UnicodeDecodeError
  /\ fst (put (Demo.install (Demo.always (HTTPErrorUnread 502 IncompleteRead)) id))
     = Raise IncompleteRead
  /\ put (Demo.no_scheme (Demo.install (Demo.always (Response 204 (Undecodable EmptyString))) id))
     = (Raise UrlValueError, Demo.start).
Proof. repeat split. Qed.

(** A witness for C7, amended: a refused connection. *)
Lemma api_request_outcomes_witness :
  exists v,
    api_request (Demo.install (Demo.always (URLError "refused")) id)
                "/version" "GET" PNone Demo.start
    = (Ret v, World (Doc Demo.registry_doc)
                    [EApi (ApiCall "GET" "/version" None)])
    /\ is_envelope v.
Proof.
  destruct (api_request_outcomes
              (Demo.install (Demo.always (URLError "refused")) id)
              "/version" "GET" PNone Demo.start) as [_ [_ [_ H]]].
  destruct H as [v [H1 [H2 _]]]; try discriminate.
  exists v. split; [exact H1 | apply H2; exact I].
Defined.

(** ** Running the monad *)

Lemma bind_run {A B} (m : M A) (k : A -> M B) (w : world) :
  bind m k w
  = match m w with
    | (Ret a, w') => k a w'
    | (Raise e, w') => (Raise e, w')
    end.
Proof. reflexivity. Qed.

Lemma lift_run {A} (o : outcome A) (w : world) : lift o w = (o, w).
Proof. reflexivity. Qed.

Lemma ret_run {A} (a : A) (w : world) : ret a w = (Ret a, w).
Proof. reflexivity. Qed.

Lemma print_run (m : message) (w : world) :
  print m w = (Ret tt, World (registry w) (trace w ++ [EPrint m])).
Proof. reflexivity. Qed.

(** ** Calls *)

Lemma daemon_builds (E : env) (history : list event) (c : api_call) :
  daemon E history c <> NoRequest -> request_builds E = true.
Proof.
  unfold daemon. destruct (request_builds E); [reflexivity | congruence].
Qed.

Lemma api_result_sent (r : http_result) (v : pyval) :
  api_result r = Ret v -> r <> NoRequest.
Proof. intros H ->. discriminate. Qed.

Lemma api_request_run (E : env) (path method : string) (data : pyval)
    (w : world) :
  request_builds E = true ->
  api_request E path method data w
  = (api_result (daemon E (trace w) (ApiCall method path (request_body data))),
     World (registry w)
           (trace w ++ [EApi (ApiCall method path (request_body data))])).
Proof. intros H. unfold api_request. now rewrite H. Qed.

Lemma api_request_unbuilt (E : env) (path method : string) (data : pyval)
    (w : world) :
  request_builds E = false ->
  api_request E path method data w = (Raise UrlValueError, w).
Proof. intros H. unfold api_request. now rewrite H. Qed.

Lemma api_request_ret (E : env) (path method : string) (data : pyval)
    (w : world) (v : pyval) :
  api_result (daemon E (trace w) (ApiCall method path (request_body data)))
  = Ret v ->
  api_request E path method data w
  = (Ret v,
     World (registry w)
           (trace w ++ [EApi (ApiCall method path (request_body data))])).
Proof.
  intros H. rewrite api_request_run, H; [reflexivity|].
  exact (daemon_builds _ _ _ (api_result_sent _ _ H)).
Qed.

Lemma sent_app (E : env) (a b : list event) :
  sent E (a ++ b) = (sent E a ++ sent E b)%list.
Proof. unfold sent. now destruct (request_builds E). Qed.

Lemma sent_built (E : env) (calls : list event) :
  request_builds E = true -> sent E calls = calls.
Proof. intros H. unfold sent. now rewrite H. Qed.

(** ** Probes *)

Lemma test_single_node_delay_run (E : env) (name : string) (w : world) :
  exists o,
    test_single_node_delay E name w
    = (o, World (registry w) (trace w ++ sent E [probe_call name])).
Proof.
  unfold test_single_node_delay, api_get. rewrite bind_run.
  destruct (request_builds E) eqn:Eb.
  - rewrite (api_request_run E _ _ _ w Eb), (sent_built E _ Eb).
    cbn [request_body truthy]. fold (probe_request name).
    fold (probe_call name).
    destruct (api_result _) as [result|e]; [|eexists; reflexivity].
    rewrite bind_run. destruct (truthy result).
    + rewrite lift_run.
      destruct (py_in "delay" result) as [[|]|e]; eexists; reflexivity.
    + rewrite ret_run, ret_run. eexists; reflexivity.
  - rewrite (api_request_unbuilt E _ _ _ w Eb). unfold sent. rewrite Eb.
    rewrite app_nil_r. destruct w. eexists; reflexivity.
Qed.

(** The pool runs one probe per submitted name, in the order of the
    schedule, and no probe makes the round itself raise. *)
Lemma mapM_probes (E : env) (names : list string) (w : world) :
  exists done,
    mapM (fun name =>
            o <- attempt (test_single_node_delay E name) ;;
            ret (name, o)) names w
    = (Ret done,
       World (registry w) (trace w ++ sent E (map probe_call names)))
    /\ map fst done = names.
Proof.
  revert w. induction names as [|n names IH]; intros w.
  - exists []. simpl. unfold ret, sent. destruct (request_builds E);
      rewrite app_nil_r; destruct w; auto.
  - destruct (test_single_node_delay_run E n w) as [o Ho].
    destruct (IH (World (registry w) (trace w ++ sent E [probe_call n])))
      as [done [Hd Hn]].
    exists ((n, o) :: done). split; [|simpl; now rewrite Hn].
    cbn [mapM]. rewrite !bind_run. unfold attempt at 1. rewrite Ho.
    unfold ret at 1. rewrite bind_run, Hd. unfold ret.
    cbn [map registry trace].
    change (probe_call n :: map probe_call names)
      with ([probe_call n] ++ map probe_call names)%list.
    now rewrite sent_app, <- app_assoc.
Qed.

Lemma run_probes_run (E : env) (names : list string) (w : world) :
  exists done,
    run_probes E names w
    = (Ret done,
       World (registry w)
             (trace w ++ sent E (map probe_call (schedule E names))))
    /\ map fst done = schedule E names.
Proof. apply mapM_probes. Qed.

(** ** Code without effects *)

Lemma any_in_str (kws : list string) (s : string) :
  any_in kws (PStr s) = Ret (existsb (fun kw => str_contains kw s) kws).
Proof.
  induction kws as [|kw kws IH]; simpl; [reflexivity|].
  destruct (str_contains kw s); [reflexivity | exact IH].
Qed.

Lemma filterO_In {A} (f : A -> outcome bool) (l l' : list A) (x : A) :
  filterO f l = Ret l' -> In x l -> f x = Ret true -> In x l'.
Proof.
  revert l'. induction l as [|a l IH]; intros l' H Hin Hx; [contradiction|].
  simpl in H. destruct (f a) as [b|e] eqn:Ea; [|discriminate].
  simpl in H. destruct (filterO f l) as [r|e]; [|discriminate].
  simpl in H. injection H as <-. destruct Hin as [->|Hin].
  - rewrite Hx in Ea. injection Ea as <-. now left.
  - specialize (IH r eq_refl Hin Hx). destruct b; [now right | exact IH].
Qed.

(** ** The two views of the nodes *)

(** C4, as stated, fails: an entry named "G" that declares the type
    "Selector" is listed as a node from the profile's backing file, and is
    not a real node of the daemon's listing. *)
Lemma views_differ_on_selector :
  let E := Demo.with_profile_file (Demo.install (Demo.always (URLError "down")) id)
             "b2.yaml" (PDict [("proxies", PList [PDict Demo.selector_entry])]) in
  parse_profile_nodes E Demo.work
  = Ret [Node (PStr "G") (PStr "Selector") (PStr EmptyString) (PStr EmptyString)
              (PStr "Work") (PStr "b2")]
  /\ real_nodes_of [("G", PDict [("type", PStr "Selector")])] = Ret []
  /\ file_view_admits Demo.work (PDict Demo.selector_entry) = true
  /\ daemon_view_admits "G" (PDict [("type", PStr "Selector")]) = false.
Proof. repeat split. Qed.

(** C4, amended.  Both views drop an entry whose name contains an
    informational keyword.  The profile-file view looks at nothing else; the
    daemon view also drops the reserved types.  So the views agree on every
    entry whose declared type is not reserved, and whatever the daemon view
    keeps the profile-file view lists. *)
Theorem views_agree_unless_reserved (prof : profile) (name : string)
    (p info : list (string * pyval)) :
  assoc "name" p = Some (PStr name) ->
  file_view_admits prof (PDict p) = negb (is_informational name)
  /\ daemon_view_admits name (PDict info) = is_real_node name (declared_type info)
  /\ (in_strs (declared_type info) RESERVED_TYPES = false ->
      file_view_admits prof (PDict p) = daemon_view_admits name (PDict info))
  /\ (daemon_view_admits name (PDict info) = true ->
      file_view_admits prof (PDict p) = true).
Proof.
  intros Hname.
  assert (Hf : file_view_admits prof (PDict p) = negb (is_informational name)).
  { unfold file_view_admits. cbn [profile_nodes py_get]. rewrite Hname.
    cbn [obind]. rewrite any_in_str. cbn [obind].
    fold (is_informational name). now destruct (is_informational name). }
  assert (Hd : daemon_view_admits name (PDict info)
               = is_real_node name (declared_type info)).
  { unfold daemon_view_admits, real_nodes_of, declared_type.
    cbn [filterO py_get snd fst obind].
    now destruct (is_real_node name _). }
  split; [exact Hf|]. split; [exact Hd|]. split.
  - intros Hr. rewrite Hf, Hd. unfold is_real_node. now rewrite Hr.
  - rewrite Hf, Hd. unfold is_real_node. rewrite andb_true_iff. tauto.
Qed.

(** A witness for C4, amended: the node "N1", whose type is not reserved,
    is admitted by both views. *)
Lemma views_agree_unless_reserved_witness :
  file_view_admits Demo.work (PDict [("name", PStr "N1"); ("type", PStr "ss")])
  = daemon_view_admits "N1" (PDict [("type", PStr "Shadowsocks")]).
Proof.
  destruct (views_agree_unless_reserved Demo.work "N1"
              [("name", PStr "N1"); ("type", PStr "ss")]
              [("type", PStr "Shadowsocks")] eq_refl) as [_ [_ [H _]]].
  apply H. reflexivity.
Defined.

(** ** Members of a group that the listing does not know *)

Lemma actual_nodes_of_cons (proxies : pyval) (name : string)
    (rest : list pyval) :
  unlisted proxies name ->
  actual_nodes_of proxies (PStr name :: rest)
  = (let? nodes := actual_nodes_of proxies rest in Ret (name :: nodes)).
Proof.
  intros [entries [Hl Ha]]. cbn [actual_nodes_of]. rewrite Hl.
  cbn [obind py_items]. rewrite Ha. reflexivity.
Qed.

Lemma actual_nodes_of_In (proxies : pyval) (name : string)
    (candidates : list pyval) (nodes : list string) :
  unlisted proxies name ->
  actual_nodes_of proxies candidates = Ret nodes ->
  In (PStr name) candidates ->
  In name nodes.
Proof.
  intros Hu. revert nodes.
  induction candidates as [|c candidates IH]; intros nodes H Hin;
    [contradiction|].
  destruct Hin as [->|Hin].
  - rewrite (actual_nodes_of_cons _ _ _ Hu) in H.
    destruct (actual_nodes_of proxies candidates); [|discriminate].
    injection H as <-. now left.
  - cbn [actual_nodes_of] in H.
    destruct (py_getitem proxies "proxies") as [listing|]; [|discriminate].
    cbn [obind] in H.
    destruct (py_items listing) as [entries|]; [|discriminate].
    cbn [obind] in H. destruct c; try discriminate.
    destruct (py_get _ "type" PNone) as [ty|]; [|discriminate].
    cbn [obind] in H.
    destruct (actual_nodes_of proxies candidates) as [rest|]; [|discriminate].
    cbn [obind] in H. specialize (IH rest eq_refl Hin).
    destruct (in_strs ty RESERVED_TYPES); injection H as <-;
      [exact IH | now right].
Qed.

(** A member of the group that has no informational keyword, is none of
    the sink names and has no entry in the daemon's listing is a candidate
    and is kept by the loop that drops sub-groups. *)
Lemma unlisted_member_kept (proxies : pyval) (name : string)
    (members candidates : list pyval) (nodes : list string) :
  unlisted proxies name ->
  is_informational name = false ->
  ~ In name SINK_NAMES ->
  In (PStr name) members ->
  filterO is_candidate members = Ret candidates ->
  actual_nodes_of proxies candidates = Ret nodes ->
  is_candidate (PStr name) = Ret true /\ In name nodes.
Proof.
  intros Hu Hinfo Hsink Hin Hf Ha.
  assert (Hc : is_candidate (PStr name) = Ret true).
  { unfold is_candidate. rewrite any_in_str. fold (is_informational name).
    rewrite Hinfo. cbn [obind negb andb].
    destruct (in_strs (PStr name) SINK_NAMES) eqn:Es; [|reflexivity].
    apply in_strs_spec in Es. destruct Es as [k [Hk Heq]].
    injection Heq as ->. contradiction. }
  split; [exact Hc|].
  apply (actual_nodes_of_In proxies name candidates nodes Hu Ha).
  exact (filterO_In _ _ _ _ Hf Hin Hc).
Qed.

(** ** Ranking the results *)

Lemma key_lt_ranked (a b : Z) :
  key_lt (key_of b) (key_of a) = false <-> ranked a b.
Proof.
  unfold key_lt, key_of, ranked. cbn [fst snd].
  destruct (Z.ltb_spec b 0), (Z.ltb_spec a 0); cbn [Bool.eqb negb];
    try rewrite Z.ltb_ge; intuition lia.
Qed.

Lemma key_lt_neq (a b : Z) : key_lt (key_of a) (key_of b) = true -> a <> b.
Proof.
  unfold key_lt, key_of. cbn [fst snd]. intros H ->.
  rewrite Bool.eqb_reflx, Z.ltb_irrefl in H. discriminate.
Qed.

Lemma ranked_trans (a b c : Z) : ranked a b -> ranked b c -> ranked a c.
Proof. unfold ranked. lia. Qed.

Section Sorting.

Context {A : Type}.
Variable z : A -> Z.

Lemma insert_key_keyed (x : A) (l : list A) :
  exists l', insert_key (key_of (z x), x) (keyed z l) = keyed z l'
             /\ Permutation (x :: l) l'
             /\ (forall d, filter (fun y => z y =? d) l'
                           = filter (fun y => z y =? d) (x :: l))
             /\ (StronglySorted (fun a b => ranked (z a) (z b)) l ->
                 StronglySorted (fun a b => ranked (z a) (z b)) l').
Proof.
  induction l as [|y l IH].
  - exists [x]. repeat split; auto. intros _. repeat constructor.
  - destruct IH as [l' [Hk [Hp [Hf Hs]]]].
    cbn [keyed map insert_key fst].
    destruct (key_lt (key_of (z y)) (key_of (z x))) eqn:Elt.
    + exists (y :: l'). split; [|split; [|split]].
      * cbn [keyed map]. f_equal. exact Hk.
      * rewrite perm_swap. now apply perm_skip.
      * intros d. cbn [filter]. rewrite Hf. cbn [filter].
        apply key_lt_neq in Elt.
        destruct (Z.eqb_spec (z y) d), (Z.eqb_spec (z x) d);
          try reflexivity. congruence.
      * intros Hs'. inversion Hs' as [|? ? Hl Hy]; subst.
        constructor; [now apply Hs|].
        apply (Permutation_Forall Hp). constructor; [|exact Hy].
        assert (Hxy : key_lt (key_of (z x)) (key_of (z y)) = false).
        { revert Elt. unfold key_lt, key_of. cbn [fst snd].
          destruct (Z.ltb_spec (z y) 0), (Z.ltb_spec (z x) 0);
            cbn [Bool.eqb negb]; try discriminate; try reflexivity.
          - rewrite Z.ltb_lt, Z.ltb_ge. lia.
          - rewrite Z.ltb_lt, Z.ltb_ge. lia. }
        now apply key_lt_ranked.
    + exists (x :: y :: l). split; [|split; [|split]]; auto.
      intros Hs'. constructor; [exact Hs'|].
      apply key_lt_ranked in Elt.
      inversion Hs' as [|? ? Hl Hy]; subst. constructor; [exact Elt|].
      revert Hy. apply Forall_impl. intros c. now apply ranked_trans.
Qed.

Lemma sort_keyed_keyed (l : list A) :
  exists out, sort_keyed (keyed z l) = keyed z out
              /\ Permutation l out
              /\ StronglySorted (fun a b => ranked (z a) (z b)) out
              /\ forall d, filter (fun y => z y =? d) out
                           = filter (fun y => z y =? d) l.
Proof.
  induction l as [|x l IH].
  - exists []. repeat split; auto. constructor.
  - destruct IH as [out [Hk [Hp [Hs Hf]]]].
    destruct (insert_key_keyed x out) as [out' [Hk' [Hp' [Hf' Hs']]]].
    exists out'. split; [|split; [|split]].
    + cbn [keyed map sort_keyed]. fold (keyed z l). rewrite Hk. exact Hk'.
    + rewrite <- Hp'. now apply perm_skip.
    + now apply Hs'.
    + intros d. rewrite Hf'. cbn [filter]. now rewrite Hf.
Qed.

Lemma map_snd_keyed (l : list A) : map snd (keyed z l) = l.
Proof.
  unfold keyed. rewrite map_map. cbn [snd]. apply map_id.
Qed.

Variable delay : A -> pyval.

Lemma mapO_keys (l : list A) :
  (forall x, In x l -> num_of (delay x) = Some (z x)) ->
  mapO (fun x => let? k := sort_key (delay x) in Ret (k, x)) l
  = Ret (keyed z l).
Proof.
  induction l as [|x l IH]; intros H; [reflexivity|].
  cbn [mapO]. unfold sort_key at 1. rewrite (H x (or_introl eq_refl)).
  cbn [obind]. rewrite IH by (intros y Hy; apply H; now right).
  reflexivity.
Qed.

End Sorting.

(** The sort, when every delay is a number: a permutation, ranked, and
    stable. *)
Lemma sort_by_delay_sorted {A : Type} (delay : A -> pyval) (z : A -> Z)
    (l : list A) :
  (forall x, In x l -> num_of (delay x) = Some (z x)) ->
  exists out,
    sort_by_delay delay l = Ret out
    /\ Permutation l out
    /\ StronglySorted (fun a b => ranked (z a) (z b)) out
    /\ forall d, filter (fun x => z x =? d) out = filter (fun x => z x =? d) l.
Proof.
  intros H. destruct (sort_keyed_keyed z l) as [out [Hk Hrest]].
  exists out. split; [|exact Hrest].
  unfold sort_by_delay. rewrite (mapO_keys z delay l H). cbn [obind].
  now rewrite Hk, map_snd_keyed.
Qed.

(** C1, as stated, fails on ties.  The same daemon gives "N1" and "N3" the
    same delay; when the probes complete in the order they were submitted the
    ranking shows "N1" first, when they complete in the reverse order it
    shows "N3" first, although "N1" comes first among the input names.  The
    node the group is switched to differs with it. *)
Lemma ties_follow_completion_order :
  let shown sched :=
    printed (trace (snd (cmd_best (Demo.install Demo.tied_daemon sched)
                                  "Proxies" Demo.start))) in
  shown id
  = [MTestingGroup 4 "Proxies";
     MBestRow 1 "N1" (PInt 80); MBestRow 2 "N3" (PInt 80);
     MBestRowTimeout 3 "N2"; MBestRowTimeout 4 "Ghost";
     MBest "N1" (PInt 80); MSwitched "Proxies" "N1"]
  /\ shown (@rev string)
     = [MTestingGroup 4 "Proxies";
        MBestRow 1 "N3" (PInt 80); MBestRow 2 "N1" (PInt 80);
        MBestRowTimeout 3 "Ghost"; MBestRowTimeout 4 "N2";
        MBest "N3" (PInt 80); MSwitched "Proxies" "N3"]
  /\ printed (trace (snd (cmd_test (Demo.install Demo.tied_daemon (@rev string))
                                   Demo.start)))
     = [MTesting 3 (PStr "Home"); MHeader; MRule;
        MRow 1 "N3" (PStr "Trojan") (PInt 80);
        MRow 2 "N1" (PStr "Shadowsocks") (PInt 80);
        MRowTimeout 3 "N2" (PStr "Vmess");
        MSummary 2 3; MBestOf "N3" (PInt 80)].
Proof. repeat split; vm_compute; reflexivity. Qed.

(** ** The registry *)

Lemma get_remote_profiles_run (w : world) (data : pyval) :
  registry w = Doc data ->
  get_remote_profiles w = (profiles_of data, w).
Proof.
  intros H. unfold get_remote_profiles. rewrite bind_run.
  unfold load_profiles_yaml. rewrite H. reflexivity.
Qed.

(** ** [cmd_test] on an empty listing *)

Lemma fetch_failed_empty (d : list (string * pyval)) :
  assoc "proxies" d = Some (PDict []) ->
  fetch_failed (PDict d) = Ret true.
Proof.
  intros H. unfold fetch_failed.
  destruct d as [|kv d]; [discriminate|].
  cbn [truthy negb py_in py_getitem]. rewrite H. reflexivity.
Qed.

Lemma fetch_failed_falsy (v : pyval) :
  truthy v = false -> fetch_failed v = Ret true.
Proof. intros H. unfold fetch_failed. now rewrite H. Qed.

(** What [cmd_test] does on an empty listing.  With an active profile, when
    the listing call succeeds with an empty [proxies] object, [cmd_test]
    makes that one call, prints that the proxies cannot be fetched and
    returns: no node is probed.  The run is the same, event for event, as
    when the call gave the caller nothing: a 204, or a body that is falsy. *)
Theorem empty_listing_reported_as_failure (E : env) (w : world) :
  has_active_profile w ->
  empty_listing (daemon E (trace w) LIST_PROXIES)
  \/ no_result (daemon E (trace w) LIST_PROXIES) ->
  cmd_test E w
  = (Ret tt,
     World (registry w) (trace w ++ [EApi LIST_PROXIES; EPrint MCannotFetch])).
Proof.
  intros [data [ps [a [Hr [Hp Ha]]]]] Hcase.
  assert (Hf : exists v, api_result (daemon E (trace w) LIST_PROXIES) = Ret v
                         /\ fetch_failed v = Ret true).
  { destruct Hcase as [[status [d [Hd [Hs He]]]] | [v [Hv Ht]]].
    - exists (PDict d). split; [|now apply fetch_failed_empty].
      rewrite Hd. cbn [api_result].
      destruct (Z.eqb_spec status 204); [contradiction | reflexivity].
    - exists v. split; [exact Hv | now apply fetch_failed_falsy]. }
  destruct Hf as [v [Hv Hff]].
  unfold cmd_test. rewrite bind_run, (get_remote_profiles_run w data Hr), Hp.
  rewrite Ha, bind_run. unfold api_get.
  rewrite (api_request_ret E _ _ _ w v) by exact Hv.
  cbn [request_body truthy]. fold LIST_PROXIES.
  rewrite bind_run, lift_run, Hff, print_run. cbn [registry trace].
  now rewrite <- app_assoc.
Qed.

(** The daemon answers the listing call with an empty [proxies] object. *)
Lemma empty_listing_reported_as_failure_witness :
  cmd_test (Demo.install
              (Demo.always (Response 200 (Json (PDict [("proxies", PDict [])]))))
              id)
           Demo.start
  = (Ret tt,
     World (Doc Demo.registry_doc) [EApi LIST_PROXIES; EPrint MCannotFetch]).
Proof.
  apply (empty_listing_reported_as_failure
           (Demo.install
              (Demo.always (Response 200 (Json (PDict [("proxies", PDict [])]))))
              id)
           Demo.start).
  - eexists. eexists. eexists. split; [reflexivity|]. split; reflexivity.
  - left. eexists. eexists. split; [reflexivity|]. split; [lia | reflexivity].
Defined.

(** C9 fails on the code.  The test that catches the empty listing, and
    prints that the proxies cannot be fetched, is written for the failed
    call and misses it: the envelope of a call that fails in transport is
    truthy and has no [proxies] entry, subscripting it raises [KeyError], and
    nothing is printed.  So the command does tell a failed call from an
    empty listing. *)
Lemma refused_listing_raises :
  let failed :=
    cmd_test (Demo.install (Demo.always (URLError "refused")) id) Demo.start in
  let empty :=
    cmd_test (Demo.install
                (Demo.always (Response 200 (Json (PDict [("proxies", PDict [])]))))
                id)
             Demo.start in
  failed = (Raise KeyError, World (Doc Demo.registry_doc) [EApi LIST_PROXIES])
  /\ printed (trace (snd failed)) = []
  /\ empty
     = (Ret tt,
        World (Doc Demo.registry_doc) [EApi LIST_PROXIES; EPrint MCannotFetch])
  /\ failed <> empty.
Proof. repeat split. discriminate. Qed.

(** ** The order in which [yaml.dump] writes

    Induction on a value, with the hypothesis for every element of a list
    and every value of a mapping. *)

Lemma pyval_induction (P : pyval -> Prop) :
  P PNone -> (forall b, P (PBool b)) -> (forall z, P (PInt z)) ->
  (forall s, P (PStr s)) ->
  (forall l, Forall P l -> P (PList l)) ->
  (forall d, Forall (fun kv => P (snd kv)) d -> P (PDict d)) ->
  forall v, P v.
Proof.
  intros HNone HBool HInt HStr HList HDict.
  fix IH 1. intros [| b | z | s | l | d].
  - exact HNone.
  - apply HBool.
  - apply HInt.
  - apply HStr.
  - apply HList. induction l as [|x l IHl]; constructor; [apply IH | exact IHl].
  - apply HDict. induction d as [|[k x] d IHd]; constructor;
      [apply IH | exact IHd].
Qed.

Lemma sort_keys_dict (d : list (string * pyval)) :
  sort_keys (PDict d) = PDict (sort_bindings (sorted_values d)).
Proof.
  cbn [sort_keys]. do 2 f_equal. unfold sorted_values.
  induction d as [|[k x] d IH]; [reflexivity|]. cbn [map fst snd].
  now rewrite IH.
Qed.

Lemma ltb_irrefl (s : string) : String.ltb s s = false.
Proof.
  unfold String.ltb.
  assert (H : String.compare s s = Eq).
  { induction s as [|c s IH]; [reflexivity|]. cbn.
    unfold Ascii.compare. now rewrite N.compare_refl. }
  now rewrite H.
Qed.




Lemma insert_binding_perm (x : string * pyval) (l : list (string * pyval)) :
  Permutation (x :: l) (insert_binding x l).
Proof.
  induction l as [|y l IH]; [reflexivity|].
  cbn [insert_binding]. destruct (String.ltb (fst y) (fst x)); [|reflexivity].
  rewrite perm_swap. now apply perm_skip.
Qed.

Lemma sort_bindings_perm (l : list (string * pyval)) :
  Permutation l (sort_bindings l).
Proof.
  induction l as [|x l IH]; [reflexivity|].
  cbn [sort_bindings]. rewrite <- insert_binding_perm. now apply perm_skip.
Qed.

Lemma leb_trans (a b c : string) :
  String.leb a b = true -> String.leb b c = true -> String.leb a c = true.
Proof.
  unfold String.leb. revert b c.
  induction a as [|x a IH]; intros [|y b] [|z c]; cbn; try congruence.
  unfold Ascii.compare.
  destruct (N.compare_spec (N_of_ascii x) (N_of_ascii y)) as [Exy|Lxy|Gxy];
  destruct (N.compare_spec (N_of_ascii y) (N_of_ascii z)) as [Eyz|Lyz|Gyz];
  destruct (N.compare_spec (N_of_ascii x) (N_of_ascii z)) as [Exz|Lxz|Gxz];
    try congruence; try lia; try (intros; discriminate).
  apply IH.
Qed.

Lemma ltb_false_leb (a b : string) :
  String.ltb a b = false -> String.leb b a = true.
Proof.
  unfold String.ltb, String.leb. rewrite (String.compare_antisym b a).
  now destruct (String.compare a b).
Qed.

Lemma ltb_true_leb (a b : string) :
  String.ltb a b = true -> String.leb a b = true.
Proof.
  unfold String.ltb, String.leb. now destruct (String.compare a b).
Qed.

Lemma leb_ltb_false (a b : string) :
  String.leb a b = true -> String.ltb b a = false.
Proof.
  unfold String.ltb, String.leb. rewrite (String.compare_antisym b a).
  now destruct (String.compare a b).
Qed.

Lemma ascending_sorted (l : list (string * pyval)) :
  ascending (map fst l) = true <-> StronglySorted key_le l.
Proof.
  induction l as [|x l IH]; [split; [constructor | reflexivity]|].
  destruct l as [|y l].
  - split; [repeat constructor | reflexivity].
  - change (ascending (map fst (x :: y :: l)))
      with (String.leb (fst x) (fst y) && ascending (map fst (y :: l))).
    rewrite andb_true_iff, IH. split.
    + intros [Hxy Hs]. constructor; [exact Hs|].
      constructor; [exact Hxy|].
      inversion Hs as [|? ? _ Hy]; subst.
      revert Hy. apply Forall_impl. intros z Hz.
      now apply (leb_trans _ (fst y)).
    + intros Hs. inversion Hs as [|? ? Hs' Hx]; subst.
      split; [|exact Hs']. now inversion Hx.
Qed.

Lemma insert_binding_sorted (x : string * pyval) (l : list (string * pyval)) :
  StronglySorted key_le l -> StronglySorted key_le (insert_binding x l).
Proof.
  induction 1 as [|y l Hs IH Hy]; [repeat constructor|].
  cbn [insert_binding]. destruct (String.ltb (fst y) (fst x)) eqn:Elt.
  - constructor; [exact IH|].
    apply (Permutation_Forall (insert_binding_perm x l)).
    constructor; [now apply ltb_true_leb | exact Hy].
  - apply ltb_false_leb in Elt. constructor; [now constructor|].
    constructor; [exact Elt|].
    revert Hy. apply Forall_impl. intros z Hz. now apply (leb_trans _ (fst y)).
Qed.

Lemma sort_bindings_sorted (l : list (string * pyval)) :
  StronglySorted key_le (sort_bindings l).
Proof.
  induction l as [|x l IH]; [constructor|].
  now apply insert_binding_sorted.
Qed.

Lemma sort_bindings_fixed (l : list (string * pyval)) :
  StronglySorted key_le l -> sort_bindings l = l.
Proof.
  induction 1 as [|x l Hs IH Hx]; [reflexivity|].
  cbn [sort_bindings]. rewrite IH. destruct l as [|y l]; [reflexivity|].
  cbn [insert_binding]. inversion Hx as [|? ? Hxy _]; subst.
  now rewrite (leb_ltb_false _ _ Hxy).
Qed.

Lemma normalized_dict (d : list (string * pyval)) :
  normalized (PDict d)
  = ascending (map fst d) && forallb (fun kv => normalized (snd kv)) d.
Proof.
  cbn [normalized]. f_equal.
  induction d as [|[k x] d IH]; [reflexivity|]. cbn [forallb snd].
  now rewrite IH.
Qed.


(** What is written is in the order of the serializer. *)
Lemma sort_keys_normalized (v : pyval) : normalized (sort_keys v) = true.
Proof.
  induction v as [| b | z | s | l IH | d IH] using pyval_induction;
    try reflexivity.
  - cbn [sort_keys normalized]. rewrite forallb_forall.
    intros x Hx. apply in_map_iff in Hx. destruct Hx as [y [<- Hy]].
    rewrite Forall_forall in IH. now apply IH.
  - rewrite sort_keys_dict, normalized_dict, andb_true_iff. split.
    + apply ascending_sorted, sort_bindings_sorted.
    + rewrite forallb_forall. intros kv Hkv.
      apply (Permutation_in _ (Permutation_sym (sort_bindings_perm _))) in Hkv.
      unfold sorted_values in Hkv. apply in_map_iff in Hkv.
      destruct Hkv as [y [<- Hy]]. cbn [snd].
      rewrite Forall_forall in IH. now apply IH.
Qed.

(** A value in that order is written as it is. *)
Lemma sort_keys_fixed (v : pyval) : normalized v = true -> sort_keys v = v.
Proof.
  induction v as [| b | z | s | l IH | d IH] using pyval_induction;
    try reflexivity.
  - cbn [sort_keys normalized]. intros H. f_equal.
    rewrite forallb_forall in H. rewrite Forall_forall in IH.
    rewrite <- (map_id l) at 2. apply map_ext_in.
    intros x Hx. apply IH; [exact Hx | now apply H].
  - rewrite sort_keys_dict, normalized_dict, andb_true_iff.
    intros [Ha Hn]. f_equal.
    assert (Hv : sorted_values d = d).
    { unfold sorted_values. rewrite <- (map_id d) at 2. apply map_ext_in.
      intros [k x] Hx. cbn [fst snd]. f_equal.
      rewrite forallb_forall in Hn. rewrite Forall_forall in IH.
      apply (IH (k, x) Hx). exact (Hn (k, x) Hx). }
    rewrite Hv. apply sort_bindings_fixed. now apply ascending_sorted.
Qed.

Lemma sort_keys_idempotent (v : pyval) :
  sort_keys (sort_keys v) = sort_keys v.
Proof. apply sort_keys_fixed, sort_keys_normalized. Qed.





(** ** Writing the registry *)



(** ** Computations that write nothing *)

Lemma writes_app (a b : list event) : writes (a ++ b) = (writes a ++ writes b)%list.
Proof. apply filter_app. Qed.

Lemma quiet_ret {A} (a : A) : quiet (ret a).
Proof. intros w. now split. Qed.

Lemma quiet_raise {A} (e : exn) : quiet (@raise A e).
Proof. intros w. now split. Qed.

Lemma quiet_lift {A} (o : outcome A) : quiet (lift o).
Proof. intros w. now split. Qed.

Lemma quiet_print (m : message) : quiet (print m).
Proof.
  intros w. split; [reflexivity|]. cbn [print emit snd trace].
  rewrite writes_app. cbn. apply app_nil_r.
Qed.

Lemma quiet_bind {A B} (m : M A) (k : A -> M B) :
  quiet m -> (forall a, quiet (k a)) -> quiet (bind m k).
Proof.
  intros Hm Hk w. rewrite bind_run. specialize (Hm w).
  destruct (m w) as [[a|e] w1]; cbn [snd] in *.
  - destruct (Hk a w1) as [H1 H2]. destruct Hm as [H3 H4].
    split; congruence.
  - exact Hm.
Qed.

Lemma quiet_forM_ {A} (l : list A) (f : A -> M unit) :
  (forall a, quiet (f a)) -> quiet (forM_ l f).
Proof.
  intros Hf. induction l as [|a l IH]; cbn [forM_].
  - apply quiet_ret.
  - apply quiet_bind; [apply Hf | intros _; exact IH].
Qed.

Lemma quiet_api_get (E : env) (path : string) : quiet (api_get E path).
Proof.
  intros w. unfold api_get, api_request.
  destruct (request_builds E); cbn [snd registry trace]; [|now split].
  split; [reflexivity|]. rewrite writes_app. cbn. apply app_nil_r.
Qed.

Lemma quiet_get_remote_profiles : quiet get_remote_profiles.
Proof.
  unfold get_remote_profiles. apply quiet_bind; [|intros; apply quiet_lift].
  intros w. unfold load_profiles_yaml.
  destruct (registry w) eqn:Er; cbn [snd]; split; auto.
Qed.

Lemma quiet_attempt {A} (m : M A) : quiet m -> quiet (attempt m).
Proof.
  intros Hm w. specialize (Hm w). unfold attempt.
  destruct (m w) as [o w1]. exact Hm.
Qed.

Lemma quiet_mapM {A B} (f : A -> M B) (l : list A) :
  (forall a, quiet (f a)) -> quiet (mapM f l).
Proof.
  intros Hf. induction l as [|a l IH]; cbn [mapM].
  - apply quiet_ret.
  - apply quiet_bind; [apply Hf|]. intros b.
    apply quiet_bind; [exact IH | intros; apply quiet_ret].
Qed.

(** ** Matching a profile *)

Lemma not_contains (a b : string) :
  str_contains a b = false <-> ~ is_substring a b.
Proof.
  rewrite <- str_contains_spec. now destruct (str_contains a b).
Qed.

Lemma find_match_skip (E : env) (target : string) (p : profile)
    (ps : list profile) :
  no_match E target p ->
  find_match E target (p :: ps) = find_match E target ps.
Proof.
  intros [name [uid [Hn [Hu [Hcn Hcu]]]]]. cbn [find_match].
  rewrite Hn, Hu. cbn [py_lower obind].
  apply not_contains in Hcn, Hcu. now rewrite Hcn, Hcu.
Qed.

Lemma find_match_none (E : env) (target : string) (ps : list profile) :
  Forall (no_match E target) ps -> find_match E target ps = Ret None.
Proof.
  induction 1 as [|p ps Hp _ IH]; [reflexivity|].
  now rewrite find_match_skip.
Qed.

Lemma find_match_selected (E : env) (target : string) (ps : list profile)
    (m : profile) :
  selects E target ps m -> find_match E target ps = Ret (Some m).
Proof.
  intros [pre [post [-> [Hpre Hm]]]].
  induction Hpre as [|p pre Hp _ IH]; cbn [app].
  - destruct Hm as [name [Hn Hc]]. cbn [find_match]. rewrite Hn.
    cbn [py_lower obind].
    destruct (str_contains (lower E target) (lower E name)) eqn:Ec;
      [reflexivity|].
    destruct Hc as [Hc | [uid [Hu Hc]]].
    + apply str_contains_spec in Hc. unfold contains_ci in *. congruence.
    + rewrite Hu. cbn [py_lower obind].
      apply str_contains_spec in Hc. now rewrite Hc.
  - now rewrite find_match_skip.
Qed.

Lemma find_match_selects (E : env) (target : string) (ps : list profile)
    (m : profile) :
  find_match E target ps = Ret (Some m) -> selects E target ps m.
Proof.
  induction ps as [|p ps IH]; [discriminate|].
  cbn [find_match]. destruct (p_name p) as [| | |name| |] eqn:En;
    try discriminate.
  cbn [py_lower obind].
  destruct (str_contains (lower E target) (lower E name)) eqn:Ec.
  - intros H. injection H as <-. exists [], ps. split; [reflexivity|].
    split; [constructor|]. exists name. split; [exact En|]. left.
    now apply str_contains_spec.
  - destruct (p_uid p) as [| | |uid| |] eqn:Eu; try discriminate.
    cbn [py_lower obind].
    destruct (str_contains (lower E target) (lower E uid)) eqn:Ecu.
    + intros H. injection H as <-. exists [], ps. split; [reflexivity|].
      split; [constructor|]. exists name. split; [exact En|]. right.
      exists uid. split; [exact Eu | now apply str_contains_spec].
    + intros H. destruct (IH H) as [pre [post [-> [Hpre Hm]]]].
      exists (p :: pre), post. split; [reflexivity|]. split; [|exact Hm].
      constructor; [|exact Hpre]. exists name, uid.
      repeat split; auto; now apply not_contains.
Qed.

(** ** [cmd_switch_profile] *)
















Lemma get_remote_profiles_quiet_run (w : world) :
  exists o, get_remote_profiles w = (o, w)
            /\ forall ps, o = Ret ps ->
                 exists data, registry w = Doc data /\ profiles_of data = Ret ps.
Proof.
  unfold get_remote_profiles. rewrite bind_run. unfold load_profiles_yaml.
  destruct (registry w) as [| |data] eqn:Er.
  - eexists. split; [reflexivity | discriminate].
  - eexists. split; [reflexivity | discriminate].
  - exists (profiles_of data). split; [reflexivity|].
    intros ps H. now exists data.
Qed.

Lemma forM_print_run {A} (f : A -> message) (l : list A) (w : world) :
  forM_ l (fun a => print (f a)) w
  = (Ret tt, World (registry w) (trace w ++ map (fun a => EPrint (f a)) l)).
Proof.
  revert w. induction l as [|a l IH]; intros w; cbn [forM_ map].
  - rewrite ret_run, app_nil_r. now destruct w.
  - rewrite bind_run, print_run, IH. cbn [registry trace].
    now rewrite <- app_assoc.
Qed.

(** C5.  [cmd_switch_profile] writes nothing (the registry file is as
    before, and the trace gains neither a file write nor a call other than a
    GET) unless the query selects a profile that is not active.  When no
    profile's name or uid contains the query, letter case aside, it prints
    that the profile is not found, then one line per known profile.  When
    the selected profile is active it prints that it is already active.  In
    both cases it returns normally and does nothing else. *)
Theorem switch_profile_writes_only_on_inactive_match (E : env)
    (target : string) (w : world) :
  ((forall data ps m,
      registry w = Doc data -> profiles_of data = Ret ps ->
      selects E target ps m -> p_active m = true) ->
   registry (snd (cmd_switch_profile E target w)) = registry w
   /\ writes (trace (snd (cmd_switch_profile E target w))) = writes (trace w))
  /\ (forall data ps,
        registry w = Doc data -> profiles_of data = Ret ps ->
        Forall (no_match E target) ps ->
        cmd_switch_profile E target w
        = (Ret tt,
           World (registry w)
                 (trace w ++ EPrint (MProfileNotFound target) :: profile_lines ps)))
  /\ (forall data ps m,
        registry w = Doc data -> profiles_of data = Ret ps ->
        selects E target ps m -> p_active m = true ->
        cmd_switch_profile E target w
        = (Ret tt,
           World (registry w) (trace w ++ [EPrint (MAlreadyActive (p_name m))]))).
Proof.
  split; [|split].
  - intros Hact. unfold cmd_switch_profile. rewrite bind_run.
    destruct (get_remote_profiles_quiet_run w) as [o [Ho Hps]]. rewrite Ho.
    destruct o as [ps|e]; [|now split].
    destruct (Hps ps eq_refl) as [data [Hr Hp]].
    rewrite bind_run, lift_run.
    destruct (find_match E target ps) as [[m|]|e] eqn:Ef; [| |now split].
    + rewrite (Hact data ps m Hr Hp (find_match_selects _ _ _ _ Ef)).
      apply quiet_print.
    + apply (quiet_bind (print (MProfileNotFound target))).
      * apply quiet_print.
      * intros _. apply quiet_forM_. intros p. apply quiet_print.
  - intros data ps Hr Hp Hno. unfold cmd_switch_profile.
    rewrite bind_run, (get_remote_profiles_run w data Hr), Hp.
    rewrite bind_run, lift_run, (find_match_none _ _ _ Hno).
    rewrite bind_run, print_run, forM_print_run. cbn [registry trace].
    unfold profile_lines. now rewrite <- app_assoc.
  - intros data ps m Hr Hp Hsel Hact. unfold cmd_switch_profile.
    rewrite bind_run, (get_remote_profiles_run w data Hr), Hp.
    rewrite bind_run, lift_run, (find_match_selected _ _ _ _ Hsel), Hact.
    apply print_run.
Qed.

(** A witness for C5: on the registry of the demonstration the query "zzz"
    selects nothing and the query "HOM" selects the active profile "Home". *)
Lemma switch_profile_writes_only_on_inactive_match_witness :
  let E := Demo.install (Demo.always (URLError "down")) id in
  cmd_switch_profile E "zzz" Demo.start
  = (Ret tt,
     World (Doc Demo.registry_doc)
           [EPrint (MProfileNotFound "zzz");
            EPrint (MProfileLine (PStr "Home") (PStr "a1"));
            EPrint (MProfileLine (PStr "Work") (PStr "b2"))])
  /\ cmd_switch_profile E "HOM" Demo.start
     = (Ret tt, World (Doc Demo.registry_doc)
                      [EPrint (MAlreadyActive (PStr "Home"))])
  /\ writes (trace (snd (cmd_switch_profile E "HOM" Demo.start))) = [].
Proof.
  intros E.
  pose (home := Profile (PStr "a1") (PStr "Home") (PStr "a1.yaml") true
                        (PStr "https://example.org/sub") PNone).
  pose (work := Profile (PStr "b2") (PStr "Work") (PStr "b2.yaml") false
                        (PStr "https://example.org/sub") PNone).
  assert (Hsel : selects E "HOM" [home; work] home).
  { exists [], [work]. split; [reflexivity|]. split; [constructor|].
    exists "Home". split; [reflexivity|]. left.
    apply str_contains_spec. reflexivity. }
  destruct (switch_profile_writes_only_on_inactive_match E "zzz" Demo.start)
    as [_ [Hnf _]].
  destruct (switch_profile_writes_only_on_inactive_match E "HOM" Demo.start)
    as [Hq [_ Hact]].
  split; [|split].
  - apply (Hnf Demo.registry_doc [home; work] eq_refl eq_refl).
    repeat constructor.
    + exists "Home", "a1". repeat split; apply not_contains; reflexivity.
    + exists "Work", "b2". repeat split; apply not_contains; reflexivity.
  - exact (Hact Demo.registry_doc [home; work] home eq_refl eq_refl Hsel eq_refl).
  - apply Hq. intros data ps m Hr Hp Hm.
    injection Hr as <-. injection Hp as <-.
    apply find_match_selected in Hm. now injection Hm as <-.
Defined.

(** ** [cmd_best] *)

Lemma quiet_test_single_node_delay (E : env) (name : string) :
  quiet (test_single_node_delay E name).
Proof.
  unfold test_single_node_delay. apply quiet_bind; [apply quiet_api_get|].
  intros result. apply quiet_bind.
  - destruct (truthy result); [apply quiet_lift | apply quiet_ret].
  - intros [|]; [apply quiet_lift | apply quiet_ret].
Qed.

Lemma quiet_run_probes (E : env) (names : list string) :
  quiet (run_probes E names).
Proof.
  unfold run_probes. apply quiet_mapM. intros name.
  apply quiet_bind; [|intros; apply quiet_ret].
  apply quiet_attempt, quiet_test_single_node_delay.
Qed.

Lemma quiet_probe_group (E : env) (group : string) :
  quiet (probe_group E group).
Proof.
  unfold probe_group.
  repeat first
    [ apply quiet_api_get | apply quiet_lift | apply quiet_print
    | apply quiet_ret | apply quiet_run_probes
    | apply quiet_bind; [|intros ?]
    | match goal with |- quiet (if ?b then _ else _) => destruct b end ].
Qed.

Lemma filterO_ge0 {A} (delay : A -> pyval) (z : A -> Z) (l : list A) :
  (forall x, In x l -> num_of (delay x) = Some (z x)) ->
  filterO (fun r => py_ge (delay r) 0) l = Ret (filter (fun r => 0 <=? z r) l).
Proof.
  induction l as [|x l IH]; intros H; [reflexivity|].
  cbn [filterO filter]. unfold py_ge at 1. rewrite (H x (or_introl eq_refl)).
  cbn [obind]. rewrite IH by (intros y Hy; apply H; now right).
  reflexivity.
Qed.

Lemma best_rows_run (z : string * pyval -> Z) (rows : list (string * pyval))
    (n : nat) (w : world) :
  (forall r, In r rows -> num_of (snd r) = Some (z r)) ->
  exists msgs,
    forM_ (enumerate n rows) print_best_row w
    = (Ret tt, World (registry w) (trace w ++ map EPrint msgs)).
Proof.
  revert n w. induction rows as [|[name delay] rows IH]; intros n w H.
  - exists []. cbn [enumerate forM_ map]. rewrite ret_run, app_nil_r.
    now destruct w.
  - cbn [enumerate forM_]. rewrite bind_run. unfold print_best_row at 1.
    rewrite bind_run, lift_run. unfold py_ge.
    pose proof (H (name, delay) (or_introl eq_refl)) as Hn.
    cbn [snd] in Hn. rewrite Hn, print_run.
    destruct (IH (S n) (World (registry w)
                (trace w ++ [EPrint (if 0 <=? z (name, delay)
                                     then MBestRow n name delay
                                     else MBestRowTimeout n name)])))
      as [msgs Hm].
    { intros r Hr. apply H. now right. }
    rewrite Hm. cbn [registry trace]. eexists (_ :: msgs).
    cbn [map]. now rewrite <- app_assoc.
Qed.

Lemma sorted_filter_head {A} (R : A -> A -> Prop) (f : A -> bool)
    (l t : list A) (h : A) :
  StronglySorted R l -> filter f l = h :: t ->
  In h l /\ f h = true /\ forall x, In x l -> f x = true -> x = h \/ R h x.
Proof.
  induction 1 as [|a l Hs IH Ha]; [discriminate|].
  cbn [filter]. destruct (f a) eqn:Efa.
  - intros H. injection H as -> _. split; [now left|]. split; [exact Efa|].
    intros x [->|Hx] _; [now left|]. right.
    rewrite Forall_forall in Ha. now apply Ha.
  - intros H. destruct (IH H) as [H1 [H2 H3]]. split; [now right|].
    split; [exact H2|]. intros x [->|Hx] Hfx; [congruence|]. now apply H3.
Qed.

Lemma select_best_run (E : env) (group : string)
    (results : list (string * pyval)) (z : string * pyval -> Z) (w : world) :
  (forall r, In r results -> num_of (snd r) = Some (z r)) ->
  exists out rows,
    Permutation results out
    /\ StronglySorted (fun a b => ranked (z a) (z b)) out
    /\ select_best E group results w
       = match filter (fun r => 0 <=? z r) out with
         | (best_name, best_delay) :: _ =>
             print (MBest best_name best_delay) ;;
             result <- api_request E ("/proxies/" ++ quote group) "PUT"
                         (PDict [("name", PStr best_name)]) ;;
             match result with
             | PNone => print (MSwitched group best_name)
             | _ => print (MErrorSwitching result)
             end
         | [] => print MNoAvailable
         end (World (registry w) (trace w ++ map EPrint rows)).
Proof.
  intros H.
  destruct (sort_by_delay_sorted snd z results H) as [out [Hsort [Hp [Hs _]]]].
  assert (Hout : forall r, In r out -> num_of (snd r) = Some (z r)).
  { intros r Hr. apply H. now apply (Permutation_in _ (Permutation_sym Hp)). }
  destruct (best_rows_run z (firstn 10 out) 1 w) as [rows Hrows].
  { intros r Hr. apply Hout. rewrite <- (firstn_skipn 10 out).
    apply in_or_app. now left. }
  exists out, rows. split; [exact Hp|]. split; [exact Hs|].
  unfold select_best. rewrite bind_run, lift_run, Hsort.
  rewrite bind_run, lift_run, (filterO_ge0 snd z out Hout).
  rewrite bind_run, Hrows. reflexivity.
Qed.

Lemma writes_prints (msgs : list message) : writes (map EPrint msgs) = [].
Proof. induction msgs as [|m msgs IH]; [reflexivity | exact IH]. Qed.

Lemma filter_none {A} (f : A -> bool) (l : list A) :
  (forall x, In x l -> f x = false) -> filter f l = [].
Proof.
  induction l as [|a l IH]; intros H; [reflexivity|].
  cbn [filter]. rewrite (H a (or_introl eq_refl)).
  apply IH. intros x Hx. apply H. now right.
Qed.

Lemma probe_group_builds (E : env) (group : string) (w w1 : world)
    (round : option (list (string * pyval))) :
  probe_group E group w = (Ret round, w1) -> request_builds E = true.
Proof.
  destruct (request_builds E) eqn:Eb; [reflexivity|].
  unfold probe_group, api_get. rewrite bind_run.
  rewrite (api_request_unbuilt E _ _ _ w Eb). discriminate.
Qed.

(** C8.  Take a round of [cmd_best] that has collected [results], all of
    them numbers.  If none is available (every delay is negative) the
    command prints the ranking and that no node is available, returns, and
    has written nothing.  If one is available, the only write of the whole
    run is one call that sets the group to a node [best] whose collected
    delay is at least 0 and at most the delay of every available result: a
    node with a negative delay is never selected. *)
Theorem best_switches_once_to_fastest (E : env) (group : string)
    (w w1 : world) (results : list (string * pyval))
    (z : string * pyval -> Z) :
  probe_group E group w = (Ret (Some results), w1) ->
  (forall r, In r results -> num_of (snd r) = Some (z r)) ->
  ((forall r, In r results -> z r < 0) ->
   exists rows,
     cmd_best E group w
     = (Ret tt,
        World (registry w)
              ((trace w1 ++ map EPrint rows) ++ [EPrint MNoAvailable]))
     /\ writes (trace (snd (cmd_best E group w))) = writes (trace w))
  /\ ((exists r, In r results /\ 0 <= z r) ->
      exists best d rows tail,
        In (best, d) results
        /\ 0 <= z (best, d)
        /\ (forall r, In r results -> 0 <= z r -> z (best, d) <= z r)
        /\ trace (snd (cmd_best E group w))
           = ((trace w1 ++ map EPrint rows)
              ++ EPrint (MBest best d) :: EApi (select_call group best)
                 :: map EPrint tail)%list
        /\ registry (snd (cmd_best E group w)) = registry w
        /\ writes (trace (snd (cmd_best E group w)))
           = (writes (trace w) ++ [EApi (select_call group best)])%list).
Proof.
  intros Hprobe Hnum.
  pose proof (probe_group_builds E group w w1 _ Hprobe) as Hb.
  destruct (quiet_probe_group E group w) as [Hreg Hwr].
  rewrite Hprobe in Hreg, Hwr. cbn [snd] in Hreg, Hwr.
  assert (Hcmd : cmd_best E group w = select_best E group results w1).
  { unfold cmd_best. now rewrite bind_run, Hprobe. }
  rewrite Hcmd.
  destruct (select_best_run E group results z w1 Hnum)
    as [out [rows [Hp [Hs Hrun]]]].
  rewrite Hrun. split.
  - intros Hneg. exists rows.
    rewrite filter_none.
    + rewrite print_run. cbn [registry trace snd]. rewrite Hreg.
      split; [reflexivity|].
      now rewrite !writes_app, writes_prints, Hwr, !app_nil_r.
    + intros x Hx. apply Z.leb_gt. apply Hneg.
      now apply (Permutation_in _ (Permutation_sym Hp)).
  - intros [r [Hr Hzr]].
    destruct (filter (fun r => 0 <=? z r) out) as [|[best d] t] eqn:Ef.
    + exfalso. assert (Hin : In r (filter (fun r => 0 <=? z r) out)).
      { apply filter_In. split; [now apply (Permutation_in _ Hp)|].
        now apply Z.leb_le. }
      now rewrite Ef in Hin.
    + destruct (sorted_filter_head _ _ _ _ _ Hs Ef) as [Hin [Hge Hmin]].
      apply Z.leb_le in Hge.
      assert (Hbest : forall x, In x results -> 0 <= z x -> z (best, d) <= z x).
      { intros x Hx Hzx.
        destruct (Hmin x (Permutation_in _ Hp Hx)) as [->|Hrk];
          [now apply Z.leb_le | lia |].
        unfold ranked in Hrk. lia. }
      rewrite bind_run, print_run, bind_run.
      rewrite (api_request_run E _ _ _ _ Hb).
      cbn [request_body truthy registry trace]. fold (select_call group best).
      destruct (api_result _) as [v|e].
      * exists best, d, rows,
          [match v with
           | PNone => MSwitched group best
           | _ => MErrorSwitching v
           end].
        split; [now apply (Permutation_in _ (Permutation_sym Hp))|].
        split; [exact Hge|]. split; [exact Hbest|].
        assert (Hv : match v with
                     | PNone => print (MSwitched group best)
                     | _ => print (MErrorSwitching v)
                     end
                     = print (match v with
                              | PNone => MSwitched group best
                              | _ => MErrorSwitching v
                              end)) by now destruct v.
        rewrite Hv, print_run. cbn [snd registry trace map].
        split; [now rewrite <- !app_assoc|]. split; [exact Hreg|].
        rewrite !writes_app, writes_prints, Hwr. cbn.
        now rewrite !app_nil_r.
      * exists best, d, rows, [].
        split; [now apply (Permutation_in _ (Permutation_sym Hp))|].
        split; [exact Hge|]. split; [exact Hbest|].
        cbn [snd registry trace map].
        split; [now rewrite <- !app_assoc|]. split; [exact Hreg|].
        rewrite !writes_app, writes_prints, Hwr. cbn.
        now rewrite !app_nil_r.
Qed.

(** A witness for C8: with two nodes at 80 ms the run makes one write, a
    switch of the group; with no node in time it makes none and says so. *)
Lemma best_switches_once_to_fastest_witness :
  (exists best,
     writes (trace (snd (cmd_best (Demo.install Demo.tied_daemon id)
                                  "Proxies" Demo.start)))
     = [EApi (select_call "Proxies" best)])
  /\ writes (trace (snd (cmd_best (Demo.install Demo.dead_daemon id)
                                  "Proxies" Demo.start))) = [].
Proof.
  split.
  - destruct (best_switches_once_to_fastest
                (Demo.install Demo.tied_daemon id) "Proxies" Demo.start
                (snd (probe_group (Demo.install Demo.tied_daemon id)
                                  "Proxies" Demo.start))
                [("N1", PInt 80); ("N2", PInt (-1)); ("N3", PInt 80);
                 ("Ghost", PInt (-1))]
                Demo.delay_number) as [_ H].
    + reflexivity.
    + intros r [<-|[<-|[<-|[<-|[]]]]]; reflexivity.
    + destruct H as [best [d [rows [tail [_ [_ [_ [_ [_ H]]]]]]]]].
      * exists ("N1", PInt 80). split; [simpl; tauto | vm_compute; discriminate].
      * exists best. exact H.
  - destruct (best_switches_once_to_fastest
                (Demo.install Demo.dead_daemon id) "Proxies" Demo.start
                (snd (probe_group (Demo.install Demo.dead_daemon id)
                                  "Proxies" Demo.start))
                [("N1", PInt (-1)); ("N2", PInt (-1)); ("N3", PInt (-1));
                 ("Ghost", PInt (-1))]
                Demo.delay_number) as [H _].
    + reflexivity.
    + intros r [<-|[<-|[<-|[<-|[]]]]]; reflexivity.
    + destruct H as [rows [_ H]].
      * intros r [<-|[<-|[<-|[<-|[]]]]]; reflexivity.
      * exact H.
Defined.

(** ** A probe that raises *)

(** C2 fails on the code.  One probe of three is answered with a JSON
    number.  [test_single_node_delay] raises on it ("delay" in 1), the
    exception leaves the collecting loop of [cmd_test] and of [cmd_best],
    and the delays of the two other nodes are never shown: the run ends in
    [TypeError] right after the probes. *)
Lemma probe_fault_aborts_round :
  let E := Demo.install Demo.odd_daemon id in
  fst (test_single_node_delay E "N2" Demo.start) = Raise TypeError
  /\ fst (cmd_test E Demo.start) = Raise TypeError
  /\ printed (trace (snd (cmd_test E Demo.start)))
     = [MTesting 3 (PStr "Home")]
  /\ fst (cmd_best E "Proxies" Demo.start) = Raise TypeError
  /\ printed (trace (snd (cmd_best E "Proxies" Demo.start)))
     = [MTestingGroup 4 "Proxies"].
Proof. repeat split; vm_compute; reflexivity. Qed.

(** ** A round whose probes are all answered *)

Lemma test_single_node_delay_value (E : env) (name : string) (w : world) :
  answers_probe (daemon E (trace w) (probe_request name)) ->
  exists v, fst (test_single_node_delay E name w) = Ret v.
Proof.
  intros Ha.
  assert (Hr : exists result,
             api_result (daemon E (trace w) (probe_request name)) = Ret result
             /\ (truthy result = false \/ exists d, result = PDict d)).
  { destruct (daemon E (trace w) (probe_request name))
      as [status [msg|v] | code [text|] | reason | code e |];
      cbn [api_result].
    - destruct (status =? 204); eexists; split; eauto.
    - destruct (Z.eqb_spec status 204) as [Hs|Hs].
      + eexists. split; [reflexivity | now left].
      + exists v. split; [reflexivity|]. cbn in Ha. tauto.
    - eexists. split; eauto.
    - contradiction.
    - eexists. split; eauto.
    - contradiction.
    - contradiction. }
  destruct Hr as [result [Hr Hres]].
  unfold test_single_node_delay, api_get. rewrite bind_run.
  rewrite (api_request_ret E _ _ _ w result) by exact Hr. rewrite bind_run.
  destruct Hres as [Hf | [d ->]].
  - rewrite Hf, ret_run, ret_run. now eexists.
  - destruct (truthy (PDict d)).
    + rewrite lift_run. cbn [py_in]. destruct (assoc "delay" d) as [v|] eqn:Ed.
      * rewrite lift_run. cbn [py_getitem]. rewrite Ed. now exists v.
      * rewrite ret_run. now eexists.
    + rewrite ret_run, ret_run. now eexists.
Qed.

(** When the daemon gives every probe such an answer, every probe of the
    round returns a delay, the loop of [cmd_best] collects one result per
    submitted probe, and it collects them in the order of completion. *)
Lemma probe_round_complete (E : env) (names : list string) (w : world) :
  (forall history name, answers_probe (daemon E history (probe_request name))) ->
  exists done results,
    fst (run_probes E names w) = Ret done
    /\ collect_best done = Ret results
    /\ map fst results = schedule E names.
Proof.
  intros Ha. unfold run_probes.
  generalize (schedule E names) as l. intros l. revert w.
  induction l as [|n l IH]; intros w.
  - exists [], []. now repeat split.
  - destruct (test_single_node_delay_value E n w (Ha _ _)) as [v Hv].
    destruct (test_single_node_delay_run E n w) as [o Ho].
    rewrite Ho in Hv. cbn [fst] in Hv. subst o.
    destruct (IH (World (registry w) (trace w ++ sent E [probe_call n])))
      as [done [results [Hd [Hc Hn]]]].
    exists ((n, Ret v) :: done), ((n, v) :: results).
    cbn [mapM]. rewrite !bind_run. unfold attempt at 1. rewrite Ho.
    rewrite ret_run, bind_run.
    destruct (mapM _ l _) as [o w']. cbn [fst] in Hd. subst o.
    rewrite ret_run. split; [reflexivity|]. split.
    + cbn [collect_best obind]. now rewrite Hc.
    + cbn [map fst]. now rewrite Hn.
Qed.

(** * Further properties of the script *)

(** ** The paths of the calls *)

Lemma unquote_quote (s : string) : unquote (quote s) = s.
Proof.
  induction s as [|c s IH]; [reflexivity|].
  destruct c as [[|] [|] [|] [|] [|] [|] [|] [|]];
    cbn; rewrite IH; reflexivity.
Qed.

Lemma quote_injective (a b : string) : quote a = quote b -> a = b.
Proof.
  intros H. rewrite <- (unquote_quote a), <- (unquote_quote b).
  now rewrite H.
Qed.

Lemma append_length (a b : string) :
  String.length (a ++ b) = (String.length a + String.length b)%nat.
Proof. induction a as [|c a IH]; cbn; [reflexivity | now rewrite IH]. Qed.

Lemma append_inv_tail (a b s : string) : a ++ s = b ++ s -> a = b.
Proof.
  revert b. induction a as [|c a IH]; intros [|d b] H; cbn in H.
  - reflexivity.
  - apply (f_equal String.length) in H. cbn in H.
    rewrite append_length in H. lia.
  - apply (f_equal String.length) in H. cbn in H.
    rewrite append_length in H. lia.
  - injection H as -> H. f_equal. now apply IH.
Qed.

Lemma append_inv_head (a x y : string) : a ++ x = a ++ y -> x = y.
Proof.
  induction a as [|c a IH]; cbn; intros H; [exact H|].
  injection H as H. now apply IH.
Qed.

Lemma quote_chars (s : string) (c : ascii) :
  In c (list_ascii_of_string (quote s)) ->
  is_unreserved c = true \/ c = "%"%char.
Proof.
  induction s as [|d s IH]; [intros []|].
  destruct d as [[|] [|] [|] [|] [|] [|] [|] [|]]; cbn;
    intros H; repeat (destruct H as [<-|H]; [auto|]); auto.
Qed.

(** X1.  The path of a delay probe keeps node names apart and keeps them in
    their segment: two names that give the same path are the same name, and
    the part written for the name holds only letters, digits, [_.-~] and
    percent signs, so a name with a slash or a question mark adds no segment
    and no query to the path. *)
Theorem delay_path_separates_names (a b : string) (timeout : Z)
    (test_url : string) :
  (delay_path a timeout test_url = delay_path b timeout test_url -> a = b)
  /\ (forall c, In c (list_ascii_of_string (quote a)) ->
                is_unreserved c = true \/ c = "%"%char)
  /\ exists rest, delay_path a timeout test_url
                  = "/proxies/" ++ quote a ++ "/delay?" ++ rest.
Proof.
  split; [|split].
  - unfold delay_path. intros H.
    apply append_inv_head, append_inv_tail in H. now apply quote_injective.
  - apply quote_chars.
  - eexists. unfold delay_path. reflexivity.
Qed.

(** ** One probe *)

Lemma probe_run (E : env) (name : string) (w : world) (result : pyval) :
  api_result (daemon E (trace w) (probe_request name)) = Ret result ->
  test_single_node_delay E name w
  = match (if truthy result then py_in "delay" result else Ret false) with
    | Ret true =>
        (py_getitem result "delay",
         World (registry w) (trace w ++ [probe_call name]))
    | Ret false =>
        (Ret (PInt (-1)), World (registry w) (trace w ++ [probe_call name]))
    | Raise e => (Raise e, World (registry w) (trace w ++ [probe_call name]))
    end.
Proof.
  intros Hres. unfold test_single_node_delay, api_get.
  rewrite bind_run, (api_request_ret E _ _ _ w result) by exact Hres.
  cbn [request_body truthy]. fold (probe_request name).
  fold (probe_call name).
  rewrite bind_run. destruct (truthy result).
  - rewrite lift_run. destruct (py_in "delay" result) as [[|]|e];
      reflexivity.
  - reflexivity.
Qed.

Lemma probe_run_failed (E : env) (name : string) (w : world) :
  let r := daemon E (trace w) (probe_request name) in
  (failed_call r /\ (forall code, r <> HTTPError code None))
  \/ (exists b, r = Response 204 b) ->
  test_single_node_delay E name w
  = (Ret (PInt (-1)), World (registry w) (trace w ++ [probe_call name])).
Proof.
  intros r [[Hf Hn] | [b Hb]].
  - subst r.
    destruct (daemon E (trace w) (probe_request name))
      as [status [msg|v] | code [text|] | reason | code e |] eqn:Er;
      cbn in Hf.
    + rewrite (probe_run E name w (PDict [("error", PStr msg)])); [reflexivity|].
      rewrite Er. cbn. now destruct (Z.eqb_spec status 204).
    + contradiction.
    + rewrite (probe_run E name w
                 (PDict [("error", PInt code); ("message", PStr text)]));
        [reflexivity | now rewrite Er].
    + exfalso. now apply (Hn code).
    + rewrite (probe_run E name w (PDict [("error", PStr reason)]));
        [reflexivity | now rewrite Er].
    + contradiction.
    + contradiction.
  - subst r. rewrite (probe_run E name w PNone); [reflexivity|]. now rewrite Hb.
Qed.

Lemma probe_run_object (E : env) (name : string) (w : world) (status : Z)
    (d : list (string * pyval)) :
  daemon E (trace w) (probe_request name) = Response status (Json (PDict d)) ->
  status <> 204 ->
  test_single_node_delay E name w
  = (Ret (match assoc "delay" d with
          | Some v => v
          | None => PInt (-1)
          end),
     World (registry w) (trace w ++ [probe_call name])).
Proof.
  intros Hr Hs. rewrite (probe_run E name w (PDict d)).
  - cbn [py_in py_getitem]. destruct d as [|kv d]; [reflexivity|].
    cbn [truthy]. now destruct (assoc "delay" (kv :: d)).
  - rewrite Hr. cbn. now destruct (Z.eqb_spec status 204).
Qed.

(** X2.  A probe makes exactly one call, and every call that fails gives
    the delay -1: a failed connection, a status outside 2xx whose body is
    text, a success whose body cannot be decoded, and also a 204.  A JSON
    object gives its ["delay"] member, or -1 when it has none. *)
Theorem failed_probe_is_unreachable (E : env) (name : string) (w : world) :
  let r := daemon E (trace w) (probe_request name) in
  let after := World (registry w) (trace w ++ [probe_call name]) in
  ((failed_call r /\ (forall code, r <> HTTPError code None))
   \/ (exists b, r = Response 204 b) ->
   test_single_node_delay E name w = (Ret (PInt (-1)), after))
  /\ (forall status d,
        r = Response status (Json (PDict d)) -> status <> 204 ->
        test_single_node_delay E name w
        = (Ret (match assoc "delay" d with
                | Some v => v
                | None => PInt (-1)
                end), after)).
Proof.
  intros r after. split.
  - apply probe_run_failed.
  - intros status d. apply probe_run_object.
Qed.

(** A witness for X2: a probe that times out with a 504. *)
Lemma failed_probe_is_unreachable_witness :
  test_single_node_delay (Demo.install (Demo.always Demo.delay_timeout) id)
                         "N2" Demo.start
  = (Ret (PInt (-1)), World (Doc Demo.registry_doc) [probe_call "N2"]).
Proof.
  destruct (failed_probe_is_unreachable
              (Demo.install (Demo.always Demo.delay_timeout) id)
              "N2" Demo.start) as [H _].
  apply H. left. split; [exact I | intros code; discriminate].
Defined.

(** X3.  When the daemon gives every probe an answer that is a failure with
    a text body, a 204, or a body that is falsy or a JSON object, every probe
    of the round returns, the collecting loop returns one result per
    completed probe in the order of completion, and so as many results as
    names were submitted. *)
Theorem round_collects_one_result_each (E : env) (names : list string)
    (w : world) :
  (forall history name, answers_probe (daemon E history (probe_request name))) ->
  exists done results,
    fst (run_probes E names w) = Ret done
    /\ collect_best done = Ret results
    /\ map fst results = schedule E names
    /\ (Permutation (schedule E names) names ->
        List.length results = List.length names).
Proof.
  intros Ha.
  destruct (probe_round_complete E names w Ha) as [done [results [H1 [H2 H3]]]].
  exists done, results. repeat split; auto.
  intros Hp. rewrite <- (Permutation_length Hp), <- H3. symmetry.
  apply length_map.
Qed.

(** A witness for X3: three probes, each answered with a delay, completing
    in reverse order. *)
Lemma round_collects_one_result_each_witness :
  exists done results,
    fst (run_probes (Demo.install (Demo.always (Demo.delay_ok 5)) (@rev string))
                    ["N1"; "N2"; "N3"] Demo.start) = Ret done
    /\ collect_best done = Ret results
    /\ map fst results = ["N3"; "N2"; "N1"].
Proof.
  destruct (round_collects_one_result_each
              (Demo.install (Demo.always (Demo.delay_ok 5)) (@rev string))
              ["N1"; "N2"; "N3"] Demo.start) as [done [results [H1 [H2 [H3 _]]]]].
  - intros history name. right. right. now eexists.
  - now exists done, results.
Defined.

(** ** The ranking *)

Lemma ranked_antisym (a b : Z) : ranked a b -> ranked b a -> a = b.
Proof. unfold ranked. lia. Qed.

Lemma NoDup_map_eq {A B} (f : A -> B) (l : list A) (x y : A) :
  NoDup (map f l) -> In x l -> In y l -> f x = f y -> x = y.
Proof.
  induction l as [|a l IH]; [intros _ []|].
  cbn [map]. intros Hnd Hx Hy Hf. inversion Hnd as [|? ? Hna Hnd']; subst.
  destruct Hx as [->|Hx], Hy as [->|Hy].
  - reflexivity.
  - exfalso. apply Hna. rewrite Hf. now apply in_map.
  - exfalso. apply Hna. rewrite <- Hf. now apply in_map.
  - now apply IH.
Qed.

Lemma sorted_perm_unique {A} (R : A -> A -> Prop) (l1 l2 : list A) :
  (forall x y, In x l1 -> In y l1 -> R x y -> R y x -> x = y) ->
  StronglySorted R l1 -> StronglySorted R l2 -> Permutation l1 l2 ->
  l1 = l2.
Proof.
  revert l2. induction l1 as [|a l1 IH]; intros l2 Hanti H1 H2 Hp.
  - apply Permutation_nil in Hp. now subst.
  - destruct l2 as [|b l2].
    { apply Permutation_sym, Permutation_nil in Hp. discriminate. }
    inversion H1 as [|? ? Hs1 Hf1]; subst.
    inversion H2 as [|? ? Hs2 Hf2]; subst.
    rewrite Forall_forall in Hf1, Hf2.
    assert (Hab : a = b).
    { assert (Ha : In a (b :: l2)) by (apply (Permutation_in _ Hp); now left).
      assert (Hb : In b (a :: l1))
        by (apply (Permutation_in _ (Permutation_sym Hp)); now left).
      destruct Ha as [Ha|Ha]; [now subst|].
      destruct Hb as [Hb|Hb]; [now subst|].
      apply Hanti; [now left | now right | now apply Hf1 | now apply Hf2]. }
    subst b. f_equal. apply IH; auto.
    + intros x y Hx Hy. apply Hanti; now right.
    + now apply Permutation_cons_inv in Hp.
Qed.

(** X4.  When the collected delays are numbers and no two of them are
    equal, the ranking does not depend on the order in which the probes
    completed: two collections of the same results rank alike. *)
Theorem ranking_ignores_completion_order {A : Type} (delay : A -> pyval)
    (z : A -> Z) (l1 l2 : list A) :
  Permutation l1 l2 ->
  (forall x, In x l1 -> num_of (delay x) = Some (z x)) ->
  NoDup (map z l1) ->
  sort_by_delay delay l1 = sort_by_delay delay l2.
Proof.
  intros Hp Hnum Hnd.
  assert (Hnum2 : forall x, In x l2 -> num_of (delay x) = Some (z x)).
  { intros x Hx. apply Hnum. now apply (Permutation_in _ (Permutation_sym Hp)). }
  destruct (sort_by_delay_sorted delay z l1 Hnum) as [o1 [E1 [P1 [S1 _]]]].
  destruct (sort_by_delay_sorted delay z l2 Hnum2) as [o2 [E2 [P2 [S2 _]]]].
  rewrite E1, E2. f_equal.
  apply (sorted_perm_unique (fun a b => ranked (z a) (z b))); auto.
  - intros x y Hx Hy Hxy Hyx.
    apply (NoDup_map_eq z l1); auto.
    + now apply (Permutation_in _ (Permutation_sym P1)).
    + now apply (Permutation_in _ (Permutation_sym P1)).
    + now apply ranked_antisym.
  - rewrite <- P1, Hp. exact P2.
Qed.

(** A witness for X4: three results with the delays 120, -1 and 80, collected
    in two orders. *)
Lemma ranking_ignores_completion_order_witness :
  sort_by_delay snd [("N1", PInt 120); ("N2", PInt (-1)); ("N3", PInt 80)]
  = sort_by_delay snd [("N3", PInt 80); ("N2", PInt (-1)); ("N1", PInt 120)].
Proof.
  apply (ranking_ignores_completion_order snd Demo.delay_number).
  - apply Permutation_rev.
  - intros x [<-|[<-|[<-|[]]]]; reflexivity.
  - repeat constructor; cbn; intuition discriminate.
Defined.

Lemma mapO_raise {A B} (f : A -> outcome B) (l : list A) (e : exn) :
  (forall x, In x l -> f x = Raise e \/ exists b, f x = Ret b) ->
  (exists x, In x l /\ f x = Raise e) ->
  mapO f l = Raise e.
Proof.
  induction l as [|a l IH]; intros Hall [x [Hx Hfx]]; [contradiction|].
  cbn [mapO]. destruct (Hall a (or_introl eq_refl)) as [Ha | [b Ha]];
    rewrite Ha; [reflexivity|]. cbn [obind].
  destruct Hx as [->|Hx]; [congruence|].
  rewrite IH; [reflexivity | | now exists x].
  intros y Hy. apply Hall. now right.
Qed.

(** X5.  The ranking raises [TypeError] exactly when some collected delay is
    not a number (a string, a list, an object or null), even when it is the
    only result; otherwise it returns. *)
Theorem ranking_raises_on_non_number {A : Type} (delay : A -> pyval)
    (l : list A) :
  sort_by_delay delay l = Raise TypeError
  <-> exists x, In x l /\ num_of (delay x) = None.
Proof.
  split.
  - intros H. induction l as [|a l IH]; [discriminate|].
    destruct (num_of (delay a)) as [n|] eqn:Ea; [|exists a; split; [now left | exact Ea]].
    destruct IH as [x [Hx Hn]]; [|exists x; split; [now right | exact Hn]].
    unfold sort_by_delay in *. cbn [mapO] in H. unfold sort_key at 1 in H.
    rewrite Ea in H. cbn [obind] in H.
    destruct (mapO _ l) as [k|e]; [discriminate|].
    cbn [obind] in *. exact H.
  - intros Hex. unfold sort_by_delay.
    rewrite (mapO_raise _ l TypeError); [reflexivity | |].
    + intros x _. unfold sort_key. destruct (num_of (delay x)); cbn; eauto.
    + destruct Hex as [x [Hx Hn]]. exists x. split; [exact Hx|].
      unfold sort_key. now rewrite Hn.
Qed.

(** ** What [cmd_test] never does, and what a failed listing does to it *)

Ltac quiet_steps :=
  repeat first
    [ apply quiet_api_get | apply quiet_lift | apply quiet_print
    | apply quiet_ret | apply quiet_raise | apply quiet_run_probes
    | apply quiet_get_remote_profiles
    | apply quiet_forM_; intros ?
    | apply quiet_bind; [|intros ?]
    | match goal with
      | |- quiet (if ?b then _ else _) => destruct b
      | |- quiet (match ?x with _ => _ end) => destruct x
      | |- quiet (let '(_, _) := ?x in _) => destruct x
      end ].

Lemma quiet_print_test_row (row : nat * (string * pyval * pyval)) :
  quiet (print_test_row row).
Proof.
  destruct row as [i [[name ntype] delay]]. unfold print_test_row.
  quiet_steps.
Qed.

(** X6.  [cmd_test] only looks: whatever the registry holds and whatever the
    daemon answers, and also when the run ends in an exception, the registry
    file is as before and the run has made no call other than GET. *)
Theorem cmd_test_writes_nothing (E : env) (w : world) :
  registry (snd (cmd_test E w)) = registry w
  /\ writes (trace (snd (cmd_test E w))) = writes (trace w).
Proof.
  revert w. change (quiet (cmd_test E)). unfold cmd_test.
  apply quiet_bind; [apply quiet_get_remote_profiles | intros profiles].
  destruct (find p_active profiles) as [active|]; [|apply quiet_print].
  apply quiet_bind; [apply quiet_api_get | intros result].
  apply quiet_bind; [apply quiet_lift | intros failed].
  destruct failed; [apply quiet_print|].
  apply quiet_bind; [apply quiet_lift | intros proxies].
  apply quiet_bind; [apply quiet_lift | intros items].
  apply quiet_bind; [apply quiet_lift | intros real_nodes].
  apply quiet_bind; [apply quiet_print | intros _].
  apply quiet_bind; [apply quiet_run_probes | intros done].
  apply quiet_bind; [apply quiet_lift | intros results].
  apply quiet_bind; [apply quiet_lift | intros sorted].
  apply quiet_bind; [apply quiet_print | intros _].
  apply quiet_bind; [apply quiet_print | intros _].
  apply quiet_bind;
    [apply quiet_forM_; intros row; apply quiet_print_test_row | intros _].
  apply quiet_bind; [apply quiet_lift | intros available].
  apply quiet_bind; [apply quiet_print | intros _].
  destruct available as [|[[name ntype] delay] rest]; apply quiet_print.
Qed.

Lemma api_result_envelope (r : http_result) (v : pyval) :
  envelope_of r = Some v ->
  api_result r = Ret v /\ truthy v = true /\ py_in "proxies" v = Ret false
  /\ py_getitem v "proxies" = Raise KeyError
  /\ py_in "all" v = Ret false /\ py_in "delay" v = Ret false.
Proof.
  destruct r as [status [msg|u] | code [text|] | reason | code e |]; cbn;
    try discriminate.
  - destruct (status =? 204); [discriminate|].
    intros H. injection H as <-. now repeat split.
  - intros H. injection H as <-. now repeat split.
  - intros H. injection H as <-. now repeat split.
Qed.

Lemma envelope_of_dict (r : http_result) (v : pyval) :
  envelope_of r = Some v -> exists d, v = PDict d.
Proof.
  destruct r as [status [msg|u] | code [text|] | reason | code e |]; cbn;
    try discriminate.
  - destruct (status =? 204); [discriminate|]. intros H. injection H as <-. eauto.
  - intros H. injection H as <-. eauto.
  - intros H. injection H as <-. eauto.
Qed.

(** X7.  The guard of [cmd_test] does not catch a listing call that failed:
    with an active profile, when the call fails (no connection, a status
    outside 2xx with a text body, an undecodable body), the command makes
    that one call and raises [KeyError]; it prints no error message. *)
Theorem cmd_test_raises_on_failed_listing (E : env) (w : world) (v : pyval) :
  has_active_profile w ->
  envelope_of (daemon E (trace w) LIST_PROXIES) = Some v ->
  cmd_test E w
  = (Raise KeyError, World (registry w) (trace w ++ [EApi LIST_PROXIES])).
Proof.
  intros [data [ps [a [Hr [Hp Ha]]]]] Hv.
  destruct (api_result_envelope _ _ Hv) as [Hres [Ht [Hin [Hget _]]]].
  unfold cmd_test. rewrite bind_run, (get_remote_profiles_run w data Hr), Hp.
  rewrite Ha, bind_run. unfold api_get.
  rewrite (api_request_ret E _ _ _ w v) by exact Hres.
  cbn [request_body truthy]. fold LIST_PROXIES.
  rewrite bind_run, lift_run. unfold fetch_failed. rewrite Ht. cbn [negb].
  rewrite Hin. cbn [obind]. rewrite bind_run, lift_run, Hget. reflexivity.
Qed.

(** A witness for X7: the daemon refuses the connection. *)
Lemma cmd_test_raises_on_failed_listing_witness :
  cmd_test (Demo.install (Demo.always (URLError "refused")) id) Demo.start
  = (Raise KeyError, World (Doc Demo.registry_doc) [EApi LIST_PROXIES]).
Proof.
  apply (cmd_test_raises_on_failed_listing
           (Demo.install (Demo.always (URLError "refused")) id) Demo.start
           (PDict [("error", PStr "refused")])).
  - eexists. eexists. eexists. split; [reflexivity|]. split; reflexivity.
  - reflexivity.
Defined.

(** ** What [cmd_best] writes at most *)

Lemma quiet_at_most {A} (P : event -> Prop) (m : M A) :
  quiet m -> at_most_one_write P m.
Proof. intros H w. destruct (H w) as [H1 H2]. split; [exact H1 | now left]. Qed.

Lemma at_most_bind {A B} (P : event -> Prop) (m : M A) (k : A -> M B) :
  quiet m -> (forall a, at_most_one_write P (k a)) ->
  at_most_one_write P (bind m k).
Proof.
  intros Hm Hk w. rewrite bind_run. destruct (Hm w) as [H1 H2].
  destruct (m w) as [[a|e] w1]; cbn [snd] in *.
  - destruct (Hk a w1) as [H3 H4]. rewrite H1, H2 in *. now split.
  - split; [exact H1 | now left].
Qed.

Lemma quiet_print_best_row (row : nat * (string * pyval)) :
  quiet (print_best_row row).
Proof.
  destruct row as [i [name delay]]. unfold print_best_row. quiet_steps.
Qed.

Lemma select_best_at_most (E : env) (group : string)
    (results : list (string * pyval)) :
  at_most_one_write (fun e => exists best, e = EApi (select_call group best))
                    (select_best E group results).
Proof.
  unfold select_best.
  apply at_most_bind; [apply quiet_lift | intros sorted].
  apply at_most_bind; [apply quiet_lift | intros available].
  apply at_most_bind;
    [apply quiet_forM_; intros row; apply quiet_print_best_row | intros _].
  destruct available as [|[best d] rest];
    [apply quiet_at_most, quiet_print|].
  intros w. rewrite bind_run, print_run, bind_run.
  destruct (request_builds E) eqn:Eb.
  2:{ rewrite (api_request_unbuilt E _ _ _ _ Eb). cbn [snd registry trace].
      split; [reflexivity|]. left. rewrite writes_app. cbn.
      apply app_nil_r. }
  rewrite (api_request_run E _ _ _ _ Eb).
  cbn [request_body truthy registry trace]. fold (select_call group best).
  assert (Hw : writes ((trace w ++ [EPrint (MBest best d)])
                       ++ [EApi (select_call group best)])
               = (writes (trace w) ++ [EApi (select_call group best)])%list).
  { rewrite !writes_app. cbn. now rewrite app_nil_r. }
  destruct (api_result _) as [v|e].
  - assert (Hv : match v with
                 | PNone => print (MSwitched group best)
                 | _ => print (MErrorSwitching v)
                 end
                 = print (match v with
                          | PNone => MSwitched group best
                          | _ => MErrorSwitching v
                          end)) by now destruct v.
    rewrite Hv, print_run. cbn [snd registry trace].
    split; [reflexivity|]. right. eexists. split; [now exists best|].
    rewrite writes_app, Hw. cbn. now rewrite app_nil_r.
  - cbn [snd registry trace]. split; [reflexivity|]. right.
    eexists. split; [now exists best | exact Hw].
Qed.

(** X8.  Whatever the daemon answers and however the run ends, [cmd_best]
    leaves the registry file alone and makes at most one call that is not a
    GET: a PUT on the path of the group that carries the name of one node. *)
Theorem cmd_best_writes_at_most_once (E : env) (group : string) (w : world) :
  registry (snd (cmd_best E group w)) = registry w
  /\ (writes (trace (snd (cmd_best E group w))) = writes (trace w)
      \/ exists best,
           writes (trace (snd (cmd_best E group w)))
           = (writes (trace w) ++ [EApi (select_call group best)])%list).
Proof.
  assert (H : at_most_one_write
                (fun e => exists best, e = EApi (select_call group best))
                (cmd_best E group)).
  { unfold cmd_best. apply at_most_bind; [apply quiet_probe_group|].
    intros [results|]; [apply select_best_at_most|].
    apply quiet_at_most, quiet_ret. }
  destruct (H w) as [H1 [H2 | [e [[best ->] H2]]]].
  - split; [exact H1 | now left].
  - split; [exact H1 | right; now exists best].
Qed.

(** X9.  [cmd_best] stops at a group it cannot read.  When the call that
    reads the group fails, or returns 204, or returns an object without an
    ["all"] member, the command prints that it cannot read the group and
    returns: it has made that one call, probed nothing and switched
    nothing. *)
Theorem cmd_best_stops_at_unreadable_group (E : env) (group : string)
    (w : world) :
  let r := daemon E (trace w) (group_request group) in
  (exists v, envelope_of r = Some v)
  \/ (exists b, r = Response 204 b)
  \/ (exists status d, r = Response status (Json (PDict d))
                       /\ assoc "all" d = None) ->
  cmd_best E group w
  = (Ret tt,
     World (registry w)
           (trace w ++ [EApi (group_request group);
                        EPrint (MCannotReadGroup group)])).
Proof.
  intros r Hr.
  assert (Hinfo : exists info,
             api_result r = Ret info /\ group_unreadable info = Ret true).
  { destruct Hr as [[v Hv] | [[b Hb] | [status [d [Hd Ha]]]]].
    - destruct (api_result_envelope _ _ Hv) as [H1 [H2 [_ [_ [H3 _]]]]].
      exists v. split; [exact H1|]. unfold group_unreadable.
      now rewrite H2, H3.
    - exists PNone. split; [now rewrite Hb | reflexivity].
    - rewrite Hd. cbn [api_result]. destruct (status =? 204).
      + exists PNone. now split.
      + exists (PDict d). split; [reflexivity|]. unfold group_unreadable.
        destruct (truthy (PDict d)); [|reflexivity].
        cbn [negb py_in]. now rewrite Ha. }
  destruct Hinfo as [info [Hres Hbad]].
  unfold cmd_best. rewrite bind_run. unfold probe_group. rewrite bind_run.
  unfold api_get. rewrite (api_request_ret E _ _ _ w info) by exact Hres.
  cbn [request_body truthy]. fold (group_request group).
  rewrite bind_run, lift_run, Hbad, bind_run, print_run, ret_run.
  cbn [registry trace]. now rewrite <- app_assoc.
Qed.

(** A witness for X9: the daemon does not know the group. *)
Lemma cmd_best_stops_at_unreadable_group_witness :
  cmd_best (Demo.install (Demo.always (HTTPError 404 (Some "not found"))) id)
           "Nope" Demo.start
  = (Ret tt,
     World (Doc Demo.registry_doc)
           [EApi (group_request "Nope"); EPrint (MCannotReadGroup "Nope")]).
Proof.
  apply (cmd_best_stops_at_unreadable_group
           (Demo.install (Demo.always (HTTPError 404 (Some "not found"))) id)
           "Nope" Demo.start).
  left. eexists. reflexivity.
Defined.

(** ** The steps of a profile switch *)







(** ** Reading the registry back *)












Lemma remote_profiles_flags (c : pyval) (items : list pyval)
    (ps : list profile) :
  remote_profiles c items = Ret ps ->
  Forall (fun p => p_active p = py_eq (p_uid p) c) ps
  /\ (List.length ps <= List.length items)%nat.
Proof.
  revert ps. induction items as [|item items IH]; intros ps H.
  - injection H as <-. split; [constructor | apply le_n].
  - cbn [remote_profiles] in H. unfold remote_profile in H.
    destruct (py_get item "type" PNone) as [ty|]; [|discriminate].
    cbn [obind] in H. destruct (eq_str ty "remote").
    + destruct (py_getitem item "uid") as [uid|]; [|discriminate].
      cbn [obind] in H.
      destruct (py_get item "name" uid) as [name|]; [|discriminate].
      cbn [obind] in H.
      destruct (py_get item "file" _) as [file|]; [|discriminate].
      cbn [obind] in H.
      destruct (py_get item "url" _) as [url|]; [|discriminate].
      cbn [obind] in H.
      destruct (py_get item "extra" _) as [extra|]; [|discriminate].
      cbn [obind] in H.
      destruct (remote_profiles c items) as [ps0|]; [|discriminate].
      cbn [obind] in H. injection H as <-.
      destruct (IH ps0 eq_refl) as [H1 H2]. split.
      * constructor; [reflexivity | exact H1].
      * cbn [List.length]. lia.
    + cbn [obind] in H.
      destruct (remote_profiles c items) as [ps0|]; [|discriminate].
      cbn [obind] in H. injection H as <-.
      destruct (IH ps0 eq_refl) as [H1 H2]. split; [exact H1|].
      cbn [List.length]. lia.
Qed.

Lemma py_eq_str (a : string) (c : pyval) :
  py_eq (PStr a) c = true -> c = PStr a.
Proof.
  destruct c; cbn; try discriminate. intros H.
  apply String.eqb_eq in H. now subst.
Qed.

(** X13.  The profiles read from a registry: each is marked active exactly
    when its uid equals the registry's [current] (the empty string when the
    registry has none); two active profiles whose uids are strings have the
    same uid, so with distinct uids at most one is active; and there are no
    more profiles than items. *)
Theorem profiles_active_is_current (data : list (string * pyval))
    (ps : list profile) :
  profiles_of (PDict data) = Ret ps ->
  (forall p, In p ps -> p_active p = py_eq (p_uid p) (current_of data))
  /\ (forall p q a b,
        In p ps -> In q ps -> p_active p = true -> p_active q = true ->
        p_uid p = PStr a -> p_uid q = PStr b -> a = b)
  /\ (forall items, assoc "items" data = Some (PList items) ->
                    (List.length ps <= List.length items)%nat).
Proof.
  unfold profiles_of. cbn [py_get obind]. fold (current_of data).
  intros H.
  destruct (py_iter _) as [its|] eqn:Ei; [|discriminate]. cbn [obind] in H.
  destruct (remote_profiles_flags _ _ _ H) as [Hact Hlen].
  rewrite Forall_forall in Hact. split; [exact Hact|]. split.
  - intros p q a b Hp Hq Hap Haq Hup Huq.
    rewrite (Hact p Hp), Hup in Hap. rewrite (Hact q Hq), Huq in Haq.
    apply py_eq_str in Hap, Haq. congruence.
  - intros items Hi. rewrite Hi in Ei. cbn in Ei. now injection Ei as <-.
Qed.

(** A witness for X13: in the demonstration only "Home" is active. *)
Lemma profiles_active_is_current_witness :
  p_active Demo.home = py_eq (p_uid Demo.home) (current_of Demo.registry_data)
  /\ p_active Demo.work = py_eq (p_uid Demo.work) (current_of Demo.registry_data).
Proof.
  destruct (profiles_active_is_current Demo.registry_data
              [Demo.home; Demo.work] eq_refl) as [H _].
  split; apply H; simpl; tauto.
Defined.

(** ** The nodes of a profile *)

Lemma profile_nodes_invariants (prof : profile) (entries : list pyval)
    (nodes : list node) :
  profile_nodes prof entries = Ret nodes ->
  (List.length nodes <= List.length entries)%nat
  /\ forall n, In n nodes ->
       n_profile n = p_name prof /\ n_profile_uid n = p_uid prof
       /\ any_in INFO_KEYWORDS (n_name n) = Ret false.
Proof.
  revert nodes. induction entries as [|p entries IH]; intros nodes H.
  - injection H as <-. split; [apply le_n | intros n []].
  - cbn [profile_nodes] in H.
    destruct (py_get p "name" _) as [name|]; [|discriminate].
    cbn [obind] in H.
    destruct (any_in INFO_KEYWORDS name) as [[|]|] eqn:Ea; [| |discriminate];
      cbn [obind] in H.
    + destruct (IH nodes H) as [H1 H2]. split; [cbn [List.length]; lia | exact H2].
    + destruct (py_get p "type" _) as [ty|]; [|discriminate]. cbn [obind] in H.
      destruct (py_get p "server" _) as [server|]; [|discriminate].
      cbn [obind] in H.
      destruct (py_get p "port" _) as [port|]; [|discriminate].
      cbn [obind] in H.
      destruct (profile_nodes prof entries) as [rest|]; [|discriminate].
      cbn [obind] in H. injection H as <-.
      destruct (IH rest eq_refl) as [H1 H2]. split; [cbn [List.length]; lia|].
      intros n [<-|Hn]; [now repeat split | now apply H2].
Qed.

(** X14.  Listing the nodes of a profile: a profile whose backing file does
    not exist has no nodes, and that is no error.  Every node that is listed
    carries the name and the uid of the profile, and its name, when it is a
    string, contains no informational keyword. *)
Theorem parse_profile_nodes_keeps_real_names (E : env) (prof : profile) :
  (forall f, p_file prof = PStr f -> profile_files E f = Missing ->
             parse_profile_nodes E prof = Ret [])
  /\ (forall nodes n,
        parse_profile_nodes E prof = Ret nodes -> In n nodes ->
        n_profile n = p_name prof /\ n_profile_uid n = p_uid prof
        /\ forall s, n_name n = PStr s -> ~ has_info_marker s).
Proof.
  split.
  - intros f Hf Hm. unfold parse_profile_nodes. now rewrite Hf, Hm.
  - intros nodes n H Hn. unfold parse_profile_nodes in H.
    destruct (p_file prof) as [| | |f| |]; try discriminate.
    destruct (profile_files E f) as [| |data]; try discriminate.
    + injection H as <-. contradiction.
    + destruct (py_get data "proxies" _) as [proxies|]; [|discriminate].
      cbn [obind] in H.
      destruct (py_iter proxies) as [entries|]; [|discriminate].
      cbn [obind] in H.
      destruct (profile_nodes_invariants _ _ _ H) as [_ Hinv].
      destruct (Hinv n Hn) as [H1 [H2 H3]]. split; [exact H1|].
      split; [exact H2|]. intros s Hs. rewrite Hs, any_in_str in H3.
      change (Ret (is_informational s) = Ret false) in H3.
      rewrite <- is_informational_spec. injection H3 as H3. now rewrite H3.
Qed.

(** ** Edges of the matching loop *)

Lemma str_contains_empty (s : string) : str_contains EmptyString s = true.
Proof. destruct s; reflexivity. Qed.

(** X15.  Two edges of the profile matching.  An empty query selects the
    first remote profile whose name is a string, whatever the name.  And the
    loop calls [lower] on the name, then on the uid, of each profile it
    reaches: a profile whose name is not a string, or whose name does not
    match and whose uid is not a string, makes the matching raise
    [AttributeError] even when a later profile would match. *)
Theorem find_match_edges (E : env) (target : string) (pre post : list profile)
    (p : profile) :
  Forall (no_match E target) pre ->
  (lower E EmptyString = EmptyString -> target = EmptyString ->
   (exists n, p_name p = PStr n) ->
   find_match E target (pre ++ p :: post) = Ret (Some p))
  /\ ((forall n, p_name p <> PStr n) ->
      find_match E target (pre ++ p :: post) = Raise AttributeError)
  /\ (forall n, p_name p = PStr n -> ~ contains_ci E target n ->
                (forall u, p_uid p <> PStr u) ->
                find_match E target (pre ++ p :: post) = Raise AttributeError).
Proof.
  intros Hpre.
  assert (Hskip : find_match E target (pre ++ p :: post)
                  = find_match E target (p :: post)).
  { induction Hpre as [|q pre Hq _ IH]; [reflexivity|].
    cbn [app]. now rewrite find_match_skip. }
  rewrite Hskip. cbn [find_match]. split; [|split].
  - intros Hl -> [n Hn]. rewrite Hn. cbn [py_lower obind].
    now rewrite Hl, str_contains_empty.
  - intros Hn. destruct (p_name p) as [| | |n| |]; try reflexivity.
    now destruct (Hn n).
  - intros n Hn Hc Hu. rewrite Hn. cbn [py_lower obind].
    apply not_contains in Hc. rewrite Hc.
    destruct (p_uid p) as [| | |u| |]; try reflexivity.
    now destruct (Hu u).
Qed.

(** A witness for X15: the empty query on the demonstration selects "Home",
    and a uid that is a number breaks the matching of "work". *)
Lemma find_match_edges_witness :
  let E := Demo.install (Demo.always (URLError "down")) id in
  find_match E EmptyString [Demo.home; Demo.work] = Ret (Some Demo.home)
  /\ find_match E "work"
       [Profile (PInt 7) (PStr "Home") (PStr "a1.yaml") true PNone PNone;
        Demo.work]
     = Raise AttributeError.
Proof.
  intros E. split.
  - destruct (find_match_edges E EmptyString [] [Demo.work] Demo.home
                (Forall_nil _)) as [H _].
    apply H; [reflexivity | reflexivity | now exists "Home"].
  - destruct (find_match_edges E "work" [] [Demo.work]
                (Profile (PInt 7) (PStr "Home") (PStr "a1.yaml") true PNone PNone)
                (Forall_nil _)) as [_ [_ H]].
    apply (H "Home"); [reflexivity | | intros u; discriminate].
    apply not_contains. reflexivity.
Defined.

(** ** Running a command of the second part *)

Lemma xbind_run {A B} (m : X A) (k : A -> X B) (s : session) :
  xbind m k s
  = match m s with
    | (Ret a, s') => k a s'
    | (Raise e, s') => (Raise e, s')
    end.
Proof. reflexivity. Qed.

Lemma say_run (l : line) (s : session) :
  say l s
  = (Ret tt,
     Session (base s) (console s ++ [(List.length (trace (base s)), l)])).
Proof. reflexivity. Qed.

Lemma run_run {A} (m : M A) (s : session) :
  run m s = (fst (m (base s)), Session (snd (m (base s))) (console s)).
Proof. unfold run. now destruct (m (base s)). Qed.

Lemma run_api_request (E : env) (path method : string) (data : pyval)
    (s : session) :
  request_builds E = true ->
  run (api_request E path method data) s
  = (api_result (daemon E (trace (base s))
                        (ApiCall method path (request_body data))),
     Session (World (registry (base s))
                    (trace (base s)
                     ++ [EApi (ApiCall method path (request_body data))]))
             (console s)).
Proof. intros H. unfold run. now rewrite (api_request_run E _ _ _ _ H). Qed.

Lemma run_api_request_ret (E : env) (path method : string) (data : pyval)
    (s : session) (v : pyval) :
  api_result (daemon E (trace (base s))
                     (ApiCall method path (request_body data))) = Ret v ->
  run (api_request E path method data) s
  = (Ret v,
     Session (World (registry (base s))
                    (trace (base s)
                     ++ [EApi (ApiCall method path (request_body data))]))
             (console s)).
Proof. intros H. unfold run. now rewrite (api_request_ret E _ _ _ _ v H). Qed.

Lemma run_api_request_unbuilt (E : env) (path method : string) (data : pyval)
    (s : session) :
  request_builds E = false ->
  run (api_request E path method data) s = (Raise UrlValueError, s).
Proof.
  intros H. unfold run. rewrite (api_request_unbuilt E _ _ _ _ H).
  now destruct s.
Qed.

Lemma xquiet_ret {A} (a : A) : xquiet (xret a).
Proof. intros s. now split. Qed.

Lemma xquiet_lift {A} (o : outcome A) : xquiet (xlift o).
Proof. intros s. now split. Qed.

Lemma xquiet_say (l : line) : xquiet (say l).
Proof. intros s. now split. Qed.

Lemma xquiet_run {A} (m : M A) : quiet m -> xquiet (run m).
Proof.
  intros H s. unfold run. specialize (H (base s)).
  destruct (m (base s)) as [o w]. exact H.
Qed.

Lemma xquiet_bind {A B} (m : X A) (k : A -> X B) :
  xquiet m -> (forall a, xquiet (k a)) -> xquiet (xbind m k).
Proof.
  intros Hm Hk s. rewrite xbind_run. specialize (Hm s).
  destruct (m s) as [[a|e] s1]; cbn [snd] in *.
  - destruct (Hk a s1) as [H1 H2]. destruct Hm as [H3 H4].
    split; congruence.
  - exact Hm.
Qed.

Lemma xquiet_for {A} (l : list A) (f : A -> X unit) :
  (forall a, xquiet (f a)) -> xquiet (xfor l f).
Proof.
  intros Hf. induction l as [|a l IH]; cbn [xfor].
  - apply xquiet_ret.
  - apply xquiet_bind; [apply Hf | intros _; exact IH].
Qed.

Ltac xquiet_steps :=
  repeat first
    [ apply xquiet_say | apply xquiet_lift | apply xquiet_ret
    | apply xquiet_run; first [ apply quiet_api_get
                              | apply quiet_test_single_node_delay
                              | apply quiet_get_remote_profiles ]
    | apply xquiet_for; intros ?
    | apply xquiet_bind; [|intros ?]
    | match goal with
      | |- xquiet (if ?b then _ else _) => destruct b
      end ].

(** ** [cmd_switch_node] *)

Lemma xquiet_after_switch (E : env) (node_name group : string)
    (result : pyval) :
  xquiet
    (match result with
     | PNone =>
         xbind (say (LSwitched group node_name)) (fun _ =>
         xbind (run (test_single_node_delay E node_name)) (fun delay =>
         xbind (xlift (py_ge delay 0)) (fun ge =>
         say (if (ge : bool) then LDelay delay else LMayBeUnreachable))))
     | _ =>
         xbind (say (LError result)) (fun _ =>
         xbind (run (api_get E ("/proxies/" ++ quote group))) (fun info =>
         xbind (xlift (if truthy info then py_in "all" info else Ret false))
               (fun has =>
         if (has : bool) then
           xbind (say (LAvailableIn group)) (fun _ =>
           xbind (xlift (let? all := py_getitem info "all" in py_iter all))
                 (fun members =>
           xfor members (fun n => say (LMember n))))
         else xret tt)))
     end).
Proof. destruct result; xquiet_steps. Qed.

(** X16.  [cmd_switch_node] never touches the registry file and makes at
    most one write: the PUT that sets the group to the node.  Every run that
    returns has made it, and everything after it is a GET or a line on the
    console.  When the name of the group is text (a command-line argument
    that is not UTF-8 is not, and makes [quote] raise before any call), the
    command makes that write whenever a request can be built, whatever the
    daemon answers and however the run ends afterwards; and when the address
    of the daemon names no scheme it raises before anything is sent, and
    nothing has changed. *)
Theorem cmd_switch_node_writes_once (E : env) (node_name group : string)
    (s : session) :
  let after := cmd_switch_node E node_name group s in
  let before := writes (trace (base s)) in
  let put := EApi (select_call group node_name) in
  registry (base (snd after)) = registry (base s)
  /\ (writes (trace (base (snd after))) = before
      \/ writes (trace (base (snd after))) = (before ++ [put])%list)
  /\ (fst after = Ret tt ->
      writes (trace (base (snd after))) = (before ++ [put])%list)
  /\ (well_encoded group = true ->
      daemon E (trace (base s)) (select_call group node_name) <> NoRequest ->
      writes (trace (base (snd after))) = (before ++ [put])%list)
  /\ (well_encoded group = true ->
      request_builds E = false -> after = (Raise UrlValueError, s)).
Proof.
  intros after before put.
  destruct (request_builds E) eqn:Eb.
  - assert (H : registry (base (snd after)) = registry (base s)
                /\ writes (trace (base (snd after))) = (before ++ [put])%list).
    { unfold after, cmd_switch_node. rewrite xbind_run.
      rewrite (run_api_request E _ _ _ s Eb).
      cbn [request_body truthy]. fold (select_call group node_name).
      assert (Hw : writes (trace (base s)
                           ++ [EApi (select_call group node_name)])
                   = (before ++ [put])%list).
      { rewrite writes_app. reflexivity. }
      destruct (api_result _) as [result|e].
      - destruct (xquiet_after_switch E node_name group result
                    (Session (World (registry (base s))
                                    (trace (base s)
                                     ++ [EApi (select_call group node_name)]))
                             (console s))) as [H1 H2].
        split; [exact H1 | etransitivity; [exact H2 | exact Hw]].
      - cbn [snd base registry trace]. now split. }
    destruct H as [H1 H2].
    split; [exact H1|]. split; [now right|]. split; [now intros _|].
    split; [now intros _ _ | intros _; discriminate].
  - assert (H : after = (Raise UrlValueError, s)).
    { unfold after, cmd_switch_node.
      now rewrite xbind_run, (run_api_request_unbuilt E _ _ _ s Eb). }
    rewrite H. cbn [fst snd]. split; [reflexivity|]. split; [now left|].
    split; [discriminate|]. split.
    + intros _ Hd. apply daemon_builds in Hd. congruence.
    + now intros _ _.
Qed.

(** A witness for X16: the daemon refuses the node, the run has made the
    one write all the same. *)
Lemma cmd_switch_node_writes_once_witness :
  writes (trace (base (snd (cmd_switch_node
                              (Demo.install Demo.stubborn_daemon id)
                              "Nope" "Proxies" Demo.session0))))
  = [EApi (select_call "Proxies" "Nope")].
Proof.
  destruct (cmd_switch_node_writes_once
              (Demo.install Demo.stubborn_daemon id)
              "Nope" "Proxies" Demo.session0) as [_ [_ [_ [H _]]]].
  apply H; [reflexivity | discriminate].
Defined.

Lemma xfor_say_run {A} (f : A -> line) (l : list A) (s : session) :
  xfor l (fun a => say (f a)) s
  = (Ret tt,
     Session (base s)
             (console s
              ++ map (fun a => (List.length (trace (base s)), f a)) l)).
Proof.
  revert s. induction l as [|a l IH]; intros s; cbn [xfor map].
  - unfold xret. rewrite app_nil_r. now destruct s.
  - rewrite xbind_run, say_run, IH. cbn [base console].
    now rewrite <- app_assoc.
Qed.

Lemma said_app (s : session) (b : world) (ls : list (nat * line)) :
  said (Session b (console s ++ ls)) = (said s ++ map snd ls)%list.
Proof. unfold said. cbn [console]. apply map_app. Qed.

(** X17.  A switch the daemon accepts.  After the 204 the command says that
    it switched and probes the node once.  A probe that fails, in any of the
    ways a call can fail, gives the warning that the node may not be
    reachable, not an exception; a probe answered with a delay that is a
    number gives that delay, or the warning when the number is negative. *)
Theorem switch_node_accepted (E : env) (node_name group : string)
    (s : session) (b : body) :
  let put := select_call group node_name in
  let t1 := (trace (base s) ++ [EApi put])%list in
  let r := daemon E t1 (probe_request node_name) in
  let after := cmd_switch_node E node_name group s in
  daemon E (trace (base s)) put = Response 204 b ->
  ((failed_call r /\ (forall code, r <> HTTPError code None))
   \/ (exists b', r = Response 204 b') ->
   fst after = Ret tt
   /\ said (snd after)
      = (said s ++ [LSwitched group node_name; LMayBeUnreachable])%list
   /\ trace (base (snd after)) = (t1 ++ [probe_call node_name])%list)
  /\ (forall status d v z,
        r = Response status (Json (PDict d)) -> status <> 204 ->
        assoc "delay" d = Some v -> num_of v = Some z ->
        fst after = Ret tt
        /\ said (snd after)
           = (said s ++ [LSwitched group node_name;
                         if 0 <=? z then LDelay v else LMayBeUnreachable])%list
        /\ trace (base (snd after)) = (t1 ++ [probe_call node_name])%list).
Proof.
  intros put t1 r after Hput.
  assert (Hrun : forall delay z,
             test_single_node_delay E node_name
               (World (registry (base s)) t1)
             = (Ret delay,
                World (registry (base s)) (t1 ++ [probe_call node_name])) ->
             num_of delay = Some z ->
             fst after = Ret tt
             /\ said (snd after)
                = (said s ++ [LSwitched group node_name;
                              if 0 <=? z then LDelay delay
                              else LMayBeUnreachable])%list
             /\ trace (base (snd after)) = (t1 ++ [probe_call node_name])%list).
  { intros delay z Hprobe Hz. unfold after, cmd_switch_node.
    rewrite xbind_run, (run_api_request_ret E _ _ _ s PNone)
      by (cbn [request_body truthy]; fold (select_call group node_name);
          fold put; now rewrite Hput).
    cbn [request_body truthy].
    fold (select_call group node_name). fold put.
    rewrite xbind_run, say_run, xbind_run, run_run. cbn [base console].
    fold t1. rewrite Hprobe. cbn [fst snd].
    rewrite xbind_run. unfold xlift, py_ge. rewrite Hz, say_run.
    cbn [fst snd base console trace]. split; [reflexivity|].
    split; [|reflexivity]. unfold said. cbn [console].
    rewrite <- app_assoc, map_app. cbn [map snd app].
    now destruct (0 <=? z). }
  split.
  - intros Hr. apply (Hrun (PInt (-1)) (-1)); [|reflexivity].
    now apply (probe_run_failed E node_name (World (registry (base s)) t1)).
  - intros status d v z Hr Hs Hd Hz. apply (Hrun v z); [|exact Hz].
    rewrite (probe_run_object E node_name (World (registry (base s)) t1)
               status d Hr Hs).
    now rewrite Hd.
Qed.

(** A witness for X17: the daemon accepts the switch and answers the probe
    with 42 ms. *)
Lemma switch_node_accepted_witness :
  said (snd (cmd_switch_node (Demo.install Demo.willing_daemon id)
                             "N1" "Proxies" Demo.session0))
  = [LSwitched "Proxies" "N1"; LDelay (PInt 42)].
Proof.
  destruct (switch_node_accepted (Demo.install Demo.willing_daemon id)
              "N1" "Proxies" Demo.session0 (Undecodable EmptyString) eq_refl)
    as [_ H].
  destruct (H 200 [("delay", PInt 42)] (PInt 42) 42 eq_refl) as [_ [H2 _]];
    [discriminate | reflexivity | reflexivity | exact H2].
Defined.

(** X18.  A switch the daemon refuses.  The command prints the error it got
    and reads the group.  When that call fails too, or gives nothing, it
    stops there and returns; when it gives an object whose ["all"] member is
    a list, it prints one line per member, in order. *)
Theorem switch_node_refused (E : env) (node_name group : string)
    (s : session) (v : pyval) :
  let put := select_call group node_name in
  let t1 := (trace (base s) ++ [EApi put])%list in
  let r := daemon E t1 (group_request group) in
  let after := cmd_switch_node E node_name group s in
  envelope_of (daemon E (trace (base s)) put) = Some v ->
  ((exists v', envelope_of r = Some v') \/ (exists b, r = Response 204 b) ->
   fst after = Ret tt
   /\ said (snd after) = (said s ++ [LError v])%list
   /\ trace (base (snd after)) = (t1 ++ [EApi (group_request group)])%list)
  /\ (forall status d members,
        r = Response status (Json (PDict d)) -> status <> 204 ->
        assoc "all" d = Some (PList members) ->
        fst after = Ret tt
        /\ said (snd after)
           = (said s ++ LError v :: LAvailableIn group :: map LMember members)%list
        /\ trace (base (snd after)) = (t1 ++ [EApi (group_request group)])%list).
Proof.
  intros put t1 r after Hput.
  destruct (envelope_of_dict _ _ Hput) as [dv Hdv].
  destruct (api_result_envelope _ _ Hput) as [Hres _].
  assert (Hstart : after
                   = xbind (run (api_get E ("/proxies/" ++ quote group)))
                       (fun info =>
                        xbind (xlift (if truthy info then py_in "all" info
                                      else Ret false))
                          (fun has =>
                           if (has : bool) then
                             xbind (say (LAvailableIn group)) (fun _ =>
                             xbind (xlift (let? all := py_getitem info "all" in
                                           py_iter all))
                                   (fun members =>
                                    xfor members (fun n => say (LMember n))))
                           else xret tt))
                       (Session (World (registry (base s)) t1)
                                (console s
                                 ++ [(List.length t1, LError v)]))).
  { unfold after, cmd_switch_node.
    rewrite xbind_run, (run_api_request_ret E _ _ _ s v) by exact Hres.
    cbn [request_body truthy].
    fold (select_call group node_name). fold put.
    subst v. rewrite xbind_run, say_run.
    reflexivity. }
  assert (Hbuilds : request_builds E = true)
    by exact (daemon_builds _ _ _ (api_result_sent _ _ Hres)).
  rewrite Hstart. unfold api_get.
  rewrite xbind_run, (run_api_request E _ _ _ _ Hbuilds).
  cbn [request_body truthy base console registry trace].
  fold (group_request group). fold r. split.
  - intros Hr.
    assert (Hinfo : exists info,
               api_result r = Ret info
               /\ (if truthy info then py_in "all" info else Ret false)
                  = Ret false).
    { destruct Hr as [[v' Hv'] | [b Hb]].
      - destruct (api_result_envelope _ _ Hv') as [H1 [H2 [_ [_ [H3 _]]]]].
        exists v'. split; [exact H1 | now rewrite H2].
      - exists PNone. split; [now rewrite Hb | reflexivity]. }
    destruct Hinfo as [info [Hi Hno]]. rewrite Hi, xbind_run.
    unfold xlift. rewrite Hno. unfold xret. cbn [fst snd base trace].
    split; [reflexivity|]. split; [|reflexivity]. apply said_app.
  - intros status d members Hr Hs Hall. rewrite Hr. cbn [api_result].
    destruct (Z.eqb_spec status 204) as [|_]; [contradiction|].
    assert (Ht : truthy (PDict d) = true) by (destruct d; [discriminate | reflexivity]).
    match goal with
    | |- fst ?x = _ /\ _ =>
        assert (Hx : x
                     = (Ret tt,
                        Session (World (registry (base s))
                                       (t1 ++ [EApi (group_request group)]))
                                ((console s ++ [(List.length t1, LError v)])
                                 ++ (List.length
                                       (t1 ++ [EApi (group_request group)]),
                                     LAvailableIn group)
                                    :: map (fun n =>
                                              (List.length
                                                 (t1 ++ [EApi (group_request group)]),
                                               LMember n)) members)))
    end.
    { rewrite xbind_run. unfold xlift at 1. rewrite Ht. cbn [py_in].
      rewrite Hall. cbv beta iota.
      rewrite xbind_run, say_run. cbv beta iota.
      rewrite xbind_run. unfold xlift at 1. cbn [py_getitem]. rewrite Hall.
      cbn [obind py_iter]. cbv beta iota.
      rewrite xfor_say_run. cbn [base console trace].
      now rewrite <- app_assoc. }
    rewrite Hx. cbn [fst snd base trace].
    split; [reflexivity|]. split; [|reflexivity].
    unfold said. cbn [console]. rewrite !map_app.
    cbn [map snd app]. rewrite map_map. cbn [snd].
    rewrite <- app_assoc. reflexivity.
Qed.

(** A witness for X18: the daemon refuses the node "Nope" and lists the
    members of the group. *)
Lemma switch_node_refused_witness :
  said (snd (cmd_switch_node (Demo.install Demo.stubborn_daemon id)
                             "Nope" "Proxies" Demo.session0))
  = [LError (PDict [("error", PInt 400); ("message", PStr "no such node")]);
     LAvailableIn "Proxies";
     LMember (PStr "N1"); LMember (PStr "N2"); LMember (PStr "N3");
     LMember (PStr "DIRECT"); LMember (PStr "Ghost")].
Proof.
  destruct (switch_node_refused (Demo.install Demo.stubborn_daemon id)
              "Nope" "Proxies" Demo.session0
              (PDict [("error", PInt 400); ("message", PStr "no such node")])
              eq_refl) as [_ H].
  destruct (H 200 [("type", PStr "Selector"); ("now", PStr "N1");
                   ("all", PList [PStr "N1"; PStr "N2"; PStr "N3";
                                  PStr "DIRECT"; PStr "Ghost"])]
              [PStr "N1"; PStr "N2"; PStr "N3"; PStr "DIRECT"; PStr "Ghost"]
              eq_refl) as [_ [H2 _]];
    [discriminate | reflexivity | exact H2].
Defined.

(** ** [main] *)

Lemma not_in_eqb (x : string) (l : list string) (y : string) :
  ~ In x l -> In y l -> String.eqb x y = false.
Proof.
  intros Hn Hy. destruct (String.eqb_spec x y) as [->|]; [contradiction|].
  reflexivity.
Qed.

(** X19.  [main] without a usable command does nothing but print.  With
    fewer than two arguments it prints the usage; with a command it does not
    know it prints that the command is unknown, then the usage; with
    [switch-profile] or [switch-node] and no further argument it prints the
    usage line of that command.  In all these cases the world is as before:
    no call, no write. *)
Theorem main_without_command (E : env) (cmd_list : X unit)
    (argv : list string) (s : session) :
  let stamp := List.length (trace (base s)) in
  ((List.length argv < 2)%nat ->
   main E cmd_list argv s
   = (Ret tt, Session (base s) (console s ++ [(stamp, LUsage)])))
  /\ (forall script cmd args,
        argv = script :: cmd :: args -> ~ In cmd COMMANDS ->
        main E cmd_list argv s
        = (Ret tt,
           Session (base s)
                   (console s ++ [(stamp, LUnknownCommand cmd); (stamp, LUsage)])))
  /\ (forall script,
        argv = [script; "switch-profile"] ->
        main E cmd_list argv s
        = (Ret tt, Session (base s) (console s ++ [(stamp, LUsageSwitchProfile)])))
  /\ (forall script,
        argv = [script; "switch-node"] ->
        main E cmd_list argv s
        = (Ret tt, Session (base s) (console s ++ [(stamp, LUsageSwitchNode)]))).
Proof.
  intros stamp. split; [|split; [|split]].
  - intros Hlen. destruct argv as [|a [|b argv]]; try reflexivity.
    cbn in Hlen. lia.
  - intros script cmd args -> Hcmd. unfold main.
    rewrite !(not_in_eqb cmd COMMANDS) by (auto; cbn; tauto).
    rewrite xbind_run, !say_run. cbn [base console].
    now rewrite <- app_assoc.
  - intros script ->. reflexivity.
  - intros script ->. reflexivity.
Qed.

(** A witness for X19: the command "stop" is not known. *)
Lemma main_without_command_witness :
  said (snd (main (Demo.install (Demo.always (URLError "down")) id)
                  (xret tt) ["proxy_switcher.py"; "stop"] Demo.session0))
  = [LUnknownCommand "stop"; LUsage].
Proof.
  destruct (main_without_command
              (Demo.install (Demo.always (URLError "down")) id)
              (xret tt) ["proxy_switcher.py"; "stop"] Demo.session0)
    as [_ [H _]].
  rewrite (H "proxy_switcher.py" "stop" [] eq_refl); [reflexivity|].
  cbn. intuition discriminate.
Defined.

Lemma index_of_none (x : string) (l : list string) :
  ~ In x l -> index_of x l = None.
Proof.
  induction l as [|y l IH]; [reflexivity|]. intros Hn. cbn [index_of].
  destruct (String.eqb_spec y x) as [->|_]; [exfalso; apply Hn; now left|].
  rewrite IH; [reflexivity|]. intros H. apply Hn. now right.
Qed.

Lemma index_of_first (x : string) (pre post : list string) :
  ~ In x pre -> index_of x (pre ++ x :: post) = Some (List.length pre).
Proof.
  induction pre as [|y pre IH]; intros Hn; cbn [app index_of List.length].
  - now rewrite String.eqb_refl.
  - destruct (String.eqb_spec y x) as [->|_]; [exfalso; apply Hn; now left|].
    rewrite IH; [reflexivity|]. intros H. apply Hn. now right.
Qed.

Lemma switch_node_group_cases (argv : list string) :
  (~ In "-g" argv -> switch_node_group argv = "Proxies")
  /\ (forall pre g post,
        argv = (pre ++ "-g" :: g :: post)%list -> ~ In "-g" pre ->
        switch_node_group argv = g)
  /\ (forall pre,
        argv = (pre ++ ["-g"])%list -> ~ In "-g" pre ->
        switch_node_group argv = "Proxies").
Proof.
  unfold switch_node_group. split; [|split].
  - intros Hn. now rewrite index_of_none.
  - intros pre g post -> Hn. rewrite index_of_first by exact Hn.
    rewrite nth_error_app2 by lia.
    replace (List.length pre + 1 - List.length pre)%nat with 1%nat by lia.
    reflexivity.
  - intros pre -> Hn. rewrite index_of_first by exact Hn.
    rewrite nth_error_app2 by lia.
    replace (List.length pre + 1 - List.length pre)%nat with 1%nat by lia.
    reflexivity.
Qed.

(** X20.  The group of [switch-node].  The node is the argument after the
    command.  The group is "Proxies" when no argument is [-g], and also when
    the first [-g] is the last argument; otherwise it is the argument after
    the first [-g] of the whole command line.  This first [-g] may be the
    node itself: [switch-node -g X] switches the group "X" to a node named
    "-g". *)
Theorem main_switch_node_group (E : env) (cmd_list : X unit)
    (script node : string) (rest : list string) (s : session) :
  let argv := script :: "switch-node" :: node :: rest in
  (~ In "-g" argv ->
   main E cmd_list argv s = cmd_switch_node E node "Proxies" s)
  /\ (forall pre g post,
        argv = (pre ++ "-g" :: g :: post)%list -> ~ In "-g" pre ->
        main E cmd_list argv s = cmd_switch_node E node g s)
  /\ (forall pre,
        argv = (pre ++ ["-g"])%list -> ~ In "-g" pre ->
        main E cmd_list argv s = cmd_switch_node E node "Proxies" s).
Proof.
  intros argv.
  assert (Hmain : main E cmd_list argv s
                  = cmd_switch_node E node (switch_node_group argv) s)
    by reflexivity.
  destruct (switch_node_group_cases argv) as [H1 [H2 H3]].
  rewrite Hmain. split; [|split].
  - intros Hn. now rewrite H1.
  - intros pre g post Ha Hn. now rewrite (H2 pre g post Ha Hn).
  - intros pre Ha Hn. now rewrite (H3 pre Ha Hn).
Qed.

(** A witness for X20: [switch-node -g X]. *)
Lemma main_switch_node_group_witness :
  main (Demo.install Demo.willing_daemon id) (xret tt)
       ["proxy_switcher.py"; "switch-node"; "-g"; "X"] Demo.session0
  = cmd_switch_node (Demo.install Demo.willing_daemon id) "-g" "X"
                    Demo.session0.
Proof.
  destruct (main_switch_node_group (Demo.install Demo.willing_daemon id)
              (xret tt) "proxy_switcher.py" "-g" ["X"] Demo.session0)
    as [_ [H _]].
  apply (H ["proxy_switcher.py"; "switch-node"] "X" [] eq_refl).
  cbn. intuition discriminate.
Defined.

(** ** [cmd_status] *)

Lemma xquiet_status_profile (E : env) (p : profile) :
  xquiet (status_profile E p).
Proof. unfold status_profile. xquiet_steps. Qed.

Lemma xquiet_status_selection (proxies : pyval) (g : string) :
  xquiet (status_selection proxies g).
Proof. unfold status_selection. xquiet_steps. Qed.

(** X21.  [cmd_status] only looks: whatever the registry holds and whatever
    the daemon answers, and also when the run ends in an exception, the
    registry file is as before and the run has made no call other than
    GET. *)
Theorem cmd_status_writes_nothing (E : env) (s : session) :
  registry (base (snd (cmd_status E s))) = registry (base s)
  /\ writes (trace (base (snd (cmd_status E s)))) = writes (trace (base s)).
Proof.
  revert s. change (xquiet (cmd_status E)). unfold cmd_status.
  repeat first
    [ apply xquiet_say | apply xquiet_lift | apply xquiet_ret
    | apply xquiet_run; first [ apply quiet_api_get
                              | apply quiet_get_remote_profiles ]
    | apply xquiet_for; intros ?; first [ apply xquiet_status_profile
                                        | apply xquiet_status_selection ]
    | apply xquiet_bind; [|intros ?]
    | match goal with
      | |- xquiet (if ?b then _ else _) => destruct b
      end ].
Qed.

Lemma always_raises_left {A B} (m : X A) (k : A -> X B) :
  always_raises m -> always_raises (xbind m k).
Proof.
  intros Hm s. rewrite xbind_run. destruct (Hm s) as [e He].
  destruct (m s) as [[a|e'] s']; cbn [fst] in *; [discriminate|].
  now exists e'.
Qed.

Lemma always_raises_right {A B} (m : X A) (k : A -> X B) :
  (forall a, always_raises (k a)) -> always_raises (xbind m k).
Proof.
  intros Hk s. rewrite xbind_run.
  destruct (m s) as [[a|e] s']; [apply Hk | now exists e].
Qed.

(** The part of [cmd_status] that follows the three reads, when the listing
    is the envelope of a failed call. *)
Lemma status_rest_raises (E : env) (profiles : list profile)
    (config v : pyval) :
  truthy v = true -> py_getitem v "proxies" = Raise KeyError ->
  always_raises
    (xbind (say LRule) (fun _ =>
     xbind (say LStatusTitle) (fun _ =>
     xbind (say LRule) (fun _ =>
     xbind (run (api_get E "/version")) (fun ver =>
     xbind (xlift (py_get ver "version" (PStr "?"))) (fun version =>
     xbind (say (LCore version)) (fun _ =>
     xbind (xlift (py_get config "mode" (PStr "?"))) (fun mode =>
     xbind (say (LMode mode)) (fun _ =>
     xbind (xlift (py_get config "mixed-port" (PStr "?"))) (fun port =>
     xbind (say (LPort port)) (fun _ =>
     xbind (xlift (py_get config "tun" (PDict []))) (fun tun =>
     xbind (xlift (py_get tun "enable" PNone)) (fun enable =>
     xbind (xlift (py_get tun "device" (PStr EmptyString))) (fun device =>
     xbind (say (LTun (truthy enable) device)) (fun _ =>
     xbind (say LBlank) (fun _ =>
     xbind (say LProfiles) (fun _ =>
     xbind (xfor profiles (status_profile E)) (fun _ =>
     xbind (say LBlank) (fun _ =>
     xbind (if truthy v then
              xbind (say LSelections) (fun _ =>
              xfor KEY_GROUPS (status_selection v))
            else xret tt) (fun _ =>
     say LBlank)))))))))))))))))))).
Proof.
  intros Ht Hget.
  do 18 (apply always_raises_right; intros ?).
  apply always_raises_left. rewrite Ht.
  apply always_raises_right; intros _.
  cbn [KEY_GROUPS xfor]. apply always_raises_left.
  unfold status_selection. apply always_raises_left.
  intros s. unfold xlift. rewrite Hget. now exists KeyError.
Qed.

(** X22.  [cmd_status] cannot finish when the listing call fails.  The
    envelope of the failed call is truthy and has no ["proxies"] entry, so
    the section of the current selections raises [KeyError]; whatever the
    other calls return, the command ends in an exception. *)
Theorem cmd_status_raises_on_failed_listing (E : env) (s : session)
    (v : pyval) :
  envelope_of (daemon E (trace (base s) ++ [EApi CONFIGS]) LIST_PROXIES)
  = Some v ->
  exists e, fst (cmd_status E s) = Raise e.
Proof.
  intros Hv.
  destruct (api_result_envelope _ _ Hv) as [Hres [Ht [_ [Hget _]]]].
  assert (Hb : request_builds E = true)
    by exact (daemon_builds _ _ _ (api_result_sent _ _ Hres)).
  unfold cmd_status. rewrite xbind_run, run_run.
  destruct (get_remote_profiles_quiet_run (base s)) as [o [Ho _]].
  rewrite Ho. cbn [fst snd].
  destruct o as [profiles|e]; [|now exists e].
  rewrite xbind_run. unfold api_get at 1.
  rewrite (run_api_request E _ _ _ _ Hb).
  cbn [request_body truthy base console registry trace]. fold CONFIGS.
  destruct (api_result (daemon E (trace (base s)) CONFIGS)) as [config|e];
    [|now exists e].
  cbv beta iota.
  rewrite xbind_run. unfold api_get at 1.
  rewrite (run_api_request E _ _ _ _ Hb).
  cbn [request_body truthy base registry trace]. fold LIST_PROXIES.
  rewrite Hres. cbv beta iota.
  apply (status_rest_raises E profiles config v Ht Hget).
Qed.

(** A witness for X22: the daemon is down. *)
Lemma cmd_status_raises_on_failed_listing_witness :
  exists e,
    fst (cmd_status (Demo.install (Demo.always (URLError "refused")) id)
                    Demo.session0) = Raise e.
Proof.
  apply (cmd_status_raises_on_failed_listing
           (Demo.install (Demo.always (URLError "refused")) id)
           Demo.session0 (PDict [("error", PStr "refused")])).
  reflexivity.
Defined.

(** What the console holds when the daemon is down: every line of the
    status with question marks, then the exception. *)
Example status_when_down :
  let after := cmd_status (Demo.install (Demo.always (URLError "refused")) id)
                          Demo.session0 in
  fst after = Raise KeyError
  /\ said (snd after)
     = [LRule; LStatusTitle; LRule; LCore (PStr "?"); LMode (PStr "?");
        LPort (PStr "?"); LTun false (PStr EmptyString); LBlank; LProfiles;
        LProfile true (PStr "Home") 0 (PStr "a1");
        LProfile false (PStr "Work") 0 (PStr "b2");
        LBlank; LSelections].
Proof. split; vm_compute; reflexivity. Qed.

(** ** [load_dotenv] *)

Lemma getenv_app (k v : string) (env more : environ) :
  getenv k env = Some v -> getenv k (env ++ more)%list = Some v.
Proof.
  induction env as [|[k' v'] env IH]; [discriminate|].
  cbn [app getenv]. destruct (String.eqb k k'); [trivial | exact IH].
Qed.

Lemma getenv_none (k : string) (env : environ) :
  getenv k env = None -> ~ In k (map fst env).
Proof.
  induction env as [|[k' v'] env IH]; [intros _ []|].
  cbn [getenv map fst]. destruct (String.eqb_spec k k') as [|Hk];
    [discriminate|].
  intros H [Hin|Hin]; [congruence | now apply IH].
Qed.

Lemma NoDup_snoc {A} (l : list A) (a : A) :
  NoDup l -> ~ In a l -> NoDup (l ++ [a]).
Proof.
  intros Hn Ha. apply Permutation_NoDup with (l := a :: l).
  - apply Permutation_cons_append.
  - now constructor.
Qed.

(** What one line does: nothing, or one new binding whose name was not
    set. *)
Lemma dotenv_line_adds (strip : string -> string) (line : string)
    (env : environ) :
  env_of (dotenv_line strip line env) = env
  \/ exists k v,
       dotenv_line strip line env = Loaded (env ++ [(k, v)])%list
       /\ getenv k env = None /\ k <> EmptyString
       /\ str_contains "=" k = false /\ has_nul k = false
       /\ has_nul v = false.
Proof.
  unfold dotenv_line.
  destruct (_ || _ || _); [now left|].
  destruct (partition_eq (strip line)) as [key value].
  destruct (String.eqb_spec (strip key) EmptyString) as [|Hk];
    [now left|].
  destruct (getenv (strip key) env) eqn:Eg; [now left|].
  cbn [negb andb].
  destruct (str_contains "=" (strip key)) eqn:E1; [now left|].
  destruct (has_nul (strip key)) eqn:E2; [now left|].
  destruct (has_nul (strip_quotes (strip value))) eqn:E3; [now left|].
  right. cbn [orb]. eexists. eexists. now repeat split.
Qed.

Lemma dotenv_lines_extend (strip : string -> string) (lines : list string)
    (env : environ) :
  exists more,
    env_of (dotenv_lines strip lines env) = (env ++ more)%list
    /\ (NoDup (map fst env) -> NoDup (map fst (env ++ more)%list))
    /\ forall k v, In (k, v) more ->
         k <> EmptyString /\ str_contains "=" k = false
         /\ has_nul k = false /\ has_nul v = false.
Proof.
  revert env. induction lines as [|line lines IH]; intros env.
  - exists []. cbn. rewrite app_nil_r.
    split; [reflexivity | split; [auto | intros k0 v0 []]].
  - cbn [dotenv_lines].
    destruct (dotenv_line_adds strip line env)
      as [Hsame | [k [v [Hadd [Hg [H1 [H2 [H3 H4]]]]]]]].
    + destruct (dotenv_line strip line env) as [env'|env'];
        cbn [env_of] in Hsame; subst env'.
      * apply IH.
      * exists []. cbn. rewrite app_nil_r.
    split; [reflexivity | split; [auto | intros k0 v0 []]].
    + rewrite Hadd.
      destruct (IH (env ++ [(k, v)])%list) as [more [Hm [Hnd Hin]]].
      exists ((k, v) :: more). rewrite Hm, <- app_assoc. cbn [app].
      split; [reflexivity|]. split.
      * intros Hn.
        replace (env ++ (k, v) :: more)%list
          with ((env ++ [(k, v)]) ++ more)%list
          by now rewrite <- app_assoc.
        apply Hnd. rewrite map_app. cbn [map fst].
        apply NoDup_snoc; [exact Hn | now apply getenv_none].
      * intros k0 v0 [H|H]; [injection H as <- <-; auto | now apply Hin].
Qed.

Lemma dotenv_lines_app (strip : string -> string) (l1 l2 : list string)
    (env : environ) :
  dotenv_lines strip (l1 ++ l2) env
  = match dotenv_lines strip l1 env with
    | Loaded env' => dotenv_lines strip l2 env'
    | ValueError env' => ValueError env'
    end.
Proof.
  revert env. induction l1 as [|line l1 IH]; intros env; [reflexivity|].
  cbn [app dotenv_lines].
  destruct (dotenv_line strip line env) as [env'|env']; [apply IH | reflexivity].
Qed.

(** X23.  [load_dotenv] never replaces a variable of the process
    environment: every variable that is set before the load has the same
    value after it, also when the load stops with an error, so [CLASH_API]
    is the value of the process environment when there is one.  Without a
    file nothing changes, and loading a file is loading its first lines,
    then the remaining ones, so a name assigned twice keeps the first
    value. *)
Theorem load_dotenv_keeps_environment (strip : string -> string)
    (file : option (list string)) (env : environ) :
  load_dotenv strip None env = Loaded env
  /\ (forall k v, getenv k env = Some v ->
                  getenv k (env_of (load_dotenv strip file env)) = Some v)
  /\ (forall url, getenv "CLASH_API_URL" env = Some url ->
                  CLASH_API (env_of (load_dotenv strip file env)) = url)
  /\ (forall l1 l2,
        load_dotenv strip (Some (l1 ++ l2)%list) env
        = match load_dotenv strip (Some l1) env with
          | Loaded env' => load_dotenv strip (Some l2) env'
          | ValueError env' => ValueError env'
          end).
Proof.
  assert (Hkeep : forall k v, getenv k env = Some v ->
                    getenv k (env_of (load_dotenv strip file env)) = Some v).
  { intros k v Hk. destruct file as [lines|]; [|exact Hk].
    cbn [load_dotenv].
    destruct (dotenv_lines_extend strip lines env) as [more [-> _]].
    now apply getenv_app. }
  split; [reflexivity|]. split; [exact Hkeep|]. split.
  - intros url Hu. unfold CLASH_API. now rewrite (Hkeep _ _ Hu).
  - intros l1 l2. apply dotenv_lines_app.
Qed.

(** A witness for X23: the daemon address of the process environment wins
    over the one of the file. *)
Lemma load_dotenv_keeps_environment_witness :
  CLASH_API (env_of (load_dotenv Demo.ascii_strip (Some Demo.dotenv_file)
                                 [("CLASH_API_URL", "http://10.0.0.1:9097")]))
  = "http://10.0.0.1:9097".
Proof.
  destruct (load_dotenv_keeps_environment Demo.ascii_strip
              (Some Demo.dotenv_file)
              [("CLASH_API_URL", "http://10.0.0.1:9097")]) as [_ [_ [H _]]].
  apply H. reflexivity.
Defined.

(** X24.  What [load_dotenv] adds.  The environment after the load is the
    one before it followed by new bindings.  Each new name is not empty and
    holds neither "=" nor NUL, each new value holds no NUL, and when the
    names of the environment were distinct they still are: no name is bound
    twice. *)
Theorem load_dotenv_adds_fresh_names (strip : string -> string)
    (file : option (list string)) (env : environ) :
  exists more,
    env_of (load_dotenv strip file env) = (env ++ more)%list
    /\ (NoDup (map fst env) ->
        NoDup (map fst (env_of (load_dotenv strip file env))))
    /\ forall k v, In (k, v) more ->
         k <> EmptyString /\ str_contains "=" k = false
         /\ has_nul k = false /\ has_nul v = false.
Proof.
  destruct file as [lines|].
  - cbn [load_dotenv].
    destruct (dotenv_lines_extend strip lines env) as [more [H1 [H2 H3]]].
    exists more. rewrite H1. split; [reflexivity | split; [exact H2 | exact H3]].
  - exists []. cbn. rewrite app_nil_r.
    split; [reflexivity | split; [auto | intros k0 v0 []]].
Qed.

(** The file of the demonstration, loaded into an environment that has a
    home directory only. *)
Example load_dotenv_demo :
  load_dotenv Demo.ascii_strip (Some Demo.dotenv_file) [("HOME", "/root")]
  = Loaded [("HOME", "/root"); ("CLASH_API_URL", "http://127.0.0.1:9090");
            ("CLASH_API_SECRET", "s3cret")].
Proof. reflexivity. Qed.

(** ** A whole run of [cmd_test] *)

Lemma num_of_number (v : pyval) :
  num_of v <> None -> num_of v = Some (number_of v).
Proof. unfold number_of. now destruct (num_of v). Qed.

Lemma probe_run_sane (E : env) (name : string) (w : world) :
  sane_probe (daemon E (trace w) (probe_request name)) ->
  exists v,
    test_single_node_delay E name w
    = (Ret v, World (registry w) (trace w ++ [probe_call name]))
    /\ num_of v <> None.
Proof.
  intros Hs.
  assert (Hminus : num_of (PInt (-1)) <> None) by discriminate.
  destruct (daemon E (trace w) (probe_request name))
    as [status [msg|v] | code [text|] | reason | code e |] eqn:Er;
    cbn in Hs.
  - exists (PInt (-1)). split; [|exact Hminus].
    destruct (Z.eqb_spec status 204) as [->|Hn].
    + apply probe_run_failed. right. eauto.
    + apply probe_run_failed. left. rewrite Er. split; [exact Hn|].
      intros code. discriminate.
  - destruct (Z.eqb_spec status 204) as [->|Hn].
    { exists (PInt (-1)). split; [|exact Hminus].
      apply probe_run_failed. right. eauto. }
    destruct Hs as [Hs | [Hf | [d [-> Hd]]]]; [contradiction | |].
    + exists (PInt (-1)). split; [|exact Hminus].
      rewrite (probe_run E name w v).
      * now rewrite Hf.
      * rewrite Er. cbn. now destruct (Z.eqb_spec status 204).
    + rewrite (probe_run_object E name w status d Er Hn).
      eexists. split; [reflexivity|].
      destruct (assoc "delay" d); [exact Hd | exact Hminus].
  - exists (PInt (-1)). split; [|exact Hminus].
    apply probe_run_failed. left. rewrite Er. split; [exact I|].
    intros c. discriminate.
  - contradiction.
  - exists (PInt (-1)). split; [|exact Hminus].
    apply probe_run_failed. left. rewrite Er. split; [exact I|].
    intros c. discriminate.
  - contradiction.
  - contradiction.
Qed.

Lemma mapM_probes_sane (E : env) (names : list string) (w : world) :
  (forall history name, sane_probe (daemon E history (probe_request name))) ->
  exists done,
    mapM (fun name =>
            o <- attempt (test_single_node_delay E name) ;;
            ret (name, o)) names w
    = (Ret done, World (registry w) (trace w ++ map probe_call names))
    /\ map fst done = names
    /\ Forall (fun p => exists v, snd p = Ret v /\ num_of v <> None) done.
Proof.
  intros Hs. revert w. induction names as [|n names IH]; intros w.
  - exists []. cbn [mapM map]. rewrite ret_run, app_nil_r.
    destruct w; auto.
  - destruct (probe_run_sane E n w (Hs _ _)) as [v [Hv Hn]].
    destruct (IH (World (registry w) (trace w ++ [probe_call n])))
      as [done [Hd [Hf Hall]]].
    exists ((n, Ret v) :: done). split; [|split].
    + cbn [mapM]. rewrite !bind_run. unfold attempt at 1. rewrite Hv.
      unfold ret at 1. rewrite bind_run, Hd. unfold ret.
      cbn [map registry trace]. now rewrite <- app_assoc.
    + cbn [map fst]. now rewrite Hf.
    + constructor; [now exists v | exact Hall].
Qed.

Lemma assoc_in (name : string) (d : list (string * pyval)) :
  In name (map fst d) -> exists info, assoc name d = Some info /\ In (name, info) d.
Proof.
  induction d as [|[k v] d IH]; [intros []|].
  cbn [map fst assoc]. intros H.
  destruct (String.eqb_spec name k) as [->|Hk].
  - exists v. split; [reflexivity | now left].
  - destruct H as [H|H]; [congruence|].
    destruct (IH H) as [info [H1 H2]]. exists info. split; [exact H1 | now right].
Qed.

Lemma collect_test_total (real : list (string * pyval))
    (done : list (string * outcome pyval)) :
  Forall (fun p => exists v, snd p = Ret v /\ num_of v <> None) done ->
  (forall name, In name (map fst done) -> In name (map fst real)) ->
  (forall name info, In (name, info) real ->
     exists ty, py_getitem info "type" = Ret ty /\ format_ok ty = true) ->
  exists results,
    collect_test real done = Ret results
    /\ map (fun r => fst (fst r)) results = map fst done
    /\ Forall (fun r => num_of (snd r) <> None
                        /\ format_ok (snd (fst r)) = true) results.
Proof.
  intros Hdone Hin Hty. induction Hdone as [|[name o] done [v [Hv Hn]] _ IH].
  - exists []. now repeat split.
  - cbn [snd] in Hv. subst o.
    destruct IH as [results [Hc [Hl Hf]]].
    { intros n Hn'. apply Hin. now right. }
    destruct (assoc_in name real (Hin name (or_introl eq_refl)))
      as [info [Ha Hi]].
    destruct (Hty name info Hi) as [ty [Hg Hok]].
    exists ((name, ty, v) :: results). cbn [collect_test obind py_getitem].
    rewrite Ha. cbn [obind]. rewrite Hg. cbn [obind]. rewrite Hc.
    cbn [obind map fst]. split; [reflexivity|]. split; [now rewrite Hl|].
    constructor; [now split | exact Hf].
Qed.

Lemma test_rows_print (rows : list (string * pyval * pyval)) (n : nat)
    (w : world) :
  Forall (fun r => num_of (snd r) <> None
                   /\ format_ok (snd (fst r)) = true) rows ->
  forM_ (enumerate n rows) print_test_row w
  = (Ret tt,
     World (registry w)
           (trace w ++ map EPrint (map test_row (enumerate n rows)))).
Proof.
  intros H. revert n w.
  induction H as [|[[name ty] delay] rows [Hn Hok] _ IH]; intros n w.
  - cbn [enumerate forM_ map]. rewrite ret_run, app_nil_r. now destruct w.
  - cbn [snd fst] in Hn, Hok. cbn [enumerate forM_]. rewrite bind_run.
    unfold print_test_row at 1. rewrite bind_run, lift_run. unfold py_ge.
    rewrite (num_of_number _ Hn), Hok, print_run, IH.
    cbn [registry trace map test_row]. now rewrite <- app_assoc.
Qed.

Lemma filter_length_le {A} (f : A -> bool) (l : list A) :
  (List.length (filter f l) <= List.length l)%nat.
Proof.
  induction l as [|x l IH]; [apply le_n|].
  cbn [filter]. destruct (f x); cbn [List.length]; lia.
Qed.

Lemma enumerate_length {A} (n : nat) (l : list A) :
  List.length (enumerate n l) = List.length l.
Proof.
  revert n. induction l as [|x l IH]; intros n; [reflexivity|].
  cbn [enumerate List.length]. now rewrite IH.
Qed.

(** The run of [cmd_test] up to the probes, on a listing with an entry. *)
Lemma cmd_test_until_probes (E : env) (w : world)
    (data : pyval) (ps : list profile) (a : profile) (status : Z)
    (d items real : list (string * pyval)) :
  registry w = Doc data ->
  profiles_of data = Ret ps ->
  find p_active ps = Some a ->
  daemon E (trace w) LIST_PROXIES = Response status (Json (PDict d)) ->
  status <> 204 ->
  assoc "proxies" d = Some (PDict items) ->
  real_nodes_of items = Ret real ->
  items <> [] ->
  cmd_test E w
  = bind (run_probes E (map fst real)) (show_test real)
         (World (registry w)
                (trace w ++ [EApi LIST_PROXIES;
                             EPrint (MTesting (List.length real) (p_name a))])).
Proof.
  intros Hr Hp Ha Hd Hs Hprox Hreal Hne.
  assert (Hres : api_result (daemon E (trace w) LIST_PROXIES) = Ret (PDict d)).
  { rewrite Hd. cbn [api_result].
    now destruct (Z.eqb_spec status 204) as [|_]. }
  unfold cmd_test. rewrite bind_run, (get_remote_profiles_run w data Hr), Hp.
  rewrite Ha, bind_run. unfold api_get.
  rewrite (api_request_ret E _ _ _ w (PDict d)) by exact Hres.
  cbn [request_body truthy]. fold LIST_PROXIES.
  rewrite bind_run, lift_run. unfold fetch_failed.
  assert (Htd : truthy (PDict d) = true) by (destruct d; [discriminate | reflexivity]).
  assert (Hti : truthy (PDict items) = true) by now destruct items.
  assert (Hin : py_in "proxies" (PDict d) = Ret true).
  { cbn [py_in]. now rewrite Hprox. }
  assert (Hget : py_getitem (PDict d) "proxies" = Ret (PDict items)).
  { cbn [py_getitem]. now rewrite Hprox. }
  rewrite Htd. cbn [negb]. rewrite Hin. cbn [obind]. rewrite Hget.
  cbn [obind]. rewrite Hti. cbn [negb].
  rewrite bind_run, lift_run, bind_run, lift_run. cbn [py_items].
  rewrite bind_run, lift_run, Hreal, bind_run, print_run.
  cbn [registry trace]. rewrite <- app_assoc. reflexivity.
Qed.

(** The whole run, when the probes are answered with numbers. *)
Lemma cmd_test_run (E : env) (w : world)
    (data : pyval) (ps : list profile) (a : profile) (status : Z)
    (d items real : list (string * pyval)) :
  registry w = Doc data ->
  profiles_of data = Ret ps ->
  find p_active ps = Some a ->
  daemon E (trace w) LIST_PROXIES = Response status (Json (PDict d)) ->
  status <> 204 ->
  assoc "proxies" d = Some (PDict items) ->
  real_nodes_of items = Ret real ->
  items <> [] ->
  (forall name info, In (name, info) real ->
     exists ty, py_getitem info "type" = Ret ty /\ format_ok ty = true) ->
  Permutation (schedule E (map fst real)) (map fst real) ->
  (forall history name, sane_probe (daemon E history (probe_request name))) ->
  exists results out,
    map (fun r => fst (fst r)) results = schedule E (map fst real)
    /\ (forall r, In r results -> num_of (snd r) = Some (number_of (snd r)))
    /\ sort_by_delay (fun x : string * pyval * pyval => snd x) results = Ret out
    /\ cmd_test E w
       = (Ret tt,
          World (registry w)
                (trace w
                 ++ EApi LIST_PROXIES
                    :: EPrint (MTesting (List.length real) (p_name a))
                    :: map probe_call (schedule E (map fst real))
                 ++ EPrint MHeader :: EPrint MRule
                    :: map EPrint (map test_row (enumerate 1 out))
                 ++ [EPrint (MSummary (List.length (available snd out))
                                      (List.length out));
                     EPrint (match available snd out with
                             | (name, _, delay) :: _ => MBestOf name delay
                             | [] => MNewline
                             end)])%list).
Proof.
  intros Hr Hp Ha Hd Hs Hprox Hreal Hne Hty Hperm Hsane.
  rewrite (cmd_test_until_probes E w data ps a status d items real); auto.
  rewrite bind_run. unfold run_probes.
  destruct (mapM_probes_sane E (schedule E (map fst real))
              (World (registry w)
                 (trace w ++ [EApi LIST_PROXIES;
                              EPrint (MTesting (List.length real) (p_name a))]))
              Hsane) as [done [Hrun [Hnames Hdone]]].
  rewrite Hrun. cbn [registry trace].
  destruct (collect_test_total real done Hdone) as [results [Hc [Hl Hok]]].
  { intros name Hn. rewrite Hnames in Hn.
    exact (Permutation_in _ Hperm Hn). }
  { exact Hty. }
  assert (Hnum : forall x, In x results ->
                   num_of (snd x) = Some (number_of (snd x))).
  { intros x Hx. rewrite Forall_forall in Hok.
    apply num_of_number, (Hok x Hx). }
  destruct (sort_by_delay_sorted (fun x : string * pyval * pyval => snd x)
              (fun x => number_of (snd x)) results Hnum)
    as [out [Hsort [Hpo _]]].
  exists results, out. split; [now rewrite Hl|]. split; [exact Hnum|].
  split; [exact Hsort|].
  unfold show_test. rewrite bind_run, lift_run, Hc.
  rewrite bind_run, lift_run, Hsort, bind_run, print_run, bind_run, print_run.
  cbn [registry trace]. rewrite bind_run.
  assert (Hok' : Forall (fun r : string * pyval * pyval =>
                           num_of (snd r) <> None
                           /\ format_ok (snd (fst r)) = true) out).
  { exact (Permutation_Forall Hpo Hok). }
  rewrite (test_rows_print out 1 _ Hok'). cbn [registry trace].
  assert (Hnum' : forall x, In x out ->
                    num_of (snd x) = Some (number_of (snd x))).
  { intros x Hx. apply Hnum. exact (Permutation_in _ (Permutation_sym Hpo) Hx). }
  rewrite bind_run, lift_run,
    (filterO_ge0 (fun x : string * pyval * pyval => snd x)
       (fun x => number_of (snd x)) out Hnum').
  fold (available (fun x : string * pyval * pyval => snd x) out).
  rewrite bind_run, print_run. cbn [registry trace].
  assert (Hlast : forall l : list (string * pyval * pyval),
            match l with
            | [] => print MNewline
            | (name, _, delay) :: _ => print (MBestOf name delay)
            end
            = print (match l with
                     | [] => MNewline
                     | (name, _, delay) :: _ => MBestOf name delay
                     end)).
  { intros [|[[n t] dl] l]; reflexivity. }
  rewrite Hlast, print_run. cbn [registry trace].
  f_equal. f_equal. rewrite <- !app_assoc. cbn [app]. reflexivity.
Qed.

(** X25.  A whole run of [cmd_test] on a daemon that behaves.  With an
    active profile, a listing that is an object with a non-empty [proxies]
    object, a string (or number) as the type of every real node, a pool
    that completes every submitted probe, and probes answered with a failure
    that has a text body, a 204, a falsy body, or an object whose delay, when
    it has one, is a number, the command returns.  It makes the listing call and one probe per real node and no other call,
    then prints the two header lines, exactly one row per real node, and a
    summary whose total is the number of real nodes and whose count of
    available nodes is at most that, followed by one closing line. *)
Theorem cmd_test_reports_every_node (E : env) (w : world)
    (data : pyval) (ps : list profile) (a : profile) (status : Z)
    (d items real : list (string * pyval)) :
  registry w = Doc data ->
  profiles_of data = Ret ps ->
  find p_active ps = Some a ->
  daemon E (trace w) LIST_PROXIES = Response status (Json (PDict d)) ->
  status <> 204 ->
  assoc "proxies" d = Some (PDict items) ->
  real_nodes_of items = Ret real ->
  items <> [] ->
  (forall name info, In (name, info) real ->
     exists ty, py_getitem info "type" = Ret ty /\ format_ok ty = true) ->
  Permutation (schedule E (map fst real)) (map fst real) ->
  (forall history name, sane_probe (daemon E history (probe_request name))) ->
  exists rows available closing,
    cmd_test E w
    = (Ret tt,
       World (registry w)
             (trace w
              ++ EApi LIST_PROXIES
                 :: EPrint (MTesting (List.length real) (p_name a))
                 :: map probe_call (schedule E (map fst real))
              ++ EPrint MHeader :: EPrint MRule :: map EPrint rows
              ++ [EPrint (MSummary available (List.length real));
                  EPrint closing])%list)
    /\ List.length rows = List.length real
    /\ (available <= List.length real)%nat.
Proof.
  intros Hr Hp Ha Hd Hs Hprox Hreal Hne Hty Hperm Hsane.
  destruct (cmd_test_run E w data ps a status d items real
              Hr Hp Ha Hd Hs Hprox Hreal Hne Hty Hperm Hsane)
    as [results [out [Hnames [Hnum [Hsort Hrun]]]]].
  destruct (sort_by_delay_sorted (fun x : string * pyval * pyval => snd x)
              (fun x => number_of (snd x)) results Hnum)
    as [out' [Hsort' [Hpo _]]].
  rewrite Hsort in Hsort'. injection Hsort' as <-.
  assert (Hlen : List.length out = List.length real).
  { rewrite <- (Permutation_length Hpo).
    rewrite <- (length_map (fun r => fst (fst r)) results), Hnames.
    rewrite (Permutation_length Hperm). apply length_map. }
  exists (map test_row (enumerate 1 out)),
    (List.length (available (fun x : string * pyval * pyval => snd x) out)).
  eexists. rewrite Hrun, Hlen. split; [reflexivity|]. split.
  - now rewrite length_map, enumerate_length.
  - rewrite <- Hlen. apply filter_length_le.
Qed.

(** A witness for X25: the demonstration's listing has three real nodes;
    two answer after 80 ms and one times out. *)
Lemma cmd_test_reports_every_node_witness :
  exists rows available closing,
    cmd_test (Demo.install Demo.tied_daemon id) Demo.start
    = (Ret tt,
       World (Doc Demo.registry_doc)
             (EApi LIST_PROXIES
                :: EPrint (MTesting 3 (PStr "Home"))
                :: map probe_call ["N1"; "N2"; "N3"]
              ++ EPrint MHeader :: EPrint MRule :: map EPrint rows
              ++ [EPrint (MSummary available 3); EPrint closing])%list)
    /\ List.length rows = 3%nat
    /\ (available <= 3)%nat.
Proof.
  refine (cmd_test_reports_every_node
            (Demo.install Demo.tied_daemon id) Demo.start
            Demo.registry_doc _ Demo.home 200
            [("proxies", _)] _
            [("N1", PDict [("type", PStr "Shadowsocks")]);
             ("N2", PDict [("type", PStr "Vmess")]);
             ("N3", PDict [("type", PStr "Trojan")])]
            eq_refl eq_refl eq_refl eq_refl _ eq_refl eq_refl _ _ _ _).
  - discriminate.
  - discriminate.
  - intros name info H. cbn in H.
    destruct H as [H|[H|[H|[]]]]; injection H as <- <-;
      eexists; split; reflexivity.
  - apply Permutation_refl.
  - intros history name.
    unfold daemon, Demo.tied_daemon, Demo.frozen_daemon, Demo.delay_of,
      Demo.install.
    cbn [request_builds answer find fst snd]. unfold probe_request.
    cbn [call_method call_path].
    change ("GET" =? "PUT")%string with false. cbv iota.
    repeat match goal with
           | |- context [String.eqb ?a ?b] =>
               destruct (String.eqb a b); cbn [snd]
           end;
      try exact I; right; right; eexists;
      (split; [reflexivity | cbn; first [exact I | discriminate]]).
Defined.

(** A witness for X14: a profile whose file is missing yields no node; a
    file with a node and a notice entry yields the node only. *)
Lemma parse_profile_nodes_keeps_real_names_witness :
  let E0 := Demo.install (Demo.always (URLError "down")) id in
  let E1 :=
    Demo.with_profile_file E0 "b2.yaml"
      (PDict [("proxies",
               PList [PDict [("name", PStr "N1"); ("type", PStr "ss")];
                      PDict [("name", PStr "官网 example.org");
                             ("type", PStr "ss")]])]) in
  parse_profile_nodes E0 Demo.work = Ret []
  /\ exists nodes,
       parse_profile_nodes E1 Demo.work = Ret nodes
       /\ map n_name nodes = [PStr "N1"]
       /\ forall n, In n nodes ->
            n_profile n = PStr "Work" /\ n_profile_uid n = PStr "b2"
            /\ forall s, n_name n = PStr s -> ~ has_info_marker s.
Proof.
  intros E0 E1. split.
  - apply (proj1 (parse_profile_nodes_keeps_real_names E0 Demo.work) "b2.yaml");
      reflexivity.
  - eexists. split; [vm_compute; reflexivity|]. split; [reflexivity|].
    intros n Hn.
    exact (proj2 (parse_profile_nodes_keeps_real_names E1 Demo.work)
             _ n eq_refl Hn).
Defined.

(** ** Computations that only add to the trace *)

Lemma only_prints_ret {A} (a : A) : only_prints (ret a).
Proof. intros w. exists []. cbn. rewrite app_nil_r. now destruct w. Qed.

Lemma only_prints_lift {A} (o : outcome A) : only_prints (lift o).
Proof. intros w. exists []. cbn. rewrite app_nil_r. now destruct w. Qed.


Lemma only_prints_print (m : message) : only_prints (print m).
Proof. intros w. now exists [m]. Qed.

Lemma only_prints_bind {A B} (m : M A) (k : A -> M B) :
  only_prints m -> (forall a, only_prints (k a)) -> only_prints (bind m k).
Proof.
  intros Hm Hk w. rewrite bind_run. destruct (Hm w) as [l1 H1].
  destruct (m w) as [[a|e] w1]; cbn [snd] in H1; subst w1.
  - destruct (Hk a (World (registry w) (trace w ++ map EPrint l1)))
      as [l2 H2].
    exists (l1 ++ l2)%list. rewrite H2. cbn [registry trace].
    now rewrite map_app, app_assoc.
  - now exists l1.
Qed.

Lemma only_prints_forM_ {A} (l : list A) (f : A -> M unit) :
  (forall a, only_prints (f a)) -> only_prints (forM_ l f).
Proof.
  intros H. induction l as [|a l IH]; cbn [forM_]; [apply only_prints_ret|].
  apply only_prints_bind; [apply H | intros _; exact IH].
Qed.


Lemma grows_only_prints {A} (m : M A) : only_prints m -> grows m.
Proof.
  intros H w. destruct (H w) as [msgs Hm]. exists (map EPrint msgs).
  now rewrite Hm.
Qed.

Lemma grows_bind {A B} (m : M A) (k : A -> M B) :
  grows m -> (forall a, grows (k a)) -> grows (bind m k).
Proof.
  intros Hm Hk w. rewrite bind_run. destruct (Hm w) as [t1 H1].
  destruct (m w) as [[a|e] w1]; cbn [snd] in H1.
  - destruct (Hk a w1) as [t2 H2]. exists (t1 ++ t2)%list.
    now rewrite H2, H1, app_assoc.
  - now exists t1.
Qed.

Lemma grows_api_request (E : env) (path method : string) (data : pyval) :
  grows (api_request E path method data).
Proof.
  intros w. destruct (request_builds E) eqn:Eb.
  - rewrite (api_request_run E _ _ _ w Eb). eexists. reflexivity.
  - rewrite (api_request_unbuilt E _ _ _ w Eb). exists [].
    cbn [snd]. now rewrite app_nil_r.
Qed.

Lemma grows_select_best (E : env) (group : string)
    (results : list (string * pyval)) :
  grows (select_best E group results).
Proof.
  unfold select_best.
  apply grows_bind; [apply grows_only_prints, only_prints_lift | intros out].
  apply grows_bind; [apply grows_only_prints, only_prints_lift | intros av].
  apply grows_bind; [|intros _].
  { apply grows_only_prints, only_prints_forM_. intros [i [name delay]].
    unfold print_best_row.
    apply only_prints_bind; [apply only_prints_lift | intros ge].
    apply only_prints_print. }
  destruct av as [|[best d] av];
    [apply grows_only_prints, only_prints_print|].
  apply grows_bind; [apply grows_only_prints, only_prints_print | intros _].
  apply grows_bind; [apply grows_api_request | intros result].
  destruct result; apply grows_only_prints, only_prints_print.
Qed.

(** ** The real nodes of the daemon's listing *)





(** ** The probe set of [cmd_best] *)

Lemma collect_best_names (done : list (string * outcome pyval))
    (results : list (string * pyval)) :
  collect_best done = Ret results -> map fst results = map fst done.
Proof.
  revert results. induction done as [|[name o] done IH]; intros results H.
  - injection H as <-. reflexivity.
  - cbn [collect_best] in H. destruct o as [delay|]; [|discriminate].
    cbn [obind] in H.
    destruct (collect_best done) as [rest|]; [|discriminate].
    injection H as <-. cbn [map fst]. now rewrite (IH rest eq_refl).
Qed.

(** The run of [probe_group] on a group that can be read. *)
Lemma probe_group_run (E : env) (group : string) (w : world) (status : Z)
    (info : list (string * pyval)) (members candidates : list pyval)
    (proxies : pyval) (nodes : list string) :
  daemon E (trace w) (group_request group)
  = Response status (Json (PDict info)) ->
  status <> 204 ->
  assoc "all" info = Some (PList members) ->
  api_result (daemon E (trace w ++ [EApi (group_request group)]) LIST_PROXIES)
  = Ret proxies ->
  filterO is_candidate members = Ret candidates ->
  actual_nodes_of proxies candidates = Ret nodes ->
  exists done,
    map fst done = schedule E nodes
    /\ probe_group E group w
       = (let? results := collect_best done in Ret (Some results),
          World (registry w)
                (trace w
                 ++ EApi (group_request group) :: EApi LIST_PROXIES
                    :: EPrint (MTestingGroup (List.length nodes) group)
                    :: map probe_call (schedule E nodes))).
Proof.
  intros Hg Hs Hall Hl Hc Ha.
  assert (Hres : api_result (daemon E (trace w) (group_request group))
                 = Ret (PDict info)).
  { rewrite Hg. cbn [api_result].
    now destruct (Z.eqb_spec status 204) as [|_]. }
  assert (Hb : request_builds E = true).
  { apply (daemon_builds E (trace w) (group_request group)).
    rewrite Hg. discriminate. }
  destruct (run_probes_run E nodes
              (World (registry w)
                 (trace w ++ [EApi (group_request group); EApi LIST_PROXIES;
                              EPrint (MTestingGroup (List.length nodes) group)])))
    as [done [Hrun Hnames]].
  exists done. split; [exact Hnames|].
  unfold probe_group, api_get. rewrite bind_run.
  rewrite (api_request_ret E _ _ _ w (PDict info)) by exact Hres.
  cbn [request_body]. fold (group_request group).
  rewrite bind_run, lift_run. unfold group_unreadable.
  assert (Ht : truthy (PDict info) = true) by (destruct info; [discriminate | reflexivity]).
  rewrite Ht. cbn [negb py_in]. rewrite Hall. cbn [obind negb].
  rewrite bind_run, lift_run. cbn [py_getitem]. rewrite Hall.
  cbn [obind py_iter]. rewrite bind_run, lift_run, Hc, bind_run.
  rewrite (api_request_ret E _ _ _ _ proxies) by exact Hl.
  cbn [request_body registry trace]. fold LIST_PROXIES.
  rewrite bind_run, lift_run, Ha, bind_run, print_run. cbn [registry trace].
  rewrite <- !app_assoc. cbn [app request_body truthy]. fold (group_request group).
  fold LIST_PROXIES. rewrite bind_run, Hrun.
  rewrite (sent_built E _ Hb). cbn [registry trace].
  rewrite <- !app_assoc. cbn [app]. rewrite bind_run, lift_run.
  destruct (collect_best done); reflexivity.
Qed.

(** C10.  [cmd_best] on a group that can be read: the call that reads the
    group returns an object whose [all] is the list [members], the
    comprehension keeps [candidates] of them, and the loop over the listing
    that follows keeps [nodes], names that are text.  A member that contains no informational
    keyword, is none of the sink names and has no entry in the listing is
    one of [nodes]: the type looked up for it is [None], which is no
    reserved kind.  The command announces [nodes] and submits one probe for
    each of them and for nothing else, so when the pool completes what was
    submitted, the member is probed. *)
Theorem unlisted_member_is_probed (E : env) (group : string) (w : world)
    (status : Z) (info : list (string * pyval))
    (members candidates : list pyval) (proxies : pyval)
    (nodes : list string) (name : string) :
  daemon E (trace w) (group_request group)
  = Response status (Json (PDict info)) ->
  status <> 204 ->
  assoc "all" info = Some (PList members) ->
  api_result (daemon E (trace w ++ [EApi (group_request group)]) LIST_PROXIES)
  = Ret proxies ->
  filterO is_candidate members = Ret candidates ->
  actual_nodes_of proxies candidates = Ret nodes ->
  (forall n, In n nodes -> well_encoded n = true) ->
  In (PStr name) members ->
  ~ has_info_marker name ->
  ~ In name SINK_NAMES ->
  unlisted proxies name ->
  In (PStr name) candidates
  /\ In name nodes
  /\ snd (probe_group E group w)
     = World (registry w)
             (trace w
              ++ EApi (group_request group) :: EApi LIST_PROXIES
                 :: EPrint (MTestingGroup (List.length nodes) group)
                 :: map probe_call (schedule E nodes))
  /\ (Permutation (schedule E nodes) nodes ->
      In (probe_call name) (trace (snd (probe_group E group w)))
      /\ In (probe_call name) (trace (snd (cmd_best E group w)))).
Proof.
  intros Hg Hs Hall Hl Hc Ha _ Hin Hinfo Hsink Hu.
  assert (Hi : is_informational name = false).
  { apply not_true_iff_false. intros Ht. apply Hinfo.
    now apply is_informational_spec. }
  destruct (unlisted_member_kept proxies name members candidates nodes
              Hu Hi Hsink Hin Hc Ha) as [Hcand Hnode].
  destruct (probe_group_run E group w status info members candidates proxies
              nodes Hg Hs Hall Hl Hc Ha) as [done [_ Hrun]].
  split; [exact (filterO_In _ _ _ _ Hc Hin Hcand)|].
  split; [exact Hnode|].
  assert (Hsnd : snd (probe_group E group w)
                 = World (registry w)
                     (trace w
                      ++ EApi (group_request group) :: EApi LIST_PROXIES
                         :: EPrint (MTestingGroup (List.length nodes) group)
                         :: map probe_call (schedule E nodes))).
  { now rewrite Hrun. }
  split; [exact Hsnd|]. intros Hperm.
  assert (Hprobe : In (probe_call name) (trace (snd (probe_group E group w)))).
  { rewrite Hsnd. cbn [trace]. apply in_or_app. right.
    right. right. right. apply in_map.
    exact (Permutation_in _ (Permutation_sym Hperm) Hnode). }
  split; [exact Hprobe|].
  unfold cmd_best. rewrite bind_run.
  destruct (probe_group E group w) as [[[results|]|e] w1]; cbn [snd] in *;
    try exact Hprobe.
  destruct (grows_select_best E group results w1) as [t Ht].
  rewrite Ht. apply in_or_app. now left.
Qed.

(** A witness for C10: the group of the demonstration names "Ghost", which
    the listing does not know; it is one of the four nodes [cmd_best]
    probes. *)
Lemma unlisted_member_is_probed_witness :
  let E := Demo.install Demo.tied_daemon id in
  snd (probe_group E "Proxies" Demo.start)
  = World (Doc Demo.registry_doc)
          (EApi (group_request "Proxies") :: EApi LIST_PROXIES
             :: EPrint (MTestingGroup 4 "Proxies")
             :: map probe_call ["N1"; "N2"; "N3"; "Ghost"])
  /\ In (probe_call "Ghost") (trace (snd (cmd_best E "Proxies" Demo.start))).
Proof.
  intros E.
  destruct (unlisted_member_is_probed E "Proxies" Demo.start 200
              [("type", PStr "Selector"); ("now", PStr "N1");
               ("all", PList [PStr "N1"; PStr "N2"; PStr "N3"; PStr "DIRECT";
                              PStr "Ghost"])]
              [PStr "N1"; PStr "N2"; PStr "N3"; PStr "DIRECT"; PStr "Ghost"]
              [PStr "N1"; PStr "N2"; PStr "N3"; PStr "Ghost"]
              Demo.listing ["N1"; "N2"; "N3"; "Ghost"] "Ghost"
              eq_refl ltac:(discriminate) eq_refl eq_refl eq_refl eq_refl)
    as [_ [_ [Hrun Hprobed]]].
  - intros n [<-|[<-|[<-|[<-|[]]]]]; reflexivity.
  - simpl. tauto.
  - intros [kw [Hkw [pre [post Heq]]]].
    assert (Hc : str_contains kw "Ghost" = true).
    { apply str_contains_spec. now exists pre, post. }
    revert Hc. simpl in Hkw.
    repeat (destruct Hkw as [<-|Hkw]; [vm_compute; discriminate|]).
    contradiction.
  - simpl. intros H. repeat (destruct H as [H|H]; [discriminate|]).
    contradiction.
  - eexists. split; reflexivity.
  - split; [exact Hrun|]. apply Hprobed. apply Permutation_refl.
Defined.

(** ** The rows of a round *)

Lemma best_rows_print (rows : list (string * pyval)) (n : nat) (w : world) :
  (forall r, In r rows -> num_of (snd r) <> None) ->
  forM_ (enumerate n rows) print_best_row w
  = (Ret tt,
     World (registry w)
           (trace w ++ map EPrint (map best_row (enumerate n rows)))).
Proof.
  revert n w. induction rows as [|[name delay] rows IH]; intros n w H.
  - cbn [enumerate forM_ map]. rewrite ret_run, app_nil_r. now destruct w.
  - cbn [enumerate forM_]. rewrite bind_run. unfold print_best_row at 1.
    rewrite bind_run, lift_run. unfold py_ge.
    rewrite (num_of_number delay (H (name, delay) (or_introl eq_refl))).
    rewrite print_run, IH by (intros r Hr; apply H; now right).
    cbn [registry trace map best_row]. now rewrite <- app_assoc.
Qed.

(** The results a round of [cmd_best] collects are in the order in which
    the probes completed. *)
Lemma probe_group_results (E : env) (group : string) (w w1 : world)
    (results : list (string * pyval)) :
  probe_group E group w = (Ret (Some results), w1) ->
  exists nodes, map fst results = schedule E nodes.
Proof.
  unfold probe_group. rewrite bind_run.
  destruct (api_get E _ w) as [[info|e] w2]; [|discriminate].
  rewrite bind_run, lift_run.
  destruct (group_unreadable info) as [[|]|e]; [| |discriminate].
  { rewrite bind_run, print_run, ret_run. discriminate. }
  rewrite bind_run, lift_run.
  destruct (let? all := py_getitem info "all" in py_iter all)
    as [members|e]; [|discriminate].
  rewrite bind_run, lift_run.
  destruct (filterO is_candidate members) as [candidates|e]; [|discriminate].
  rewrite bind_run. destruct (api_get E _ w2) as [[proxies|e] w3]; [|discriminate].
  rewrite bind_run, lift_run.
  destruct (actual_nodes_of proxies candidates) as [nodes|e]; [|discriminate].
  rewrite bind_run, print_run, bind_run.
  destruct (run_probes_run E nodes
              (World (registry w3)
                 (trace w3 ++ [EPrint (MTestingGroup (List.length nodes) group)])))
    as [done [Hrun Hnames]].
  rewrite Hrun, bind_run, lift_run.
  destruct (collect_best done) as [collected|e] eqn:Ec; [|discriminate].
  rewrite ret_run. intros H. injection H as <- _.
  exists nodes. now rewrite (collect_best_names done collected Ec).
Qed.

(** C1, amended.  The rows a round displays are the collected results,
    ranked.  [cmd_test], on a daemon that answers every probe with a
    number, collects one result per real node in the order in which the
    probes complete and prints one row for each of them; [cmd_best], when its
    round has collected results that are numbers, prints a row for the first
    ten.  In both, the rows follow the ranking: an available result (delay at
    least 0) comes before an unreachable one, and within each of the two
    groups the delays ascend.  The ranking is a permutation of the collected
    results, and results with the same delay stay in the order in which they
    were collected, which is the order of completion and not the order of
    the names. *)
Theorem displayed_rows_are_ranked (E : env) (w : world) :
  (forall (data : pyval) (ps : list profile) (a : profile) (status : Z)
          (d items real : list (string * pyval)),
     registry w = Doc data ->
     profiles_of data = Ret ps ->
     find p_active ps = Some a ->
     daemon E (trace w) LIST_PROXIES = Response status (Json (PDict d)) ->
     status <> 204 ->
     assoc "proxies" d = Some (PDict items) ->
     real_nodes_of items = Ret real ->
     items <> [] ->
     (forall name info, In (name, info) real ->
        exists ty, py_getitem info "type" = Ret ty /\ format_ok ty = true) ->
     Permutation (schedule E (map fst real)) (map fst real) ->
     (forall history name, sane_probe (daemon E history (probe_request name))) ->
     exists results out,
       map (fun r => fst (fst r)) results = schedule E (map fst real)
       /\ Permutation results out
       /\ StronglySorted
            (fun x y => ranked (number_of (snd x)) (number_of (snd y))) out
       /\ (forall n,
             filter (fun r => number_of (snd r) =? n) out
             = filter (fun r => number_of (snd r) =? n) results)
       /\ cmd_test E w
          = (Ret tt,
             World (registry w)
                   (trace w
                    ++ EApi LIST_PROXIES
                       :: EPrint (MTesting (List.length real) (p_name a))
                       :: map probe_call (schedule E (map fst real))
                    ++ EPrint MHeader :: EPrint MRule
                       :: map EPrint (map test_row (enumerate 1 out))
                    ++ [EPrint (MSummary (List.length (available snd out))
                                         (List.length out));
                        EPrint (match available snd out with
                                | (name, _, delay) :: _ => MBestOf name delay
                                | [] => MNewline
                                end)])%list))
  /\ (forall (group : string) (w1 : world) (results : list (string * pyval)),
        probe_group E group w = (Ret (Some results), w1) ->
        (forall r, In r results -> num_of (snd r) <> None) ->
        exists nodes out closing,
          map fst results = schedule E nodes
          /\ Permutation results out
          /\ StronglySorted
               (fun x y => ranked (number_of (snd x)) (number_of (snd y))) out
          /\ (forall n,
                filter (fun r => number_of (snd r) =? n) out
                = filter (fun r => number_of (snd r) =? n) results)
          /\ trace (snd (cmd_best E group w))
             = (trace w1
                ++ map EPrint (map best_row (enumerate 1 (firstn 10 out)))
                ++ closing)%list
          /\ match available snd out with
             | [] => closing = [EPrint MNoAvailable]
             | (best, delay) :: _ =>
                 exists last,
                   closing = EPrint (MBest best delay)
                             :: EApi (select_call group best)
                             :: map EPrint last
                   /\ (List.length last <= 1)%nat
             end).
Proof.
  split.
  - intros data ps a status d items real Hr Hp Ha Hd Hs Hprox Hreal Hne Hty
      Hperm Hsane.
    destruct (cmd_test_run E w data ps a status d items real
                Hr Hp Ha Hd Hs Hprox Hreal Hne Hty Hperm Hsane)
      as [results [out [Hnames [Hnum [Hsort Hrun]]]]].
    destruct (sort_by_delay_sorted (fun x : string * pyval * pyval => snd x)
                (fun x => number_of (snd x)) results Hnum)
      as [out' [Hsort' [Hpo [Hso Hst]]]].
    rewrite Hsort in Hsort'. injection Hsort' as <-.
    exists results, out. split; [exact Hnames|]. split; [exact Hpo|].
    split; [exact Hso|]. split; [exact Hst | exact Hrun].
  - intros group w1 results Hprobe Hnum.
    destruct (probe_group_results E group w w1 results Hprobe) as [nodes Hn].
    pose proof (probe_group_builds E group w w1 _ Hprobe) as Hb.
    assert (Hnum' : forall r : string * pyval,
               In r results -> num_of (snd r) = Some (number_of (snd r))).
    { intros r Hr. apply num_of_number, Hnum, Hr. }
    destruct (sort_by_delay_sorted snd (fun x : string * pyval => number_of (snd x))
                results Hnum')
      as [out [Hsort [Hpo [Hso Hst]]]].
    assert (Hout : forall r : string * pyval,
               In r out -> num_of (snd r) = Some (number_of (snd r))).
    { intros r Hr. apply Hnum'.
      exact (Permutation_in _ (Permutation_sym Hpo) Hr). }
    assert (Hcmd : cmd_best E group w = select_best E group results w1).
    { unfold cmd_best. now rewrite bind_run, Hprobe. }
    assert (Hrows : forall r, In r (firstn 10 out) -> num_of (snd r) <> None).
    { intros r Hr. rewrite Hout; [discriminate|].
      rewrite <- (firstn_skipn 10 out). apply in_or_app. now left. }
    assert (Hrun : select_best E group results w1
                   = match available snd out with
                     | (best_name, best_delay) :: _ =>
                         print (MBest best_name best_delay) ;;
                         result <- api_request E ("/proxies/" ++ quote group) "PUT"
                                     (PDict [("name", PStr best_name)]) ;;
                         match result with
                         | PNone => print (MSwitched group best_name)
                         | _ => print (MErrorSwitching result)
                         end
                     | [] => print MNoAvailable
                     end (World (registry w1)
                            (trace w1
                             ++ map EPrint
                                  (map best_row (enumerate 1 (firstn 10 out)))))).
    { unfold select_best. rewrite bind_run, lift_run, Hsort.
      rewrite bind_run, lift_run,
        (filterO_ge0 snd (fun x : string * pyval => number_of (snd x)) out Hout).
      rewrite bind_run, (best_rows_print (firstn 10 out) 1 w1 Hrows).
      reflexivity. }
    rewrite Hcmd, Hrun.
    destruct (available snd out) as [|[best delay] rest] eqn:Eav.
    + exists nodes, out, [EPrint MNoAvailable]. rewrite print_run.
      cbn [snd registry trace]. rewrite <- app_assoc.
      split; [exact Hn|]. split; [exact Hpo|]. split; [exact Hso|].
      split; [exact Hst|]. split; [reflexivity | now rewrite Eav].
    + rewrite bind_run, print_run, bind_run.
      rewrite (api_request_run E _ _ _ _ Hb).
      cbn [request_body truthy registry trace]. fold (select_call group best).
      destruct (api_result _) as [v|e].
      * exists nodes, out,
          (EPrint (MBest best delay) :: EApi (select_call group best)
             :: map EPrint [match v with
                            | PNone => MSwitched group best
                            | _ => MErrorSwitching v
                            end]).
        assert (Hv : match v with
                     | PNone => print (MSwitched group best)
                     | _ => print (MErrorSwitching v)
                     end
                     = print (match v with
                              | PNone => MSwitched group best
                              | _ => MErrorSwitching v
                              end)) by now destruct v.
        rewrite Hv, print_run. cbn [snd registry trace map].
        split; [exact Hn|]. split; [exact Hpo|]. split; [exact Hso|].
        split; [exact Hst|]. split.
        -- rewrite <- !app_assoc. reflexivity.
        -- rewrite Eav.
           exists [match v with
                   | PNone => MSwitched group best
                   | _ => MErrorSwitching v
                   end].
           split; [reflexivity | apply le_n].
      * exists nodes, out,
          (EPrint (MBest best delay) :: EApi (select_call group best)
             :: map EPrint []).
        cbn [snd registry trace map].
        split; [exact Hn|]. split; [exact Hpo|]. split; [exact Hso|].
        split; [exact Hst|]. split.
        -- rewrite <- !app_assoc. reflexivity.
        -- rewrite Eav. exists []. split; [reflexivity|]. apply le_S, le_n.
Qed.

Lemma tied_daemon_sane (sched : list string -> list string)
    (history : list event) (name : string) :
  sane_probe (daemon (Demo.install Demo.tied_daemon sched) history
                     (probe_request name)).
Proof.
  unfold daemon, Demo.tied_daemon, Demo.frozen_daemon, Demo.delay_of,
    Demo.install.
  cbn [request_builds answer find fst snd]. unfold probe_request.
  cbn [call_method call_path].
  change ("GET" =? "PUT")%string with false. cbv iota.
  repeat match goal with
         | |- context [String.eqb ?a ?b] =>
             destruct (String.eqb a b); cbn [snd]
         end;
    try exact I; right; right; eexists;
    (split; [reflexivity | cbn; first [exact I | discriminate]]).
Qed.

(** A witness for C1, amended: the probes of the demonstration complete in
    the reverse of the order in which they were submitted; the rows of
    [cmd_test] and of [cmd_best] are the ranking of what was collected. *)
Lemma displayed_rows_are_ranked_witness :
  let E := Demo.install Demo.tied_daemon (@rev string) in
  (exists results out,
     map (fun r => fst (fst r)) results = ["N3"; "N2"; "N1"]
     /\ Permutation results out
     /\ StronglySorted
          (fun x y => ranked (number_of (snd x)) (number_of (snd y))) out
     /\ (forall n,
           filter (fun r => number_of (snd r) =? n) out
           = filter (fun r => number_of (snd r) =? n) results)
     /\ cmd_test E Demo.start
        = (Ret tt,
           World (Doc Demo.registry_doc)
                 (EApi LIST_PROXIES
                    :: EPrint (MTesting 3 (PStr "Home"))
                    :: map probe_call ["N3"; "N2"; "N1"]
                  ++ EPrint MHeader :: EPrint MRule
                     :: map EPrint (map test_row (enumerate 1 out))
                  ++ [EPrint (MSummary (List.length (available snd out))
                                       (List.length out));
                      EPrint (match available snd out with
                              | (name, _, delay) :: _ => MBestOf name delay
                              | [] => MNewline
                              end)])%list))
  /\ (exists out closing,
        Permutation [("Ghost", PInt (-1)); ("N3", PInt 80);
                     ("N2", PInt (-1)); ("N1", PInt 80)] out
        /\ StronglySorted
             (fun x y => ranked (number_of (snd x)) (number_of (snd y))) out
        /\ trace (snd (cmd_best E "Proxies" Demo.start))
           = (trace (snd (probe_group E "Proxies" Demo.start))
              ++ map EPrint (map best_row (enumerate 1 (firstn 10 out)))
              ++ closing)%list).
Proof.
  intros E.
  destruct (displayed_rows_are_ranked E Demo.start) as [Htest Hbest]. split.
  - refine (Htest Demo.registry_doc _ Demo.home 200 [("proxies", _)] _
              [("N1", PDict [("type", PStr "Shadowsocks")]);
               ("N2", PDict [("type", PStr "Vmess")]);
               ("N3", PDict [("type", PStr "Trojan")])]
              eq_refl eq_refl eq_refl eq_refl _ eq_refl eq_refl _ _ _ _).
    + discriminate.
    + discriminate.
    + intros name info H. cbn in H.
      destruct H as [H|[H|[H|[]]]]; injection H as <- <-;
        eexists; split; reflexivity.
    + apply Permutation_sym, Permutation_rev.
    + apply tied_daemon_sane.
  - destruct (Hbest "Proxies" (snd (probe_group E "Proxies" Demo.start))
                [("Ghost", PInt (-1)); ("N3", PInt 80);
                 ("N2", PInt (-1)); ("N1", PInt 80)])
      as [nodes [out [closing [_ [Hp [Hs [_ [Ht _]]]]]]]].
    + reflexivity.
    + intros r [<-|[<-|[<-|[<-|[]]]]]; discriminate.
    + exists out, closing. split; [exact Hp|]. split; [exact Hs | exact Ht].
Defined.
